(** * DraftKings player-prop scraper: line normaliser, aggregator, cache

    A shallow embedding of [app.py].  Python values are modelled as follows.

    - [str]: a Rocq [string]; a character is a code point below 256.  On
      that range [str.strip] removes exactly the twelve characters for which
      [str.isspace] holds and the regular-expression class [\d] is exactly
      ['0'..'9'].
    - [int]: [Z].
    - [float]: IEEE 754 binary64, as a significand and a binary exponent,
      every operation rounding its exact result to 53 bits, ties to even.
    - exceptions: the [result] type; [try/except Exception] is a [match].
    - module globals, the clock and the remote site: the [World] record,
      threaded through a state monad. *)

From Stdlib Require Import ZArith String Ascii List Bool Lia.
From stdpp Require Import base gmap strings list.
Import ListNotations.

Local Open Scope Z_scope.

(** ** Exceptions *)

Inductive exn : Type :=
| ValueError
| OverflowError
| ZeroDivisionError.

Inductive result (A : Type) : Type :=
| Returns (a : A)
| Raises (e : exn).
Arguments Returns {A} a.
Arguments Raises {A} e.

Definition rbind {A B : Type} (r : result A) (f : A -> result B) : result B :=
  match r with
  | Returns a => f a
  | Raises e => Raises e
  end.

(** ** Strings *)

(** [str.isspace] on code points below 256: TAB, LF, VT, FF, CR, the four
    separators 0x1c-0x1f, SPACE, NEL (0x85) and NBSP (0xa0). *)
Definition is_space (c : ascii) : bool :=
  let n := Z.of_nat (nat_of_ascii c) in
  ((9 <=? n) && (n <=? 13)) || ((28 <=? n) && (n <=? 32))
  || (n =? 133) || (n =? 160).

(** The class [\d] on code points below 256. *)
Definition is_digit (c : ascii) : bool :=
  let n := Z.of_nat (nat_of_ascii c) in (48 <=? n) && (n <=? 57).

Definition digit_value (c : ascii) : Z := Z.of_nat (nat_of_ascii c) - 48.

Fixpoint lstrip (s : string) : string :=
  match s with
  | EmptyString => EmptyString
  | String c s' => if is_space c then lstrip s' else s
  end.

Fixpoint rstrip (s : string) : string :=
  match s with
  | EmptyString => EmptyString
  | String c s' =>
      match rstrip s' with
      | EmptyString => if is_space c then EmptyString else String c EmptyString
      | r => String c r
      end
  end.

(** [s.strip()] *)
Definition strip (s : string) : string := rstrip (lstrip s).

Fixpoint take_digits (s : string) : string :=
  match s with
  | EmptyString => EmptyString
  | String c s' => if is_digit c then String c (take_digits s') else EmptyString
  end.

Fixpoint drop_digits (s : string) : string :=
  match s with
  | EmptyString => EmptyString
  | String c s' => if is_digit c then drop_digits s' else s
  end.

Fixpoint all_digits (s : string) : bool :=
  match s with
  | EmptyString => true
  | String c s' => is_digit c && all_digits s'
  end.

(** [re.match(r'^(\d+)\+$', s)], returning group 1 on a match.  [\d+] is
    greedy and ['+'] is no digit, so the group is the longest digit prefix;
    [$] accepts the end of the string and also the position before one final
    line feed. *)
Definition re_match_number_plus (s : string) : option string :=
  let ds := take_digits s in
  let rest := drop_digits s in
  match ds with
  | EmptyString => None
  | _ =>
      if String.eqb rest "+" then Some ds
      else if String.eqb rest (String "+"%char (String (ascii_of_nat 10) EmptyString))
           then Some ds
           else None
  end.

(** ** Integers and their decimal notation *)

(** The default of [sys.get_int_max_str_digits()]: [int] refuses a longer
    digit string with [ValueError]. *)
Definition int_max_str_digits : nat := 4300.

Fixpoint int_of_digits (acc : Z) (s : string) : Z :=
  match s with
  | EmptyString => acc
  | String c s' => int_of_digits (10 * acc + digit_value c) s'
  end.

(** [int(ds)] for a non-empty string of decimal digits. *)
Definition py_int (ds : string) : result Z :=
  if (int_max_str_digits <? String.length ds)%nat then Raises ValueError
  else Returns (int_of_digits 0 ds).

Definition digit_char (d : Z) : ascii := ascii_of_nat (Z.to_nat (48 + d)).

Fixpoint dec_aux (fuel : nat) (n : Z) : string :=
  match fuel with
  | O => EmptyString
  | S fuel' =>
      if n <? 10 then String (digit_char n) EmptyString
      else dec_aux fuel' (n / 10) +:+ String (digit_char (n mod 10)) EmptyString
  end.

(** [str(n)] for [n >= 0]; a number has no more decimal digits than bits. *)
Definition dec (n : Z) : string := dec_aux (S (Z.to_nat (Z.log2 n))) n.

(** [str(n)] for any integer. *)
Definition str_of_int (n : Z) : string :=
  if n <? 0 then String "-"%char (dec (- n)) else dec n.

(** ** binary64 *)

(** The finite double [fm * 2^fe], with [|fm| <= 2^53]. *)
Record float : Type := Float { fm : Z; fe : Z }.

(** [m / 2^k] rounded to the nearest integer, ties to even ([0 <= m], [0 < k]). *)
Definition round_half_even (m k : Z) : Z :=
  let q := m / 2 ^ k in
  let r := m mod 2 ^ k in
  let h := 2 ^ (k - 1) in
  if r <? h then q
  else if h <? r then q + 1
  else if Z.even q then q else q + 1.

(** The exact value [m * 2^e] rounded to 53 significant bits. *)
Definition round53 (m e : Z) : float :=
  let k := Z.log2 (Z.abs m) + 1 - 53 in
  if k <=? 0 then Float m e
  else Float (Z.sgn m * round_half_even (Z.abs m) k) (e + k).

(** [float(n)], the conversion applied to the [int] operand of a mixed
    operation: correctly rounded, [OverflowError] from [2^1024 - 2^970] on. *)
Definition float_of_int (n : Z) : result float :=
  let f := round53 n 0 in
  if 2 ^ 1024 <=? Z.abs (fm f) * 2 ^ fe f then Raises OverflowError
  else Returns f.

Definition float_sub (a b : float) : float :=
  let e := Z.min (fe a) (fe b) in
  round53 (fm a * 2 ^ (fe a - e) - fm b * 2 ^ (fe b - e)) e.

Definition float_mul (a b : float) : float :=
  round53 (fm a * fm b) (fe a + fe b).

(** The literal [0.5]. *)
Definition float_half : float := Float 1 (-1).

(** [a / b] on two [int]s ([0 <= a]): the correctly rounded quotient.  The
    quotient is taken with at least 55 bits and a sticky bit for the
    remainder, which rounds like the exact value. *)
Definition int_truediv (a b : Z) : result float :=
  if b =? 0 then Raises ZeroDivisionError
  else
    let s := Z.max 0 (55 + Z.log2 b - Z.log2 a) in
    let q := (a * 2 ^ s) / b in
    let sticky := if (a * 2 ^ s) mod b =? 0 then 0 else 1 in
    Returns (round53 (2 * q + sticky) (- s - 1)).

(** *** [repr] of a float: the shortest decimal that reads back *)

Definition pow_pos (b z : Z) : Z := b ^ Z.max z 0.
Definition pow_neg (b z : Z) : Z := b ^ Z.max (- z) 0.

(** Binary exponent of the unit in the last place of [m * 2^e]. *)
Definition ulp_exp (m e : Z) : Z := Z.log2 m + e - 52.

(** [floor (m * 2^e / 10^u)] for [0 < m]. *)
Definition floor_scaled (m e u : Z) : Z :=
  (m * pow_pos 2 e * pow_neg 10 u) / (pow_neg 2 e * pow_pos 10 u).

(** The decimal [c * 10^u] and the double [m * 2^e], both multiplied by
    [2^(2 - E) * 10^(-u)] where needed to make them integers ([E] the
    exponent of the unit in the last place). *)
Definition scaled_decimal (m e c u : Z) : Z :=
  c * pow_pos 10 u * pow_neg 2 (ulp_exp m e - 2).
Definition scaled_double (m e u : Z) : Z :=
  m * 2 ^ (e + Z.max (- (ulp_exp m e - 2)) 0) * pow_neg 10 u.
Definition scaled_pow2 (m e u z : Z) : Z :=
  2 ^ (z + Z.max (- (ulp_exp m e - 2)) 0) * pow_neg 10 u.

(** Does the decimal [c * 10^u] round to the double [m * 2^e] ([0 < m])?
    It does within half a unit in the last place above, and below (a quarter
    below a power of two, where the spacing halves); the end points belong
    to the double whose 53-bit significand is even. *)
Definition reads_back (m e c u : Z) : bool :=
  let E := ulp_exp m e in
  let C := scaled_decimal m e c u in
  let X := scaled_double m e u in
  let up := scaled_pow2 m e u (E - 1) in
  let down := if m =? 2 ^ Z.log2 m then scaled_pow2 m e u (E - 2)
              else scaled_pow2 m e u (E - 1) in
  let closed := negb (Z.log2 m =? 52) || Z.even m in
  if closed then (X - down <=? C) && (C <=? X + up)
  else (X - down <? C) && (C <? X + up).

(** Shortest digits: for [p = 1, 2, ...] significant digits try the two
    [p]-digit decimals around the double; the first [p] where one reads back
    gives the digits, the nearer of the two when both do.  Seventeen digits
    always suffice.  The result is the digit number [c] and the exponent [u]
    of its last digit. *)
Fixpoint shortest_digits (fuel : nat) (m e d p : Z) : Z * Z :=
  let u := d - p in
  let lo := floor_scaled m e u in
  let hi := lo + 1 in
  match fuel with
  | O => (lo, u)
  | S fuel' =>
      let X := scaled_double m e u in
      let dl := X - scaled_decimal m e lo u in
      let dh := scaled_decimal m e hi u - X in
      match reads_back m e lo u, reads_back m e hi u with
      | true, true =>
          if dl <? dh then (lo, u)
          else if dh <? dl then (hi, u)
          else if Z.even lo then (lo, u) else (hi, u)
      | true, false => (lo, u)
      | false, true => (hi, u)
      | false, false => shortest_digits fuel' m e d (p + 1)
      end
  end.

(** The least [d] with [m * 2^e < 10^d]: for a value of at least one, the
    number of digits of its integer part; below one, found by descent. *)
Fixpoint decpt_below_one (fuel : nat) (m e d : Z) : Z :=
  match fuel with
  | O => d
  | S fuel' =>
      (* 10^(d-1) <= m * 2^e ? *)
      if pow_pos 10 (d - 1) * pow_neg 2 e <=? m * pow_pos 2 e * pow_neg 10 (d - 1)
      then d else decpt_below_one fuel' m e (d - 1)
  end.

Definition decimal_point (m e : Z) : Z :=
  if pow_neg 2 e <=? m * pow_pos 2 e
  then Z.of_nat (String.length (dec (floor_scaled m e 0)))
  else decpt_below_one 400 m e 0.

Fixpoint rstrip_zeros (s : string) : string :=
  match s with
  | EmptyString => EmptyString
  | String c s' =>
      match rstrip_zeros s' with
      | EmptyString => if Ascii.eqb c "0"%char then EmptyString else String c EmptyString
      | r => String c r
      end
  end.

Fixpoint zeros (n : nat) : string :=
  match n with
  | O => EmptyString
  | S n' => String "0"%char (zeros n')
  end.

Fixpoint str_take (n : nat) (s : string) : string :=
  match n, s with
  | S n', String c s' => String c (str_take n' s')
  | _, _ => EmptyString
  end.

Fixpoint str_drop (n : nat) (s : string) : string :=
  match n, s with
  | S n', String _ s' => str_drop n' s'
  | _, _ => s
  end.

(** Layout of [repr]: digits [ds] with the decimal point after the first
    [decpt] of them.  Plain notation for [-4 < decpt <= 16], else scientific
    with an exponent of at least two digits. *)
Definition repr_layout (ds : string) (decpt : Z) : string :=
  if (decpt <=? -4) || (16 <? decpt) then
    let x := decpt - 1 in
    let mant :=
      match ds with
      | String c EmptyString => ds
      | String c rest => String c (String "."%char rest)
      | EmptyString => ds
      end in
    let xs := dec (Z.abs x) in
    mant +:+ "e" +:+ (if x <? 0 then "-" else "+")
         +:+ (if Z.abs x <? 10 then String "0"%char xs else xs)
  else if decpt <=? 0 then
    "0." +:+ zeros (Z.to_nat (- decpt)) +:+ ds
  else if (Z.of_nat (String.length ds) <=? decpt) then
    ds +:+ zeros (Z.to_nat (decpt - Z.of_nat (String.length ds))) +:+ ".0"
  else
    str_take (Z.to_nat decpt) ds +:+ "." +:+ str_drop (Z.to_nat decpt) ds.

Definition repr_positive (m e : Z) : string :=
  let d := decimal_point m e in
  let '(c, u) := shortest_digits 17 m e d 1 in
  let ds := dec c in
  repr_layout (rstrip_zeros ds) (Z.of_nat (String.length ds) + u).

(** [repr(x)], which is also what an f-string field without a format
    specification renders. *)
Definition float_repr (x : float) : string :=
  if fm x =? 0 then "0.0"
  else if fm x <? 0 then String "-"%char (repr_positive (- fm x) (fe x))
  else repr_positive (fm x) (fe x).

(** [format(x, '.1f')]: the exact value rounded to tenths, ties to even. *)
Definition float_format_1f (x : float) : string :=
  let a := Z.abs (fm x) in
  let t := if 0 <=? fe x then 10 * a * 2 ^ fe x
           else round_half_even (10 * a) (- fe x) in
  (if fm x <? 0 then "-" else "") +:+ dec (t / 10) +:+ "." +:+ dec (t mod 10).

(** ** The line normaliser *)

Definition convert_bet_line (bet_line : string) : result string :=
  if String.eqb bet_line "" then Returns bet_line
  else
    match re_match_number_plus (strip bet_line) with
    | Some group1 =>
        rbind (py_int group1) (fun number =>
        rbind (float_of_int number) (fun x =>
        Returns ("Over " +:+ float_repr (float_sub x float_half))))
    | None => Returns bet_line
    end.

(** ** Records and rows *)

(** One entry of the result: the dictionary built by [parse_prop_row].
    [scraped_timestamp] is kept as the instant (microseconds) whose ISO
    rendering the code stores. *)
Record PropRecord : Type := {
  event : string;
  event_date : string;
  market : string;
  betslip_line : string;
  converted_betslip_line : string;
  odds : string;
  draftkings_url : string;
  sport : string;
  scraped_date_range : string;
  scraped_timestamp : Z
}.

(** What the parser asks of the markup: of an [<a>] element its [.text] and
    its [href] attribute when it has one; of a [<td>] cell its [.text] and
    the result of [find('a')]; of a [<tr>] row the list [find_all('td')]. *)
Record Anchor : Type := { a_text : string; a_href : option string }.
Record Cell : Type := { c_text : string; c_link : option Anchor }.
Definition Row : Type := list Cell.

(** A fetched page: [soup.find('table', class_='tb_pp_table')] finds nothing,
    or the table has no [tbody], or the [tbody] has these [tr] rows. *)
Inductive page : Type :=
| NoPropsTable
| NoTbody
| PropRows (prop_rows : list Row).

(** [requests.get], [raise_for_status] and the markup parser either raise or
    deliver a page. *)
Inductive fetch_outcome : Type :=
| FetchRaises
| Fetched (p : page).

(** ** The world: globals, clock, remote site *)

Record World : Type := {
  (** the value of the i-th call of [datetime.now()], in microseconds *)
  now_readings : nat -> Z;
  clock_reads : nat;
  (** the outcome of the i-th request, by URL *)
  remote : nat -> string -> fetch_outcome;
  (** the URLs requested so far, oldest first *)
  requests : list string;
  (** how often [scrape_player_props] was entered *)
  scrape_calls : nat;
  cached_props_data : list PropRecord;
  cache_timestamp : option Z
}.

Definition M (A : Type) : Type := World -> A * World.
Definition ret {A : Type} (a : A) : M A := fun w => (a, w).
Definition bind {A B : Type} (m : M A) (f : A -> M B) : M B :=
  fun w => let '(a, w') := m w in f a w'.

Notation "'do' x <- m ; k" := (bind m (fun x => k))
  (at level 10, x name, m at level 100, k at level 200).
Notation "'run' m ; k" := (bind m (fun _ => k))
  (at level 10, m at level 100, k at level 200).

Definition datetime_now : M Z := fun w =>
  (now_readings w (clock_reads w),
   {| now_readings := now_readings w; clock_reads := S (clock_reads w);
      remote := remote w; requests := requests w;
      scrape_calls := scrape_calls w;
      cached_props_data := cached_props_data w;
      cache_timestamp := cache_timestamp w |}).

Definition http_fetch (url : string) : M fetch_outcome := fun w =>
  (remote w (length (requests w)) url,
   {| now_readings := now_readings w; clock_reads := clock_reads w;
      remote := remote w; requests := requests w ++ [url];
      scrape_calls := scrape_calls w;
      cached_props_data := cached_props_data w;
      cache_timestamp := cache_timestamp w |}).

Definition enter_scrape : M unit := fun w =>
  (tt,
   {| now_readings := now_readings w; clock_reads := clock_reads w;
      remote := remote w; requests := requests w;
      scrape_calls := S (scrape_calls w);
      cached_props_data := cached_props_data w;
      cache_timestamp := cache_timestamp w |}).

Definition get_cached_props_data : M (list PropRecord) :=
  fun w => (cached_props_data w, w).
Definition get_cache_timestamp : M (option Z) :=
  fun w => (cache_timestamp w, w).

Definition set_cached_props_data (v : list PropRecord) : M unit := fun w =>
  (tt,
   {| now_readings := now_readings w; clock_reads := clock_reads w;
      remote := remote w; requests := requests w;
      scrape_calls := scrape_calls w;
      cached_props_data := v;
      cache_timestamp := cache_timestamp w |}).

Definition set_cache_timestamp (v : option Z) : M unit := fun w =>
  (tt,
   {| now_readings := now_readings w; clock_reads := clock_reads w;
      remote := remote w; requests := requests w;
      scrape_calls := scrape_calls w;
      cached_props_data := cached_props_data w;
      cache_timestamp := v |}).

(** ** The row parser *)

(** The body of the [try]: [None] from the [except] clause stands for any
    exception, and [convert_bet_line] is the call that can raise one. *)
Definition parse_prop_row (row : Row) (sport_name date_range : string)
  : M (option PropRecord) :=
  let cells := row in
  if (length cells <? 5)%nat then ret None
  else
    match cells with
    | c0 :: c1 :: c2 :: c3 :: odds_cell :: _ =>
        let event := strip (c_text c0) in
        let event_date := strip (c_text c1) in
        let market := strip (c_text c2) in
        let betslip_line := strip (c_text c3) in
        match convert_bet_line betslip_line with
        | Raises _ => ret None
        | Returns converted_betslip_line =>
            let '(odds, draftkings_url) :=
              match c_link odds_cell with
              | Some odds_link =>
                  (strip (a_text odds_link), default "" (a_href odds_link))
              | None => (strip (c_text odds_cell), "")
              end in
            do now <- datetime_now;
            ret (Some {| event := event;
                         event_date := event_date;
                         market := market;
                         betslip_line := betslip_line;
                         converted_betslip_line := converted_betslip_line;
                         odds := odds;
                         draftkings_url := draftkings_url;
                         sport := sport_name;
                         scraped_date_range := date_range;
                         scraped_timestamp := now |})
        end
    | _ => ret None
    end.

(** ** The aggregator *)

Record SportConfig : Type := {
  sc_key : string;
  sc_id : Z;
  sc_name : string;
  sc_date_ranges : list string
}.

Definition sport_configs : list SportConfig :=
  [ {| sc_key := "mlb"; sc_id := 84240; sc_name := "MLB";
       sc_date_ranges := ["today"; "tomorrow"] |};
    {| sc_key := "wnba"; sc_id := 94682; sc_name := "WNBA";
       sc_date_ranges := ["today"; "tomorrow"] |};
    {| sc_key := "nba"; sc_id := 42648; sc_name := "NBA";
       sc_date_ranges := ["today"; "tomorrow"] |};
    {| sc_key := "nhl"; sc_id := 42133; sc_name := "NHL";
       sc_date_ranges := ["today"; "tomorrow"] |};
    {| sc_key := "nfl"; sc_id := 88808; sc_name := "NFL";
       sc_date_ranges := ["today"; "tomorrow"] |};
    {| sc_key := "ufc"; sc_id := 9034; sc_name := "UFC";
       sc_date_ranges := ["today"; "tomorrow"] |};
    {| sc_key := "ncaaf"; sc_id := 87637; sc_name := "NCAA Football";
       sc_date_ranges := ["today"; "tomorrow"] |};
    {| sc_key := "ncaa_basketball"; sc_id := 92483; sc_name := "NCAA Basketball";
       sc_date_ranges := ["today"; "tomorrow"] |};
    {| sc_key := "ncaa_womens_basketball"; sc_id := 36647;
       sc_name := "NCAA Womens Basketball";
       sc_date_ranges := ["today"; "tomorrow"] |};
    {| sc_key := "ncaa_baseball"; sc_id := 41151; sc_name := "NCAA Baseball";
       sc_date_ranges := ["today"; "tomorrow"] |};
    {| sc_key := "ncaa_ice_hockey"; sc_id := 84813; sc_name := "NCAA Ice Hockey";
       sc_date_ranges := ["today"; "tomorrow"] |};
    {| sc_key := "mls"; sc_id := 89345; sc_name := "MLS";
       sc_date_ranges := ["today"] |};
    {| sc_key := "premier_league"; sc_id := 40253;
       sc_name := "England Premier League"; sc_date_ranges := ["today"] |};
    {| sc_key := "champions_league"; sc_id := 40685;
       sc_name := "Champions League"; sc_date_ranges := ["today"] |};
    {| sc_key := "europa_league"; sc_id := 41410; sc_name := "Europa League";
       sc_date_ranges := ["today"] |} ].

Definition base_url : string :=
  "https://dknetwork.draftkings.com/draftkings-sportsbook-player-props/".

Definition target_url (sport_id : Z) (date_range : string) : string :=
  base_url +:+ "?tb_eg=" +:+ str_of_int sport_id +:+ "&tb_edate=" +:+ date_range
           +:+ "&tb_view=2".

(** The body of the [any(...)] generator: the five compared fields. *)
Definition same_prop (existing prop_data : PropRecord) : bool :=
  String.eqb (event existing) (event prop_data)
  && String.eqb (event_date existing) (event_date prop_data)
  && String.eqb (market existing) (market prop_data)
  && String.eqb (betslip_line existing) (betslip_line prop_data)
  && String.eqb (scraped_date_range existing) (scraped_date_range prop_data).

Definition is_duplicate (all_props_data : list PropRecord) (prop_data : PropRecord)
  : bool :=
  existsb (fun existing => same_prop existing prop_data) all_props_data.

(** [for row in prop_rows: ...] *)
Fixpoint scrape_rows (sport_display_name date_range : string)
    (prop_rows : list Row) (all_props_data : list PropRecord)
  : M (list PropRecord) :=
  match prop_rows with
  | [] => ret all_props_data
  | row :: rest =>
      do prop_data <- parse_prop_row row sport_display_name date_range;
      match prop_data with
      | Some p =>
          if is_duplicate all_props_data p
          then scrape_rows sport_display_name date_range rest all_props_data
          else scrape_rows sport_display_name date_range rest
                           (all_props_data ++ [p])
      | None => scrape_rows sport_display_name date_range rest all_props_data
      end
  end.

(** One pass of the inner loop: the [try] block for one date range. *)
Definition scrape_target (config : SportConfig) (date_range : string)
    (all_props_data : list PropRecord) : M (list PropRecord) :=
  do outcome <- http_fetch (target_url (sc_id config) date_range);
  match outcome with
  | FetchRaises => ret all_props_data
  | Fetched NoPropsTable => ret all_props_data
  | Fetched NoTbody => ret all_props_data
  | Fetched (PropRows prop_rows) =>
      scrape_rows (sc_name config) date_range prop_rows all_props_data
  end.

Fixpoint scrape_date_ranges (config : SportConfig) (date_ranges : list string)
    (all_props_data : list PropRecord) : M (list PropRecord) :=
  match date_ranges with
  | [] => ret all_props_data
  | date_range :: rest =>
      do all' <- scrape_target config date_range all_props_data;
      scrape_date_ranges config rest all'
  end.

Fixpoint scrape_sports (configs : list SportConfig)
    (all_props_data : list PropRecord) : M (list PropRecord) :=
  match configs with
  | [] => ret all_props_data
  | config :: rest =>
      do all' <- scrape_date_ranges config (sc_date_ranges config) all_props_data;
      scrape_sports rest all'
  end.

Definition scrape_player_props : M (list PropRecord) :=
  run enter_scrape;
  scrape_sports sport_configs [].

(** ** The cache *)

Definition CACHE_DURATION_MINUTES : Z := 30.

(** [timedelta(minutes=m)] in microseconds. *)
Definition timedelta_minutes (m : Z) : Z := m * 60 * 1000000.

Definition is_cache_expired : M bool :=
  do ts <- get_cache_timestamp;
  match ts with
  | None => ret true
  | Some cache_timestamp =>
      do now <- datetime_now;
      let cache_age := now - cache_timestamp in
      ret (timedelta_minutes CACHE_DURATION_MINUTES <? cache_age)
  end.

(** The [else] branch of [get_cached_or_fresh_data]. *)
Definition scrape_and_store : M (list PropRecord) :=
  do fresh_data <- scrape_player_props;
  run set_cached_props_data fresh_data;
  do now <- datetime_now;
  run set_cache_timestamp (Some now);
  ret fresh_data.

(** [cached_props_data and not is_cache_expired()]: an empty list is false
    and [and] then skips its right operand.  The message printed in the first
    branch reads the clock once more. *)
Definition get_cached_or_fresh_data : M (list PropRecord) :=
  do cached <- get_cached_props_data;
  match cached with
  | [] => scrape_and_store
  | _ :: _ =>
      do expired <- is_cache_expired;
      if negb expired then
        run datetime_now;
        get_cached_props_data
      else scrape_and_store
  end.

Record RefreshResponse : Type := {
  rr_message : string;
  rr_total_props : nat;
  rr_cache_timestamp : option Z
}.

Definition refresh_props_cache : M RefreshResponse :=
  run set_cached_props_data [];
  run set_cache_timestamp None;
  do props <- get_cached_or_fresh_data;
  do ts <- get_cache_timestamp;
  ret {| rr_message := "Props cache refreshed successfully";
         rr_total_props := length props;
         rr_cache_timestamp := ts |}.

(** ** Queries *)

(** [l[:limit]] *)
Definition slice_to {A : Type} (limit : Z) (l : list A) : list A :=
  if limit <? 0 then take (length l - Z.to_nat (- limit)) l
  else take (Z.to_nat limit) l.

(** One pass of the first loop of [get_top_props_by_sport]. *)
Definition group_prop (sports_props : gmap string (list PropRecord))
    (prop : PropRecord) : gmap string (list PropRecord) :=
  let sport := sport prop in
  let sports_props' :=
    match sports_props !! sport with
    | None => <[sport := []]> sports_props
    | Some _ => sports_props
    end in
  alter (fun l => l ++ [prop]) sport sports_props'.

Definition get_top_props_by_sport (props : list PropRecord) (limit : Z)
  : gmap string (list PropRecord) :=
  let sports_props := foldl group_prop ∅ props in
  slice_to limit <$> sports_props.

Record ConvertedResponse : Type := {
  cr_converted_props : list PropRecord;
  cr_count : nat;
  cr_total_props : nat;
  cr_conversion_rate : string;
  cr_cached : bool
}.

Definition was_converted (prop : PropRecord) : bool :=
  negb (String.eqb (betslip_line prop) (converted_betslip_line prop)).

(** [f"{len(converted_props)/len(all_props)*100:.1f}%" if all_props else "0%"] *)
Definition conversion_rate (converted_props all_props : list PropRecord)
  : result string :=
  match all_props with
  | [] => Returns "0%"
  | _ :: _ =>
      rbind (int_truediv (Z.of_nat (length converted_props))
                         (Z.of_nat (length all_props))) (fun q =>
      rbind (float_of_int 100) (fun hundred =>
      Returns (float_format_1f (float_mul q hundred) +:+ "%")))
  end.

Definition get_converted_lines : M (result ConvertedResponse) :=
  do all_props <- get_cached_or_fresh_data;
  let converted_props := filter (fun prop => was_converted prop = true) all_props in
  do cached <- get_cached_props_data;
  ret (rbind (conversion_rate converted_props all_props) (fun rate =>
       Returns {| cr_converted_props := converted_props;
                  cr_count := length converted_props;
                  cr_total_props := length all_props;
                  cr_conversion_rate := rate;
                  cr_cached := match cached with [] => false | _ => true end |})).

(** ** Concurrent callers of [get_cached_or_fresh_data]

    The module takes no lock.  Under the threaded server started by
    [app.run] each request runs [get_cached_or_fresh_data] on a thread of
    its own, all threads sharing the two globals.  A thread is at one of the
    following points of the function; a line is taken in one step (a finer
    interleaving only adds behaviours). *)

Inductive pc : Type :=
| AtCondition                               (* line 38, not yet evaluated *)
| AtReturnCached                            (* line 40 *)
| InScrape                                  (* line 43, scrape_player_props running *)
| AtStoreData (fresh_data : list PropRecord)   (* line 44 *)
| AtStoreTime (fresh_data : list PropRecord)   (* line 45 *)
| Finished (returned : list PropRecord).

Record Shared : Type := {
  sh_cached_props_data : list PropRecord;
  sh_cache_timestamp : option Z;
  (** how often [scrape_player_props] was entered *)
  sh_scrape_calls : nat
}.

(** The condition of line 38 as a thread evaluating it at instant [now]
    finds it. *)
Definition serves_cache (sh : Shared) (now : Z) : bool :=
  match sh_cached_props_data sh, sh_cache_timestamp sh with
  | _ :: _, Some ts => negb (timedelta_minutes CACHE_DURATION_MINUTES <? now - ts)
  | _, _ => false
  end.

(** One step of one thread.  [now] and the result of the scrape come from
    outside. *)
Inductive thread_step : Shared -> pc -> Shared -> pc -> Prop :=
| step_serve sh now :
    serves_cache sh now = true ->
    thread_step sh AtCondition sh AtReturnCached
| step_return_cached sh :
    thread_step sh AtReturnCached sh (Finished (sh_cached_props_data sh))
| step_enter sh now :
    serves_cache sh now = false ->
    thread_step sh AtCondition
      {| sh_cached_props_data := sh_cached_props_data sh;
         sh_cache_timestamp := sh_cache_timestamp sh;
         sh_scrape_calls := S (sh_scrape_calls sh) |} InScrape
| step_scraped sh fresh_data :
    thread_step sh InScrape sh (AtStoreData fresh_data)
| step_store_data sh fresh_data :
    thread_step sh (AtStoreData fresh_data)
      {| sh_cached_props_data := fresh_data;
         sh_cache_timestamp := sh_cache_timestamp sh;
         sh_scrape_calls := sh_scrape_calls sh |} (AtStoreTime fresh_data)
| step_store_time sh fresh_data now :
    thread_step sh (AtStoreTime fresh_data)
      {| sh_cached_props_data := sh_cached_props_data sh;
         sh_cache_timestamp := Some now;
         sh_scrape_calls := sh_scrape_calls sh |} (Finished fresh_data).

(** Interleaving: any one thread takes a step. *)
Inductive step : Shared * list pc -> Shared * list pc -> Prop :=
| step_thread sh sh' before p p' after :
    thread_step sh p sh' p' ->
    step (sh, before ++ p :: after) (sh', before ++ p' :: after).

Inductive steps : Shared * list pc -> Shared * list pc -> Prop :=
| steps_refl c : steps c c
| steps_more c1 c2 c3 : steps c1 c2 -> step c2 c3 -> steps c1 c3.

Definition is_in_scrape (p : pc) : bool :=
  match p with InScrape => true | _ => false end.
Definition is_at_condition (p : pc) : bool :=
  match p with AtCondition => true | _ => false end.

(** Aggregator runs in flight. *)
Definition in_flight (threads : list pc) : nat :=
  length (List.filter is_in_scrape threads).

(** ** Specification-side definitions *)

(** The five fields compared by the duplicate check. *)
Definition dedup_key (p : PropRecord) : string * string * string * string * string :=
  (event p, event_date p, market p, betslip_line p, scraped_date_range p).

(** All records the run parses, duplicates included: the loops of
    [scrape_player_props] without the duplicate check. *)
Fixpoint extract_rows (sport_display_name date_range : string)
    (prop_rows : list Row) : M (list PropRecord) :=
  match prop_rows with
  | [] => ret []
  | row :: rest =>
      do prop_data <- parse_prop_row row sport_display_name date_range;
      do more <- extract_rows sport_display_name date_range rest;
      ret (match prop_data with Some p => p :: more | None => more end)
  end.

Definition extract_target (config : SportConfig) (date_range : string)
  : M (list PropRecord) :=
  do outcome <- http_fetch (target_url (sc_id config) date_range);
  match outcome with
  | Fetched (PropRows prop_rows) =>
      extract_rows (sc_name config) date_range prop_rows
  | _ => ret []
  end.

Fixpoint extract_date_ranges (config : SportConfig) (date_ranges : list string)
  : M (list PropRecord) :=
  match date_ranges with
  | [] => ret []
  | date_range :: rest =>
      do here <- extract_target config date_range;
      do more <- extract_date_ranges config rest;
      ret (here ++ more)
  end.

Fixpoint extract_sports (configs : list SportConfig) : M (list PropRecord) :=
  match configs with
  | [] => ret []
  | config :: rest =>
      do here <- extract_date_ranges config (sc_date_ranges config);
      do more <- extract_sports rest;
      ret (here ++ more)
  end.

Definition extracted_rows : M (list PropRecord) :=
  run enter_scrape;
  extract_sports sport_configs.

(** Keep a record unless an earlier kept one has its key. *)
Definition keep_first (kept : list PropRecord) (p : PropRecord) : list PropRecord :=
  if is_duplicate kept p then kept else kept ++ [p].

(** The spec's pattern [^\d+\+$] on a trimmed line: one or more digits, then
    a plus sign, nothing else. *)
Definition is_number_plus (t ds : string) : Prop :=
  t = ds +:+ "+" /\ ds <> "" /\ all_digits ds = true.

(** [n - 0.5] written with one decimal place. *)
Definition minus_half_one_decimal (n : Z) : string :=
  if n =? 0 then "-0.5" else dec (n - 1) +:+ ".5".

(** What a row with five cells or more becomes once its bet line has been
    normalised to [converted] and the clock has shown [now]. *)
Definition record_of_cells (c0 c1 c2 c3 odds_cell : Cell)
    (converted sport_name date_range : string) (now : Z) : PropRecord :=
  {| event := strip (c_text c0);
     event_date := strip (c_text c1);
     market := strip (c_text c2);
     betslip_line := strip (c_text c3);
     converted_betslip_line := converted;
     odds := match c_link odds_cell with
             | Some odds_link => strip (a_text odds_link)
             | None => strip (c_text odds_cell)
             end;
     draftkings_url := match c_link odds_cell with
                       | Some odds_link => default "" (a_href odds_link)
                       | None => ""
                       end;
     sport := sport_name;
     scraped_date_range := date_range;
     scraped_timestamp := now |}.

(** ** Sample inputs *)

(** A world whose clock stands at [t] and whose every request raises. *)
Definition unreachable_site (t : Z) (cached : list PropRecord)
    (ts : option Z) : World :=
  {| now_readings := fun _ => t;
     clock_reads := 0;
     remote := fun _ _ => FetchRaises;
     requests := [];
     scrape_calls := 0;
     cached_props_data := cached;
     cache_timestamp := ts |}.

Definition text_cell (s : string) : Cell := {| c_text := s; c_link := None |}.
Definition link_cell (s href : string) : Cell :=
  {| c_text := s; c_link := Some {| a_text := s; a_href := Some href |} |}.

Definition sample_row (line : string) : Row :=
  [ text_cell "NYY @ BOS"; text_cell "Jul 4"; text_cell " Aaron Judge Hits ";
    text_cell line; link_cell "+120" "https://dk.example/bet/1" ].

Definition sample_prop (sport_name line : string) : PropRecord :=
  {| event := "NYY @ BOS"; event_date := "Jul 4"; market := "Aaron Judge Hits";
     betslip_line := line; converted_betslip_line := line; odds := "+120";
     draftkings_url := ""; sport := sport_name; scraped_date_range := "today";
     scraped_timestamp := 0 |}.

(** The parts of the world that parsing and fetching leave alone. *)
Definition untouched (w w' : World) : Prop :=
  now_readings w' = now_readings w
  /\ remote w' = remote w
  /\ scrape_calls w' = scrape_calls w
  /\ cached_props_data w' = cached_props_data w
  /\ cache_timestamp w' = cache_timestamp w.

(** The world once [refresh_props_cache] has reset the two globals. *)
Definition discarded (w : World) : World :=
  snd (set_cache_timestamp None (snd (set_cached_props_data [] w))).

(** A site that serves one MLB row for today and no table elsewhere; the
    clock stands at [t]. *)
Definition one_row_site (t : Z) : World :=
  {| now_readings := fun _ => t;
     clock_reads := 0;
     remote := fun _ url =>
       if String.eqb url (target_url 84240 "today")
       then Fetched (PropRows [sample_row "2+"])
       else Fetched NoPropsTable;
     requests := [];
     scrape_calls := 0;
     cached_props_data := [];
     cache_timestamp := None |}.

(** A site that serves the same row for MLB and for WNBA, today. *)
Definition two_sport_site (t : Z) : World :=
  {| now_readings := fun _ => t;
     clock_reads := 0;
     remote := fun _ url =>
       if String.eqb url (target_url 84240 "today")
          || String.eqb url (target_url 94682 "today")
       then Fetched (PropRows [sample_row "2+"])
       else Fetched NoTbody;
     requests := [];
     scrape_calls := 0;
     cached_props_data := [];
     cache_timestamp := None |}.

(** The globals of a world, as the threads share them. *)
Definition shared_of (w : World) : Shared :=
  {| sh_cached_props_data := cached_props_data w;
     sh_cache_timestamp := cache_timestamp w;
     sh_scrape_calls := scrape_calls w |}.

(** Threads still before the condition of line 38. *)
Definition at_condition (threads : list pc) : nat :=
  length (List.filter is_at_condition threads).

(** The process right after start: nothing cached, no timestamp. *)
Definition initial_shared : Shared :=
  {| sh_cached_props_data := []; sh_cache_timestamp := None; sh_scrape_calls := 0 |}.

(** ** The remaining queries and endpoints *)

(** [c.lower()] on code points below 256: the letters A-Z and the accented
    capitals 0xc0-0xde, the multiplication sign 0xd7 apart, move up by 32. *)
Definition lower_char (c : ascii) : ascii :=
  let n := Z.of_nat (nat_of_ascii c) in
  if ((65 <=? n) && (n <=? 90))
     || ((192 <=? n) && (n <=? 222) && negb (n =? 215))
  then ascii_of_nat (nat_of_ascii c + 32)
  else c.

(** [s.lower()] *)
Fixpoint lower (s : string) : string :=
  match s with
  | EmptyString => EmptyString
  | String c s' => String (lower_char c) (lower s')
  end.

Definition filter_by_sport (props : list PropRecord) (sport_name : string)
  : list PropRecord :=
  filter (fun prop => lower (sport prop) = lower sport_name) props.

(** The value of ['cache_age_minutes']: the [int] 0 of the [else] branch or
    a [float]. *)
Inductive age_value : Type :=
| AgeZero
| AgeMinutes (minutes : float).

(** [timedelta(microseconds=us).total_seconds()]: the [int] quotient
    [us / 10**6], correctly rounded, the sign apart. *)
Definition total_seconds (us : Z) : result float :=
  rbind (int_truediv (Z.abs us) 1000000) (fun q =>
  Returns (Float (Z.sgn us * fm q) (fe q))).

(** [x / d] for a float [x] and a positive [int] [d] that a float holds
    exactly: the quotient of the significand, correctly rounded, keeps the
    exponent of [x]. *)
Definition float_div_int (x : float) (d : Z) : result float :=
  rbind (int_truediv (Z.abs (fm x)) d) (fun q =>
  Returns (Float (Z.sgn (fm x) * fm q) (fe q + fe x))).

(** [(datetime.now() - cache_timestamp).total_seconds() / 60
     if cache_timestamp else 0] *)
Definition cache_age_minutes : M (result age_value) :=
  do ts <- get_cache_timestamp;
  match ts with
  | Some cache_timestamp =>
      do now <- datetime_now;
      ret (rbind (total_seconds (now - cache_timestamp)) (fun seconds =>
           rbind (float_div_int seconds 60) (fun minutes =>
           Returns (AgeMinutes minutes))))
  | None => ret (Returns AgeZero)
  end.

(** [bool(cached_props_data)] *)
Definition cached_flag : M bool :=
  do cached <- get_cached_props_data;
  ret (match cached with [] => false | _ :: _ => true end).

Record AllPropsResponse : Type := {
  ap_props : list PropRecord;
  ap_count : nat;
  ap_cached : bool;
  ap_cache_age_minutes : age_value
}.

Definition get_all_props : M (result AllPropsResponse) :=
  do props <- get_cached_or_fresh_data;
  do cached <- cached_flag;
  do age <- cache_age_minutes;
  ret (rbind age (fun age =>
       Returns {| ap_props := props;
                  ap_count := length props;
                  ap_cached := cached;
                  ap_cache_age_minutes := age |})).

Record SportPropsResponse : Type := {
  sp_props : list PropRecord;
  sp_count : nat;
  sp_sport : string;
  sp_cached : bool;
  sp_cache_age_minutes : age_value
}.

(** The common body of the six per-sport routes, which differ in the name
    only. *)
Definition get_sport_props (name : string) : M (result SportPropsResponse) :=
  do all_props <- get_cached_or_fresh_data;
  let sport_props := filter_by_sport all_props name in
  do cached <- cached_flag;
  do age <- cache_age_minutes;
  ret (rbind age (fun age =>
       Returns {| sp_props := sport_props;
                  sp_count := length sport_props;
                  sp_sport := name;
                  sp_cached := cached;
                  sp_cache_age_minutes := age |})).

Definition get_mlb_props : M (result SportPropsResponse) := get_sport_props "MLB".
Definition get_wnba_props : M (result SportPropsResponse) := get_sport_props "WNBA".
Definition get_nba_props : M (result SportPropsResponse) := get_sport_props "NBA".
Definition get_nfl_props : M (result SportPropsResponse) := get_sport_props "NFL".
Definition get_nhl_props : M (result SportPropsResponse) := get_sport_props "NHL".
Definition get_ufc_props : M (result SportPropsResponse) := get_sport_props "UFC".

Record TopPropsResponse : Type := {
  tp_props_by_sport : gmap string (list PropRecord);
  tp_total_props : nat;
  tp_sports_count : nat;
  tp_cached : bool;
  tp_cache_age_minutes : age_value
}.

Definition get_top_props_by_sport_endpoint : M (result TopPropsResponse) :=
  do all_props <- get_cached_or_fresh_data;
  let top_props := get_top_props_by_sport all_props 10 in
  do cached <- cached_flag;
  do age <- cache_age_minutes;
  ret (rbind age (fun age =>
       Returns {| tp_props_by_sport := top_props;
                  tp_total_props := length all_props;
                  tp_sports_count := size top_props;
                  tp_cached := cached;
                  tp_cache_age_minutes := age |})).

Record TestPropsResponse : Type := {
  te_first_5_props : list PropRecord;
  te_total_props : nat;
  te_cached : bool;
  te_cache_age_minutes : age_value
}.

Definition test_props : M (result TestPropsResponse) :=
  do props <- get_cached_or_fresh_data;
  do cached <- cached_flag;
  do age <- cache_age_minutes;
  ret (rbind age (fun age =>
       Returns {| te_first_5_props := slice_to 5 props;
                  te_total_props := length props;
                  te_cached := cached;
                  te_cache_age_minutes := age |})).

(** ** Further specification-side definitions *)

(** The requests of one run: every sport in the order of the table, each
    with its date ranges in their order. *)
Definition all_target_urls : list string :=
  flat_map (fun config =>
              map (target_url (sc_id config)) (sc_date_ranges config))
           sport_configs.

(** A display name and a date range that go together in the table. *)
Definition configured (sport_name date_range : string) : Prop :=
  exists config,
    config ∈ sport_configs
    /\ sc_name config = sport_name
    /\ date_range ∈ sc_date_ranges config.

(** What every record built by [parse_prop_row] for a configured target
    satisfies. *)
Definition well_formed (r : PropRecord) : Prop :=
  configured (sport r) (scraped_date_range r)
  /\ convert_bet_line (betslip_line r) = Returns (converted_betslip_line r)
  /\ strip (event r) = event r
  /\ strip (event_date r) = event_date r
  /\ strip (market r) = market r
  /\ strip (betslip_line r) = betslip_line r
  /\ strip (odds r) = odds r.

(** The least [int] that [float] refuses: [2^1024 - 2^970]. *)
Definition float_overflow_threshold : Z := 2 ^ 1024 - 2 ^ 970.

(** ** The summary route *)

(** One value of [sports_summary] while the first loop of
    [get_props_summary] runs: a counter and two sets. *)
Record SportSummary : Type := {
  ss_count : nat;
  ss_sample_markets : gset string;
  ss_date_ranges : gset string
}.

(** One pass of the first loop. *)
Definition summarize_prop (sports_summary : gmap string SportSummary)
    (prop : PropRecord) : gmap string SportSummary :=
  let sport := sport prop in
  let sports_summary' :=
    match sports_summary !! sport with
    | None => <[sport := {| ss_count := 0; ss_sample_markets := ∅;
                            ss_date_ranges := ∅ |}]> sports_summary
    | Some _ => sports_summary
    end in
  alter (fun entry =>
           {| ss_count := S (ss_count entry);
              ss_sample_markets := {[market prop]} ∪ ss_sample_markets entry;
              ss_date_ranges := {[scraped_date_range prop]} ∪ ss_date_ranges entry |})
        sport sports_summary'.

Definition sports_summary (all_props : list PropRecord) : gmap string SportSummary :=
  foldl summarize_prop ∅ all_props.

(** [list(a_set)]: the members, each once, in an order the language leaves
    open. *)
Definition listing (members : gset string) (l : list string) : Prop :=
  l ≡ₚ elements members.

(** One value of ['sports_breakdown'] after the second loop. *)
Record SportBreakdown : Type := {
  sb_count : nat;
  sb_sample_markets : list string;
  sb_date_ranges : list string
}.

(** The second loop on one entry: [list(...)[:10]] and [list(...)]. *)
Definition breakdown_of (entry : SportSummary) (b : SportBreakdown) : Prop :=
  sb_count b = ss_count entry
  /\ (exists l, listing (ss_sample_markets entry) l
                /\ sb_sample_markets b = take 10 l)
  /\ listing (ss_date_ranges entry) (sb_date_ranges b).

Record SummaryResponse : Type := {
  su_total_props : nat;
  su_sports_count : nat;
  su_sports_breakdown : gmap string SportBreakdown;
  su_cached : bool
}.

(** [get_props_summary], as a relation because of the open order of the
    lists: from world [w] it can answer [resp] and leave world [w']. *)
Definition get_props_summary (w : World) (resp : SummaryResponse) (w' : World)
  : Prop :=
  let all_props := fst (get_cached_or_fresh_data w) in
  let w1 := snd (get_cached_or_fresh_data w) in
  w' = w1
  /\ su_total_props resp = length all_props
  /\ su_sports_count resp = size (sports_summary all_props)
  /\ (forall s,
        match sports_summary all_props !! s, su_sports_breakdown resp !! s with
        | Some entry, Some b => breakdown_of entry b
        | None, None => True
        | _, _ => False
        end)
  /\ su_cached resp = fst (cached_flag w1).

(** The answer that lists every set in the order of [elements]. *)
Definition props_summary_in_some_order (w : World) : SummaryResponse :=
  let all_props := fst (get_cached_or_fresh_data w) in
  let w1 := snd (get_cached_or_fresh_data w) in
  {| su_total_props := length all_props;
     su_sports_count := size (sports_summary all_props);
     su_sports_breakdown :=
       (fun entry =>
          {| sb_count := ss_count entry;
             sb_sample_markets := take 10 (elements (ss_sample_markets entry));
             sb_date_ranges := elements (ss_date_ranges entry) |})
       <$> sports_summary all_props;
     su_cached := fst (cached_flag w1) |}.

(** The sum of the counters of a summary. *)
Definition total_count (m : gmap string SportSummary) : nat :=
  map_fold (fun _ entry acc => (ss_count entry + acc)%nat) 0%nat m.

(** ** Further notions for the properties *)

(** [n] calls of [get_cached_or_fresh_data] in a row. *)
Fixpoint get_repeatedly (n : nat) : M unit :=
  match n with
  | O => ret tt
  | S n' => run get_cached_or_fresh_data; get_repeatedly n'
  end.

(** An answer of the site from which no row can come: an exception, no
    table, no [tbody], or a [tbody] without rows. *)
Definition without_rows (outcome : fetch_outcome) : Prop :=
  match outcome with
  | Fetched (PropRows (_ :: _)) => False
  | _ => True
  end.

(** Two records that agree in every field but [scraped_timestamp]. *)
Definition same_but_time (p q : PropRecord) : Prop :=
  event p = event q
  /\ event_date p = event_date q
  /\ market p = market q
  /\ betslip_line p = betslip_line q
  /\ converted_betslip_line p = converted_betslip_line q
  /\ odds p = odds q
  /\ draftkings_url p = draftkings_url q
  /\ sport p = sport q
  /\ scraped_date_range p = scraped_date_range q.

(** A site whose answer to a URL does not depend on when it is asked, with
    its clock running: one MLB row today, the same row twice for NBA. *)
Definition steady_site : World :=
  {| now_readings := fun i => Z.of_nat i;
     clock_reads := 0;
     remote := fun _ url =>
       if String.eqb url (target_url 84240 "today")
       then Fetched (PropRows [sample_row "2+"])
       else if String.eqb url (target_url 42648 "today")
       then Fetched (PropRows [sample_row "3+"; sample_row " 3+"])
       else FetchRaises;
     requests := [];
     scrape_calls := 0;
     cached_props_data := [];
     cache_timestamp := None |}.

(** * Properties *)

#[local] Arguments String.append !s1 s2 : simpl nomatch.

(** ** The line normaliser never converts its own output *)

Lemma strip_keeps_letter_head c rest :
  is_space c = false ->
  exists rest', strip (String c rest) = String c rest'.
Proof.
  intros Hc. unfold strip. simpl. rewrite Hc. simpl.
  destruct (rstrip rest); [rewrite Hc|]; eauto.
Qed.

Lemma convert_bet_line_over x :
  convert_bet_line ("Over " +:+ x) = Returns ("Over " +:+ x).
Proof.
  unfold convert_bet_line.
  destruct (strip_keeps_letter_head "O"%char ("ver " +:+ x) eq_refl) as [r Hr].
  change ("Over " +:+ x) with (String "O"%char ("ver " +:+ x)).
  rewrite Hr. reflexivity.
Qed.

(** C9: normalising twice is normalising once.  Written with the bind of
    the exception monad, so that a raising first call leaves both sides
    raising. *)
Theorem convert_bet_line_idempotent (s : string) :
  rbind (convert_bet_line s) convert_bet_line = convert_bet_line s.
Proof.
  destruct (convert_bet_line s) as [r|e] eqn:Hs; simpl; [|reflexivity].
  unfold convert_bet_line in Hs.
  destruct (String.eqb s "") eqn:Hempty.
  - inversion Hs; subst r. unfold convert_bet_line. now rewrite Hempty.
  - destruct (re_match_number_plus (strip s)) as [g|] eqn:Hm.
    + destruct (py_int g) as [n|]; simpl in Hs; [|discriminate].
      destruct (float_of_int n) as [x|]; simpl in Hs; [|discriminate].
      inversion Hs; subst r. apply convert_bet_line_over.
    + inversion Hs; subst r. unfold convert_bet_line.
      now rewrite Hempty, Hm.
Qed.

(** ** The row parser *)

Lemma parse_prop_row_short row sport_name date_range w :
  (length row < 5)%nat ->
  parse_prop_row row sport_name date_range w = (None, w).
Proof.
  intros H. unfold parse_prop_row.
  destruct (Nat.ltb_spec (length row) 5); [reflexivity | lia].
Qed.

Lemma parse_prop_row_cells c0 c1 c2 c3 c4 rest sport_name date_range w :
  parse_prop_row (c0 :: c1 :: c2 :: c3 :: c4 :: rest) sport_name date_range w =
  match convert_bet_line (strip (c_text c3)) with
  | Raises _ => (None, w)
  | Returns converted =>
      (Some (record_of_cells c0 c1 c2 c3 c4 converted sport_name date_range
               (now_readings w (clock_reads w))),
       snd (datetime_now w))
  end.
Proof.
  unfold parse_prop_row.
  destruct (Nat.ltb_spec (length (c0 :: c1 :: c2 :: c3 :: c4 :: rest)) 5)
    as [H|_]; [simpl in H; lia|].
  destruct (convert_bet_line (strip (c_text c3))); [|reflexivity].
  unfold record_of_cells. destruct (c_link c4); reflexivity.
Qed.

Lemma scrape_rows_skips_failed_row row rest sport_name date_range acc w :
  fst (parse_prop_row row sport_name date_range w) = None ->
  snd (parse_prop_row row sport_name date_range w) = w ->
  scrape_rows sport_name date_range (row :: rest) acc w =
  scrape_rows sport_name date_range rest acc w.
Proof.
  intros H1 H2. simpl. unfold bind.
  destruct (parse_prop_row row sport_name date_range w) as [o w'].
  simpl in *. now subst.
Qed.

(** C7: a row with fewer than five cells, or one whose parsing raises, gives
    [None] and leaves the world as it was, and the loop over the rows then
    goes on with the rows after it; a row with five cells or more whose
    parsing does not raise gives the record made of the stripped texts of
    cells 0 to 3 and, from cell 4, the link's text and [href] (empty when the
    link has none) or else the cell's text and an empty target. *)
Theorem parse_prop_row_spec (row : Row) (sport_name date_range : string) (w : World) :
  ((length row < 5)%nat ->
     parse_prop_row row sport_name date_range w = (None, w))
  /\ (forall c0 c1 c2 c3 c4 rest,
        row = c0 :: c1 :: c2 :: c3 :: c4 :: rest ->
        (forall e, convert_bet_line (strip (c_text c3)) = Raises e ->
           parse_prop_row row sport_name date_range w = (None, w))
        /\ (forall converted,
              convert_bet_line (strip (c_text c3)) = Returns converted ->
              parse_prop_row row sport_name date_range w =
              (Some (record_of_cells c0 c1 c2 c3 c4 converted sport_name
                       date_range (now_readings w (clock_reads w))),
               snd (datetime_now w))))
  /\ (fst (parse_prop_row row sport_name date_range w) = None ->
      forall rest acc,
        scrape_rows sport_name date_range (row :: rest) acc w =
        scrape_rows sport_name date_range rest acc w).
Proof.
  split; [apply parse_prop_row_short|]. split.
  - intros c0 c1 c2 c3 c4 rest ->. rewrite parse_prop_row_cells.
    split; [intros e -> | intros converted ->]; reflexivity.
  - intros Hnone rest acc. apply scrape_rows_skips_failed_row; [exact Hnone|].
    destruct (Nat.lt_ge_cases (length row) 5) as [Hlt|Hge].
    + now rewrite parse_prop_row_short.
    + destruct row as [|c0 [|c1 [|c2 [|c3 [|c4 rest']]]]]; simpl in Hge; try lia.
      rewrite parse_prop_row_cells in *.
      destruct (convert_bet_line (strip (c_text c3))); [discriminate|reflexivity].
Qed.

Lemma parse_prop_row_spec_witness :
  parse_prop_row [text_cell "a"; text_cell "b"] "MLB" "today"
    (unreachable_site 0 [] None) = (None, unreachable_site 0 [] None)
  /\ parse_prop_row (sample_row ("1" +:+ zeros 309 +:+ "+")) "MLB" "today"
       (unreachable_site 0 [] None) = (None, unreachable_site 0 [] None)
  /\ parse_prop_row (sample_row " 2+ ") "MLB" "today" (unreachable_site 7 [] None)
     = (Some (record_of_cells (text_cell "NYY @ BOS") (text_cell "Jul 4")
                (text_cell " Aaron Judge Hits ") (text_cell " 2+ ")
                (link_cell "+120" "https://dk.example/bet/1")
                "Over 1.5" "MLB" "today" 7),
        snd (datetime_now (unreachable_site 7 [] None))).
Proof.
  split; [|split].
  - apply (proj1 (parse_prop_row_spec [text_cell "a"; text_cell "b"] "MLB" "today"
                    (unreachable_site 0 [] None))).
    simpl. lia.
  - apply (proj1 (proj1 (proj2 (parse_prop_row_spec
                    (sample_row ("1" +:+ zeros 309 +:+ "+")) "MLB" "today"
                    (unreachable_site 0 [] None)))
                  _ _ _ _ _ _ eq_refl) OverflowError).
    vm_compute. reflexivity.
  - apply (proj2 (proj1 (proj2 (parse_prop_row_spec
                    (sample_row " 2+ ") "MLB" "today"
                    (unreachable_site 7 [] None)))
                  _ _ _ _ _ _ eq_refl) "Over 1.5").
    vm_compute. reflexivity.
Defined.

Example parse_prop_row_sample :
  fst (parse_prop_row (sample_row " 2+ ") "MLB" "today" (unreachable_site 7 [] None))
  = Some {| event := "NYY @ BOS"; event_date := "Jul 4";
            market := "Aaron Judge Hits"; betslip_line := "2+";
            converted_betslip_line := "Over 1.5"; odds := "+120";
            draftkings_url := "https://dk.example/bet/1"; sport := "MLB";
            scraped_date_range := "today"; scraped_timestamp := 7 |}.
Proof. vm_compute. reflexivity. Qed.

(** ** Grouping by sport *)

Lemma group_prop_lookup (m : gmap string (list PropRecord)) p s :
  group_prop m p !! s =
  if decide (sport p = s)
  then Some (default [] (m !! s) ++ [p])
  else m !! s.
Proof.
  unfold group_prop. case_decide as Hs.
  - subst s. destruct (m !! sport p) as [l|] eqn:Hl.
    + rewrite lookup_alter_eq, Hl. reflexivity.
    + rewrite lookup_alter_eq, lookup_insert_eq. reflexivity.
  - rewrite lookup_alter_ne by done.
    destruct (m !! sport p); [reflexivity|].
    now rewrite lookup_insert_ne.
Qed.

Lemma foldl_group_prop_lookup props (m : gmap string (list PropRecord)) s :
  foldl group_prop m props !! s =
  match m !! s, filter (fun p => sport p = s) props with
  | None, [] => None
  | o, l => Some (default [] o ++ l)
  end.
Proof.
  revert m. induction props as [|p props IH]; intros m; simpl.
  - destruct (m !! s); simpl; [now rewrite app_nil_r | reflexivity].
  - rewrite IH, group_prop_lookup. rewrite filter_cons.
    case_decide as Hs; simpl.
    + destruct (m !! s); simpl; [now rewrite <- app_assoc | reflexivity].
    + reflexivity.
Qed.

Lemma get_top_props_by_sport_lookup props limit s :
  get_top_props_by_sport props limit !! s =
  match filter (fun p => sport p = s) props with
  | [] => None
  | l => Some (slice_to limit l)
  end.
Proof.
  unfold get_top_props_by_sport.
  rewrite lookup_fmap, foldl_group_prop_lookup, lookup_empty.
  destruct (filter _ props); reflexivity.
Qed.

(** C5: for a non-negative limit every group of [get_top_props_by_sport] is
    the first [limit] records, in their order, among those of the collection
    that carry the group's sport, and so has at most [limit] records; a sport
    has a group exactly when a record carries it. *)
Theorem get_top_props_by_sport_prefix (props : list PropRecord) (limit : Z)
    (s : string) (group : list PropRecord) :
  0 <= limit ->
  get_top_props_by_sport props limit !! s = Some group ->
  group = take (Z.to_nat limit) (filter (fun p => sport p = s) props)
  /\ (Z.of_nat (length group) <= limit)
  /\ filter (fun p => sport p = s) props <> [].
Proof.
  intros Hlimit Hgroup. rewrite get_top_props_by_sport_lookup in Hgroup.
  destruct (filter (fun p => sport p = s) props) as [|p l] eqn:Hf; [discriminate|].
  inversion Hgroup as [Hg]. unfold slice_to.
  destruct (Z.ltb_spec limit 0); [lia|].
  split; [reflexivity|]. split; [|discriminate].
  rewrite length_take. lia.
Qed.

Lemma get_top_props_by_sport_prefix_witness :
  [sample_prop "MLB" "1+"] =
  take (Z.to_nat 1)
    (filter (fun p => sport p = "MLB")
       [sample_prop "MLB" "1+"; sample_prop "NBA" "2+"; sample_prop "MLB" "3+"])
  /\ (Z.of_nat (length [sample_prop "MLB" "1+"]) <= 1)
  /\ filter (fun p => sport p = "MLB")
       [sample_prop "MLB" "1+"; sample_prop "NBA" "2+"; sample_prop "MLB" "3+"] <> [].
Proof.
  apply (get_top_props_by_sport_prefix
           [sample_prop "MLB" "1+"; sample_prop "NBA" "2+"; sample_prop "MLB" "3+"]
           1 "MLB" [sample_prop "MLB" "1+"]).
  - lia.
  - vm_compute. reflexivity.
Defined.

(** ** Frame properties of the aggregator *)

Lemma untouched_refl w : untouched w w.
Proof. repeat split. Qed.

Lemma untouched_trans w1 w2 w3 :
  untouched w1 w2 -> untouched w2 w3 -> untouched w1 w3.
Proof. unfold untouched. intuition congruence. Qed.

Lemma datetime_now_untouched w : untouched w (snd (datetime_now w)).
Proof. repeat split. Qed.

Lemma http_fetch_untouched url w : untouched w (snd (http_fetch url w)).
Proof. repeat split. Qed.

Lemma parse_prop_row_untouched row sport_name date_range w :
  untouched w (snd (parse_prop_row row sport_name date_range w)).
Proof.
  destruct (Nat.lt_ge_cases (length row) 5) as [Hlt|Hge].
  - rewrite parse_prop_row_short by exact Hlt. apply untouched_refl.
  - destruct row as [|c0 [|c1 [|c2 [|c3 [|c4 rest']]]]]; simpl in Hge; try lia.
    rewrite parse_prop_row_cells.
    destruct (convert_bet_line (strip (c_text c3))); simpl;
      [apply datetime_now_untouched | apply untouched_refl].
Qed.

Lemma scrape_rows_untouched sport_name date_range rows acc w :
  untouched w (snd (scrape_rows sport_name date_range rows acc w)).
Proof.
  revert acc w. induction rows as [|row rows IH]; intros acc w; simpl.
  - apply untouched_refl.
  - unfold bind.
    pose proof (parse_prop_row_untouched row sport_name date_range w) as Hp.
    destruct (parse_prop_row row sport_name date_range w) as [[p|] w1]; simpl in Hp.
    + destruct (is_duplicate acc p); eapply untouched_trans; eauto.
    + eapply untouched_trans; eauto.
Qed.

Lemma scrape_target_untouched config date_range acc w :
  untouched w (snd (scrape_target config date_range acc w)).
Proof.
  unfold scrape_target, bind.
  pose proof (http_fetch_untouched (target_url (sc_id config) date_range) w) as Hf.
  destruct (http_fetch (target_url (sc_id config) date_range) w) as [[|[| |rows]] w1];
    simpl in *; try exact Hf.
  eapply untouched_trans; [exact Hf | apply scrape_rows_untouched].
Qed.

Lemma scrape_date_ranges_untouched config date_ranges acc w :
  untouched w (snd (scrape_date_ranges config date_ranges acc w)).
Proof.
  revert acc w. induction date_ranges as [|d ds IH]; intros acc w; simpl.
  - apply untouched_refl.
  - unfold bind.
    pose proof (scrape_target_untouched config d acc w) as Ht.
    destruct (scrape_target config d acc w) as [acc' w1]; simpl in Ht.
    eapply untouched_trans; eauto.
Qed.

Lemma scrape_sports_untouched configs acc w :
  untouched w (snd (scrape_sports configs acc w)).
Proof.
  revert acc w. induction configs as [|c cs IH]; intros acc w; simpl.
  - apply untouched_refl.
  - unfold bind.
    pose proof (scrape_date_ranges_untouched c (sc_date_ranges c) acc w) as Ht.
    destruct (scrape_date_ranges c (sc_date_ranges c) acc w) as [acc' w1];
      simpl in Ht.
    eapply untouched_trans; eauto.
Qed.

(** One call of the aggregator is one more run; the clock's readings, the
    site and the two globals are as before. *)
Lemma scrape_player_props_frame w :
  scrape_calls (snd (scrape_player_props w)) = S (scrape_calls w)
  /\ now_readings (snd (scrape_player_props w)) = now_readings w
  /\ cached_props_data (snd (scrape_player_props w)) = cached_props_data w
  /\ cache_timestamp (snd (scrape_player_props w)) = cache_timestamp w.
Proof.
  unfold scrape_player_props, bind. simpl.
  destruct (scrape_sports_untouched sport_configs [] (snd (enter_scrape w)))
    as (H1 & H2 & H3 & H4 & H5).
  simpl in *. auto.
Qed.

(** ** The cache *)

Lemma scrape_and_store_spec w :
  let fresh := fst (scrape_player_props w) in
  let w1 := snd (scrape_player_props w) in
  fst (scrape_and_store w) = fresh
  /\ cached_props_data (snd (scrape_and_store w)) = fresh
  /\ cache_timestamp (snd (scrape_and_store w))
     = Some (now_readings w (clock_reads w1))
  /\ scrape_calls (snd (scrape_and_store w)) = S (scrape_calls w)
  /\ now_readings (snd (scrape_and_store w)) = now_readings w.
Proof.
  intros fresh w1. subst fresh w1.
  destruct (scrape_player_props_frame w) as (Hc & Hn & _ & _).
  unfold scrape_and_store, bind.
  destruct (scrape_player_props w) as [fresh w1]. simpl in *.
  rewrite Hn. auto.
Qed.

(** The two ways through [get_cached_or_fresh_data]. *)
Lemma get_cached_or_fresh_data_cases w :
  match cached_props_data w, cache_timestamp w with
  | _ :: _, Some ts =>
      if timedelta_minutes CACHE_DURATION_MINUTES
         <? now_readings w (clock_reads w) - ts
      then get_cached_or_fresh_data w = scrape_and_store (snd (datetime_now w))
      else get_cached_or_fresh_data w
           = (cached_props_data w, snd (datetime_now (snd (datetime_now w))))
  | _, _ => get_cached_or_fresh_data w = scrape_and_store w
  end.
Proof.
  unfold get_cached_or_fresh_data, is_cache_expired, bind,
    get_cached_props_data, get_cache_timestamp, ret.
  destruct (cached_props_data w) as [|p l] eqn:Hc; [reflexivity|].
  destruct (cache_timestamp w) as [ts|] eqn:Ht; simpl; [|reflexivity].
  destruct (_ <? _); simpl; [reflexivity|]. now rewrite Hc.
Qed.

Lemma get_cached_or_fresh_data_held (w : World) :
  cache_timestamp (snd (get_cached_or_fresh_data w)) <> None
  /\ fst (get_cached_or_fresh_data w)
     = cached_props_data (snd (get_cached_or_fresh_data w)).
Proof.
  pose proof (get_cached_or_fresh_data_cases w) as Hcases.
  assert (Hstore : forall w0, get_cached_or_fresh_data w = scrape_and_store w0 ->
            cache_timestamp (snd (get_cached_or_fresh_data w)) <> None
            /\ fst (get_cached_or_fresh_data w)
               = cached_props_data (snd (get_cached_or_fresh_data w))).
  { intros w0 ->. destruct (scrape_and_store_spec w0) as (H1 & H2 & H3 & _).
    rewrite H1, H2, H3. split; [discriminate | reflexivity]. }
  destruct (cached_props_data w) as [|p l] eqn:Hc; [exact (Hstore _ Hcases)|].
  destruct (cache_timestamp w) as [ts|] eqn:Ht; [|exact (Hstore _ Hcases)].
  destruct (_ <? _); [exact (Hstore _ Hcases)|].
  rewrite Hcases. simpl. rewrite Ht, Hc. split; [discriminate | reflexivity].
Qed.

(** C10: when [get_cached_or_fresh_data] has returned, the timestamp is set
    and the returned collection is the one the cache holds; from the initial
    state (nothing held, no timestamp) the call installs the aggregator's
    result and the instant read after it. *)
Theorem get_cached_or_fresh_data_holds_result (w : World) :
  cache_timestamp (snd (get_cached_or_fresh_data w)) <> None
  /\ fst (get_cached_or_fresh_data w)
     = cached_props_data (snd (get_cached_or_fresh_data w))
  /\ (cached_props_data w = [] -> cache_timestamp w = None ->
      cached_props_data (snd (get_cached_or_fresh_data w))
      = fst (scrape_player_props w)
      /\ cache_timestamp (snd (get_cached_or_fresh_data w))
         = Some (now_readings w (clock_reads (snd (scrape_player_props w))))).
Proof.
  destruct (get_cached_or_fresh_data_held w) as [Hset Hheld].
  split; [exact Hset|]. split; [exact Hheld|].
  intros Hc Ht.
  pose proof (get_cached_or_fresh_data_cases w) as Hcases.
  rewrite Hc in Hcases. rewrite Hcases.
  destruct (scrape_and_store_spec w) as (H1 & H2 & H3 & _). auto.
Qed.

Lemma get_cached_or_fresh_data_holds_result_witness :
  cached_props_data (snd (get_cached_or_fresh_data (one_row_site 5)))
  = fst (scrape_player_props (one_row_site 5))
  /\ cache_timestamp (snd (get_cached_or_fresh_data (one_row_site 5)))
     = Some (now_readings (one_row_site 5)
               (clock_reads (snd (scrape_player_props (one_row_site 5))))).
Proof.
  apply (proj2 (proj2 (get_cached_or_fresh_data_holds_result (one_row_site 5))));
    reflexivity.
Defined.

(** C4: [refresh_props_cache] empties the collection and clears the
    timestamp, then runs the aggregator exactly once, in that emptied state,
    and installs its result together with the instant read after it; this
    holds from every state. *)
Theorem refresh_props_cache_runs_once (w : World) :
  cached_props_data (discarded w) = []
  /\ cache_timestamp (discarded w) = None
  /\ scrape_calls (snd (refresh_props_cache w)) = S (scrape_calls w)
  /\ cached_props_data (snd (refresh_props_cache w))
     = fst (scrape_player_props (discarded w))
  /\ cache_timestamp (snd (refresh_props_cache w))
     = Some (now_readings w
               (clock_reads (snd (scrape_player_props (discarded w)))))
  /\ rr_total_props (fst (refresh_props_cache w))
     = length (fst (scrape_player_props (discarded w)))
  /\ rr_cache_timestamp (fst (refresh_props_cache w))
     = cache_timestamp (snd (refresh_props_cache w)).
Proof.
  split; [reflexivity|]. split; [reflexivity|].
  pose proof (get_cached_or_fresh_data_cases (discarded w)) as Hcases.
  change (cached_props_data (discarded w)) with (@nil PropRecord) in Hcases.
  destruct (scrape_and_store_spec (discarded w)) as (H1 & H2 & H3 & H4 & _).
  assert (Hunfold : refresh_props_cache w =
            ({| rr_message := "Props cache refreshed successfully";
                rr_total_props := length (fst (get_cached_or_fresh_data (discarded w)));
                rr_cache_timestamp :=
                  cache_timestamp (snd (get_cached_or_fresh_data (discarded w))) |},
             snd (get_cached_or_fresh_data (discarded w)))).
  { unfold refresh_props_cache, bind, get_cache_timestamp, ret, discarded. simpl.
    destruct (get_cached_or_fresh_data _). reflexivity. }
  rewrite Hunfold, Hcases.
  destruct (scrape_and_store (discarded w)) as [props w'] eqn:Hs.
  simpl in *. subst props. rewrite H2, H3, H4. auto.
Qed.

Lemma get_cached_or_fresh_data_serves w ts :
  cached_props_data w <> [] ->
  cache_timestamp w = Some ts ->
  now_readings w (clock_reads w) - ts <= timedelta_minutes CACHE_DURATION_MINUTES ->
  get_cached_or_fresh_data w
  = (cached_props_data w, snd (datetime_now (snd (datetime_now w)))).
Proof.
  intros Hne Hts Hage.
  pose proof (get_cached_or_fresh_data_cases w) as Hcases.
  rewrite Hts in Hcases.
  destruct (cached_props_data w) as [|p l]; [congruence|].
  destruct (Z.ltb_spec (timedelta_minutes CACHE_DURATION_MINUTES)
              (now_readings w (clock_reads w) - ts)); [lia | exact Hcases].
Qed.

(** C1, as the code has it: a snapshot that is fresh (timestamp set, age at
    most the thirty minutes) and not empty is returned as it is, with no
    aggregator run, no request and no change to the two globals; hence of
    two calls in a row, the second one falling within the thirty minutes of
    the first one's timestamp, the second returns the first one's result
    without a run as soon as that result is not empty, and the two calls
    together run the aggregator at most once. *)
Theorem get_cached_or_fresh_data_fresh_nonempty (w : World) :
  (forall ts,
     cached_props_data w <> [] ->
     cache_timestamp w = Some ts ->
     now_readings w (clock_reads w) - ts <= timedelta_minutes CACHE_DURATION_MINUTES ->
     fst (get_cached_or_fresh_data w) = cached_props_data w
     /\ scrape_calls (snd (get_cached_or_fresh_data w)) = scrape_calls w
     /\ requests (snd (get_cached_or_fresh_data w)) = requests w
     /\ cached_props_data (snd (get_cached_or_fresh_data w)) = cached_props_data w
     /\ cache_timestamp (snd (get_cached_or_fresh_data w)) = Some ts)
  /\ (let w1 := snd (get_cached_or_fresh_data w) in
      fst (get_cached_or_fresh_data w) <> [] ->
      (forall ts1, cache_timestamp w1 = Some ts1 ->
         now_readings w1 (clock_reads w1) - ts1
         <= timedelta_minutes CACHE_DURATION_MINUTES) ->
      fst (get_cached_or_fresh_data w1) = fst (get_cached_or_fresh_data w)
      /\ scrape_calls (snd (get_cached_or_fresh_data w1)) = scrape_calls w1
      /\ (scrape_calls (snd (get_cached_or_fresh_data w1)) <= S (scrape_calls w))%nat).
Proof.
  split.
  - intros ts Hne Hts Hage.
    rewrite (get_cached_or_fresh_data_serves w ts Hne Hts Hage). simpl. auto.
  - intros w1 Hne Hage. subst w1.
    destruct (get_cached_or_fresh_data_held w) as (Hset & Hheld).
    set (w1 := snd (get_cached_or_fresh_data w)) in *.
    destruct (cache_timestamp w1) as [ts1|] eqn:Hts1; [|congruence].
    rewrite Hheld in Hne.
    rewrite (get_cached_or_fresh_data_serves w1 ts1 Hne Hts1 (Hage ts1 eq_refl)).
    simpl. split; [now rewrite Hheld|]. split; [reflexivity|].
    subst w1. clear Hne Hage Hts1 Hset Hheld.
    pose proof (get_cached_or_fresh_data_cases w) as Hcases.
    assert (Hstore : forall w0, scrape_calls w0 = scrape_calls w ->
              get_cached_or_fresh_data w = scrape_and_store w0 ->
              (scrape_calls (snd (get_cached_or_fresh_data w)) <= S (scrape_calls w))%nat).
    { intros w0 Hw0 ->. destruct (scrape_and_store_spec w0) as (_ & _ & _ & H4 & _).
      rewrite H4, Hw0. lia. }
    destruct (cached_props_data w) as [|p l]; [now apply (Hstore w)|].
    destruct (cache_timestamp w) as [ts|]; [|now apply (Hstore w)].
    destruct (_ <? _); [now apply (Hstore (snd (datetime_now w)))|].
    rewrite Hcases. simpl. lia.
Qed.

Lemma get_cached_or_fresh_data_fresh_nonempty_witness :
  (fst (get_cached_or_fresh_data
          (unreachable_site 100 [sample_prop "MLB" "1+"] (Some 40)))
   = cached_props_data (unreachable_site 100 [sample_prop "MLB" "1+"] (Some 40))
   /\ scrape_calls (snd (get_cached_or_fresh_data
          (unreachable_site 100 [sample_prop "MLB" "1+"] (Some 40))))
      = scrape_calls (unreachable_site 100 [sample_prop "MLB" "1+"] (Some 40))
   /\ requests (snd (get_cached_or_fresh_data
          (unreachable_site 100 [sample_prop "MLB" "1+"] (Some 40))))
      = requests (unreachable_site 100 [sample_prop "MLB" "1+"] (Some 40))
   /\ cached_props_data (snd (get_cached_or_fresh_data
          (unreachable_site 100 [sample_prop "MLB" "1+"] (Some 40))))
      = cached_props_data (unreachable_site 100 [sample_prop "MLB" "1+"] (Some 40))
   /\ cache_timestamp (snd (get_cached_or_fresh_data
          (unreachable_site 100 [sample_prop "MLB" "1+"] (Some 40))))
      = Some 40)
  /\ (fst (get_cached_or_fresh_data (snd (get_cached_or_fresh_data (one_row_site 5))))
      = fst (get_cached_or_fresh_data (one_row_site 5))
      /\ scrape_calls
           (snd (get_cached_or_fresh_data (snd (get_cached_or_fresh_data (one_row_site 5)))))
         = scrape_calls (snd (get_cached_or_fresh_data (one_row_site 5)))
      /\ (scrape_calls
            (snd (get_cached_or_fresh_data (snd (get_cached_or_fresh_data (one_row_site 5)))))
          <= S (scrape_calls (one_row_site 5)))%nat).
Proof.
  split.
  - apply (proj1 (get_cached_or_fresh_data_fresh_nonempty
                    (unreachable_site 100 [sample_prop "MLB" "1+"] (Some 40))) 40).
    + discriminate.
    + reflexivity.
    + vm_compute. discriminate.
  - apply (proj2 (get_cached_or_fresh_data_fresh_nonempty (one_row_site 5))).
    + vm_compute. discriminate.
    + intros ts1 Hts1. vm_compute in Hts1. inversion Hts1; subst ts1.
      vm_compute. discriminate.
Defined.

(** C1 as stated fails on an empty snapshot: with a site that cannot be
    reached the first call records the empty result at instant 0, the
    snapshot is fresh at the second call (age 0), and the second call runs
    the aggregator again, issuing its 26 requests a second time. *)
Lemma get_cached_or_fresh_data_empty_refetches :
  cached_props_data (snd (get_cached_or_fresh_data (unreachable_site 0 [] None))) = []
  /\ cache_timestamp (snd (get_cached_or_fresh_data (unreachable_site 0 [] None)))
     = Some 0
  /\ now_readings (snd (get_cached_or_fresh_data (unreachable_site 0 [] None)))
       (clock_reads (snd (get_cached_or_fresh_data (unreachable_site 0 [] None)))) - 0
     <= timedelta_minutes CACHE_DURATION_MINUTES
  /\ scrape_calls (snd (get_cached_or_fresh_data (unreachable_site 0 [] None))) = 1%nat
  /\ scrape_calls
       (snd (get_cached_or_fresh_data
               (snd (get_cached_or_fresh_data (unreachable_site 0 [] None))))) = 2%nat
  /\ length (requests
       (snd (get_cached_or_fresh_data
               (snd (get_cached_or_fresh_data (unreachable_site 0 [] None)))))) = 52%nat.
Proof.
  vm_compute. repeat split; discriminate.
Qed.

(** ** Converted lines *)

Lemma int_truediv_returns a b :
  b <> 0 -> exists q, int_truediv a b = Returns q.
Proof.
  intros Hb. unfold int_truediv.
  destruct (Z.eqb_spec b 0); [contradiction|]. eauto.
Qed.

Lemma float_of_int_hundred : float_of_int 100 = Returns (Float 100 0).
Proof. vm_compute. reflexivity. Qed.

Lemma conversion_rate_cons converted_props p l :
  conversion_rate converted_props (p :: l)
  = rbind (int_truediv (Z.of_nat (length converted_props))
                       (Z.of_nat (length (p :: l)))) (fun q =>
    Returns (float_format_1f (float_mul q (Float 100 0)) +:+ "%")).
Proof.
  unfold conversion_rate. destruct (int_truediv _ _); [|reflexivity].
  unfold rbind at 1. now rewrite float_of_int_hundred.
Qed.

Lemma conversion_rate_returns converted_props all_props :
  exists rate, conversion_rate converted_props all_props = Returns rate.
Proof.
  destruct all_props as [|p l]; [simpl; eauto|].
  rewrite conversion_rate_cons.
  destruct (int_truediv_returns (Z.of_nat (length converted_props))
              (Z.of_nat (length (p :: l)))) as [q Hq]; [simpl; lia|].
  rewrite Hq. simpl. eauto.
Qed.

(** C6: [get_converted_lines] never raises; it selects exactly the records
    whose two lines differ and reports their number and the total; the rate
    is ["0%"] for an empty collection, with no division attempted, and
    otherwise the quotient of the two numbers, times a hundred, with one
    decimal. *)
Theorem get_converted_lines_total (w : World) :
  exists resp,
    fst (get_converted_lines w) = Returns resp
    /\ cr_converted_props resp
       = filter (fun prop => betslip_line prop <> converted_betslip_line prop)
           (fst (get_cached_or_fresh_data w))
    /\ cr_count resp = length (cr_converted_props resp)
    /\ cr_total_props resp = length (fst (get_cached_or_fresh_data w))
    /\ (fst (get_cached_or_fresh_data w) = [] -> cr_conversion_rate resp = "0%")
    /\ (fst (get_cached_or_fresh_data w) <> [] ->
        exists q,
          int_truediv (Z.of_nat (cr_count resp)) (Z.of_nat (cr_total_props resp))
          = Returns q
          /\ cr_conversion_rate resp
             = float_format_1f (float_mul q (Float 100 0)) +:+ "%").
Proof.
  unfold get_converted_lines, bind, get_cached_props_data, ret.
  destruct (get_cached_or_fresh_data w) as [all_props w1]. simpl.
  set (converted := filter (fun prop => was_converted prop = true) all_props).
  assert (Hfilter : converted
            = filter (fun prop => betslip_line prop <> converted_betslip_line prop)
                all_props).
  { subst converted. apply list_filter_iff. intros p. unfold was_converted.
    destruct (String.eqb_spec (betslip_line p) (converted_betslip_line p));
      simpl; split; intros; congruence. }
  destruct (conversion_rate_returns converted all_props) as [rate Hrate].
  rewrite Hrate. simpl. eexists. split; [reflexivity|]. simpl.
  split; [exact Hfilter|]. split; [reflexivity|]. split; [reflexivity|].
  split.
  - intros ->. simpl in Hrate. congruence.
  - intros Hne. destruct all_props as [|p l]; [congruence|].
    rewrite conversion_rate_cons in Hrate.
    destruct (int_truediv_returns (Z.of_nat (length converted))
                (Z.of_nat (length (p :: l)))) as [q Hq]; [simpl; lia|].
    exists q. split; [exact Hq|].
    rewrite Hq in Hrate. simpl in Hrate. congruence.
Qed.

Lemma get_converted_lines_total_witness :
  (exists resp,
     fst (get_converted_lines (unreachable_site 0 [] None)) = Returns resp
     /\ cr_conversion_rate resp = "0%")
  /\ (exists resp,
        fst (get_converted_lines (one_row_site 0)) = Returns resp
        /\ cr_count resp = 1%nat
        /\ cr_conversion_rate resp = "100.0%").
Proof.
  split.
  - destruct (get_converted_lines_total (unreachable_site 0 [] None))
      as (resp & Hr & _ & _ & _ & Hempty & _).
    exists resp. split; [exact Hr|]. apply Hempty. vm_compute. reflexivity.
  - destruct (get_converted_lines_total (one_row_site 0))
      as (resp & Hr & Hsel & Hcount & Htotal & _ & Hrate).
    exists resp. split; [exact Hr|].
    assert (Hc : cr_count resp = 1%nat).
    { rewrite Hcount, Hsel. vm_compute. reflexivity. }
    split; [exact Hc|].
    destruct Hrate as (q & Hq & ->); [vm_compute; discriminate|].
    rewrite Hc, Htotal in Hq.
    assert (Hq' : Returns q = Returns (Float 4503599627370496 (-52)))
      by (rewrite <- Hq; vm_compute; reflexivity).
    inversion Hq'; subst q. vm_compute. reflexivity.
Defined.

Example conversion_rate_one_of_three :
  conversion_rate [sample_prop "MLB" "1+"]
    [sample_prop "MLB" "1+"; sample_prop "NBA" "2+"; sample_prop "MLB" "3+"]
  = Returns "33.3%".
Proof. vm_compute. reflexivity. Qed.

(** ** Duplicate suppression *)

Lemma same_prop_key a b :
  same_prop a b = true <-> dedup_key a = dedup_key b.
Proof.
  unfold same_prop, dedup_key. rewrite !andb_true_iff, !String.eqb_eq.
  split; [intros ((((-> & ->) & ->) & ->) & ->); reflexivity|].
  intros H. inversion H. auto.
Qed.

Lemma is_duplicate_key acc p :
  is_duplicate acc p = true <-> dedup_key p ∈ dedup_key <$> acc.
Proof.
  unfold is_duplicate. rewrite existsb_exists, list_elem_of_fmap.
  split.
  - intros (x & Hin & Hsame). exists x.
    apply same_prop_key in Hsame. split; [congruence|].
    now apply list_elem_of_In.
  - intros (x & Hkey & Hin). exists x. split; [now apply list_elem_of_In|].
    apply same_prop_key. congruence.
Qed.

(** The loops compute the first-occurrence filter of what they parse. *)
Lemma scrape_rows_keeps_first sport_name date_range rows acc w :
  scrape_rows sport_name date_range rows acc w =
  (foldl keep_first acc (fst (extract_rows sport_name date_range rows w)),
   snd (extract_rows sport_name date_range rows w)).
Proof.
  revert acc w. induction rows as [|row rows IH]; intros acc w; simpl.
  - reflexivity.
  - unfold bind.
    destruct (parse_prop_row row sport_name date_range w) as [[p|] w1].
    + assert (Hk : (if is_duplicate acc p
                    then scrape_rows sport_name date_range rows acc
                    else scrape_rows sport_name date_range rows (acc ++ [p])) w1
                   = scrape_rows sport_name date_range rows (keep_first acc p) w1).
      { unfold keep_first. now destruct (is_duplicate acc p). }
      rewrite Hk, IH.
      destruct (extract_rows sport_name date_range rows w1). reflexivity.
    + rewrite IH.
      destruct (extract_rows sport_name date_range rows w1). reflexivity.
Qed.

Lemma scrape_target_keeps_first config date_range acc w :
  scrape_target config date_range acc w =
  (foldl keep_first acc (fst (extract_target config date_range w)),
   snd (extract_target config date_range w)).
Proof.
  unfold scrape_target, extract_target, bind.
  destruct (http_fetch _ w) as [[|[| |rows]] w1]; try reflexivity.
  apply scrape_rows_keeps_first.
Qed.

Lemma scrape_date_ranges_keeps_first config date_ranges acc w :
  scrape_date_ranges config date_ranges acc w =
  (foldl keep_first acc (fst (extract_date_ranges config date_ranges w)),
   snd (extract_date_ranges config date_ranges w)).
Proof.
  revert acc w. induction date_ranges as [|d ds IH]; intros acc w; simpl.
  - reflexivity.
  - unfold bind. rewrite scrape_target_keeps_first.
    destruct (extract_target config d w) as [here w1]. simpl.
    rewrite IH. destruct (extract_date_ranges config ds w1). simpl.
    now rewrite foldl_app.
Qed.

Lemma scrape_sports_keeps_first configs acc w :
  scrape_sports configs acc w =
  (foldl keep_first acc (fst (extract_sports configs w)),
   snd (extract_sports configs w)).
Proof.
  revert acc w. induction configs as [|c cs IH]; intros acc w; simpl.
  - reflexivity.
  - unfold bind. rewrite scrape_date_ranges_keeps_first.
    destruct (extract_date_ranges c (sc_date_ranges c) w) as [here w1]. simpl.
    rewrite IH. destruct (extract_sports cs w1). simpl.
    now rewrite foldl_app.
Qed.

Lemma scrape_player_props_keeps_first w :
  scrape_player_props w =
  (foldl keep_first [] (fst (extracted_rows w)), snd (extracted_rows w)).
Proof.
  unfold scrape_player_props, extracted_rows, bind.
  destruct (enter_scrape w) as [[] w1].
  apply scrape_sports_keeps_first.
Qed.

Lemma keep_first_invariant rows acc :
  NoDup (dedup_key <$> acc) ->
  NoDup (dedup_key <$> foldl keep_first acc rows)
  /\ (forall k, k ∈ dedup_key <$> foldl keep_first acc rows <->
                k ∈ dedup_key <$> acc \/ k ∈ dedup_key <$> rows)
  /\ (forall r, r ∈ foldl keep_first acc rows -> r ∈ acc \/ r ∈ rows).
Proof.
  revert acc. induction rows as [|p rows IH]; intros acc Hnd; simpl.
  - split; [exact Hnd|]. split; [|auto].
    intros k. rewrite elem_of_nil. tauto.
  - assert (Hnd' : NoDup (dedup_key <$> keep_first acc p)).
    { unfold keep_first. destruct (is_duplicate acc p) eqn:Hd; [exact Hnd|].
      rewrite fmap_app. simpl. apply NoDup_app. split; [exact Hnd|].
      split; [|apply NoDup_singleton].
      intros k Hk Hk'. apply list_elem_of_singleton in Hk'. subst k.
      apply is_duplicate_key in Hk. congruence. }
    destruct (IH _ Hnd') as (H1 & H2 & H3).
    split; [exact H1|]. split.
    + intros k. rewrite H2. unfold keep_first. rewrite elem_of_cons.
      destruct (is_duplicate acc p) eqn:Hd.
      * apply is_duplicate_key in Hd. split; [tauto|].
        intros [?|[->|?]]; auto.
      * rewrite fmap_app, elem_of_app. simpl. rewrite list_elem_of_singleton. tauto.
    + intros r Hr. apply H3 in Hr. rewrite elem_of_cons. unfold keep_first in Hr.
      destruct (is_duplicate acc p); [tauto|].
      rewrite elem_of_app, list_elem_of_singleton in Hr. tauto.
Qed.

Lemma one_record_per_key (l : list PropRecord) k :
  NoDup (dedup_key <$> l) ->
  k ∈ dedup_key <$> l ->
  length (filter (fun r => dedup_key r = k) l) = 1%nat.
Proof.
  induction l as [|r l IH]; simpl; intros Hnd Hin.
  - now apply elem_of_nil in Hin.
  - apply NoDup_cons in Hnd as [Hr Hnd]. rewrite filter_cons.
    apply elem_of_cons in Hin. case_decide as Hk.
    + subst k. simpl. f_equal.
      destruct (filter (fun r0 => dedup_key r0 = dedup_key r) l) as [|x xs] eqn:Hf;
        [reflexivity|].
      assert (Hx : x ∈ filter (fun r0 => dedup_key r0 = dedup_key r) l)
        by (rewrite Hf; apply elem_of_cons; now left).
      apply list_elem_of_filter in Hx as [Hkey Hx]. exfalso. apply Hr.
      rewrite <- Hkey. apply list_elem_of_fmap. eauto.
    + destruct Hin as [Heq|Hin]; [congruence|]. now apply IH.
Qed.

(** C3: the collection of one aggregator run holds no two records with the
    same five fields (event, event date, market, bet line, date range); for
    every row the run parses, from whichever sport and date range, it holds
    exactly one record with that row's five fields, whatever the sports of
    the rows that share them; and it holds nothing but parsed rows. *)
Theorem scrape_player_props_dedup (w : World) :
  NoDup (dedup_key <$> fst (scrape_player_props w))
  /\ (forall p, p ∈ fst (extracted_rows w) ->
        length (filter (fun r => dedup_key r = dedup_key p)
                  (fst (scrape_player_props w))) = 1%nat)
  /\ (forall r, r ∈ fst (scrape_player_props w) -> r ∈ fst (extracted_rows w)).
Proof.
  rewrite scrape_player_props_keeps_first. simpl.
  destruct (keep_first_invariant (fst (extracted_rows w)) [] (NoDup_nil_2))
    as (H1 & H2 & H3).
  split; [exact H1|]. split.
  - intros p Hp. apply one_record_per_key; [exact H1|].
    apply H2. right. apply list_elem_of_fmap. eauto.
  - intros r Hr. apply H3 in Hr as [Hr|Hr]; [|exact Hr].
    now apply elem_of_nil in Hr.
Qed.

(** The same row under two sports: the run keeps the first, under MLB. *)
Example scrape_player_props_across_sports :
  sport <$> fst (extracted_rows (two_sport_site 3)) = ["MLB"; "WNBA"]
  /\ sport <$> fst (scrape_player_props (two_sport_site 3)) = ["MLB"].
Proof. vm_compute. split; reflexivity. Qed.

Lemma scrape_player_props_dedup_witness :
  length (filter (fun r => dedup_key r
                           = dedup_key (sample_prop "WNBA" "2+"))
            (fst (scrape_player_props (two_sport_site 0)))) = 1%nat.
Proof.
  apply (proj1 (proj2 (scrape_player_props_dedup (two_sport_site 0)))
           {| event := "NYY @ BOS"; event_date := "Jul 4";
              market := "Aaron Judge Hits"; betslip_line := "2+";
              converted_betslip_line := "Over 1.5"; odds := "+120";
              draftkings_url := "https://dk.example/bet/1"; sport := "WNBA";
              scraped_date_range := "today"; scraped_timestamp := 0 |}).
  vm_compute. right. left.
Defined.

(** ** Concurrent callers *)

Lemma steps_one c1 c2 : step c1 c2 -> steps c1 c2.
Proof. intros H. eapply steps_more; [apply steps_refl | exact H]. Qed.

Lemma step_alone sh p sh' p' :
  thread_step sh p sh' p' -> step (sh, [p]) (sh', [p']).
Proof. intros H. exact (step_thread sh sh' [] p p' [] H). Qed.

(** The sequential function is one run of a single thread. *)
Lemma get_cached_or_fresh_data_is_a_thread_run w :
  steps (shared_of w, [AtCondition])
        (shared_of (snd (get_cached_or_fresh_data w)),
         [Finished (fst (get_cached_or_fresh_data w))]).
Proof.
  assert (Hstore : forall w0 now,
            shared_of w0 = shared_of w ->
            serves_cache (shared_of w) now = false ->
            get_cached_or_fresh_data w = scrape_and_store w0 ->
            steps (shared_of w, [AtCondition])
                  (shared_of (snd (get_cached_or_fresh_data w)),
                   [Finished (fst (get_cached_or_fresh_data w))])).
  { intros w0 now Hw0 Hmiss ->.
    destruct (scrape_and_store_spec w0) as (H1 & H2 & H3 & H4 & _).
    assert (Hc : scrape_calls w0 = scrape_calls w)
      by (change (sh_scrape_calls (shared_of w0) = sh_scrape_calls (shared_of w));
          now rewrite Hw0).
    unfold shared_of at 2. rewrite H1, H2, H3, H4, Hc.
    eapply steps_more; [eapply steps_more; [eapply steps_more;
      [apply steps_one, step_alone, (step_enter _ now Hmiss)|]|]|].
    - apply step_alone, (step_scraped _ (fst (scrape_player_props w0))).
    - apply step_alone, step_store_data.
    - apply step_alone, step_store_time. }
  pose proof (get_cached_or_fresh_data_cases w) as Hcases.
  destruct (cached_props_data w) as [|p l] eqn:Hc.
  { apply (Hstore w 0); [reflexivity| |exact Hcases].
    unfold serves_cache, shared_of. simpl. now rewrite Hc. }
  destruct (cache_timestamp w) as [ts|] eqn:Ht.
  2:{ apply (Hstore w 0); [reflexivity| |exact Hcases].
      unfold serves_cache, shared_of. simpl. now rewrite Hc, Ht. }
  destruct (_ <? _) eqn:Hexp.
  - apply (Hstore (snd (datetime_now w)) (now_readings w (clock_reads w)));
      [reflexivity| |exact Hcases].
    unfold serves_cache, shared_of. simpl. now rewrite Hc, Ht, Hexp.
  - rewrite Hcases. simpl.
    replace (Finished (p :: l))
      with (Finished (sh_cached_props_data (shared_of w)))
      by (unfold shared_of; simpl; now rewrite Hc).
    eapply steps_more; [apply steps_one|].
    + apply step_alone, (step_serve _ (now_readings w (clock_reads w))).
      unfold serves_cache, shared_of. simpl. now rewrite Hc, Ht, Hexp.
    + apply step_alone, step_return_cached.
Qed.

Lemma in_flight_app l1 l2 : in_flight (l1 ++ l2) = (in_flight l1 + in_flight l2)%nat.
Proof. unfold in_flight. now rewrite List.filter_app, length_app. Qed.

Lemma at_condition_app l1 l2 :
  at_condition (l1 ++ l2) = (at_condition l1 + at_condition l2)%nat.
Proof. unfold at_condition. now rewrite List.filter_app, length_app. Qed.

Lemma in_flight_le_length l : (in_flight l <= length l)%nat.
Proof. unfold in_flight. apply List.filter_length_le. Qed.

(** Each step keeps the number of threads, and the two counts: a run is
    entered by a thread leaving the condition, and a thread inside the
    aggregator has entered it. *)
Lemma step_invariant (s0 n : nat) sh threads sh' threads' :
  step (sh, threads) (sh', threads') ->
  length threads = n
  /\ (sh_scrape_calls sh + at_condition threads <= s0 + n)%nat
  /\ (in_flight threads + s0 <= sh_scrape_calls sh)%nat ->
  length threads' = n
  /\ (sh_scrape_calls sh' + at_condition threads' <= s0 + n)%nat
  /\ (in_flight threads' + s0 <= sh_scrape_calls sh')%nat.
Proof.
  intros Hstep. inversion Hstep as [sh1 sh2 before p p' after Ht]; subst.
  rewrite !length_app, !in_flight_app, !at_condition_app.
  change (p :: after) with ([p] ++ after). change (p' :: after) with ([p'] ++ after).
  rewrite !length_app, !in_flight_app, !at_condition_app.
  inversion Ht; subst; simpl; unfold in_flight, at_condition; simpl; lia.
Qed.

Lemma steps_invariant (s0 n : nat) c c' :
  steps c c' ->
  length (snd c) = n
  /\ (sh_scrape_calls (fst c) + at_condition (snd c) <= s0 + n)%nat
  /\ (in_flight (snd c) + s0 <= sh_scrape_calls (fst c))%nat ->
  length (snd c') = n
  /\ (sh_scrape_calls (fst c') + at_condition (snd c') <= s0 + n)%nat
  /\ (in_flight (snd c') + s0 <= sh_scrape_calls (fst c'))%nat.
Proof.
  induction 1 as [c|c1 c2 c3 H12 IH H23]; intros Hinv; [exact Hinv|].
  destruct c2 as [sh2 t2], c3 as [sh3 t3].
  eapply step_invariant; [exact H23 | apply IH, Hinv].
Qed.

Lemma at_condition_repeat n : at_condition (repeat AtCondition n) = n.
Proof.
  unfold at_condition. induction n as [|n IH]; simpl; [reflexivity | now rewrite IH].
Qed.

Lemma in_flight_repeat n : in_flight (repeat AtCondition n) = 0%nat.
Proof.
  unfold in_flight. induction n as [|n IH]; simpl; [reflexivity | exact IH].
Qed.

(** C8, as the code has it: there is no lock, so [n] concurrent callers can
    have up to [n] aggregator runs in flight; what holds is that every run in
    flight was entered by a caller of its own, each caller entering at most
    one, so the runs in flight, and the runs entered since the callers
    arrived, never exceed the number of callers. *)
Theorem concurrent_callers_bound (sh sh' : Shared) (n : nat) (threads' : list pc) :
  steps (sh, repeat AtCondition n) (sh', threads') ->
  length threads' = n
  /\ (in_flight threads' <= n)%nat
  /\ (sh_scrape_calls sh' <= sh_scrape_calls sh + n)%nat
  /\ (in_flight threads' + sh_scrape_calls sh <= sh_scrape_calls sh')%nat.
Proof.
  intros Hsteps.
  destruct (steps_invariant (sh_scrape_calls sh) n _ _ Hsteps) as (H1 & H2 & H3).
  { simpl. rewrite repeat_length, at_condition_repeat, in_flight_repeat. lia. }
  simpl in *. split; [exact H1|]. split; [|split; [lia | exact H3]].
  rewrite <- H1. apply in_flight_le_length.
Qed.

(** C8 as stated fails: two requests arrive while nothing is cached; the
    first finds the cache empty and enters the aggregator, the second finds
    it still empty and enters the aggregator too; two runs are in flight. *)
Lemma two_callers_two_runs_in_flight :
  steps (initial_shared, [AtCondition; AtCondition])
        ({| sh_cached_props_data := []; sh_cache_timestamp := None;
            sh_scrape_calls := 2 |}, [InScrape; InScrape])
  /\ in_flight [InScrape; InScrape] = 2%nat.
Proof.
  split; [|reflexivity].
  eapply steps_more; [apply steps_one|].
  - exact (step_thread _ _ [] AtCondition InScrape [AtCondition]
             (step_enter initial_shared 0 eq_refl)).
  - exact (step_thread _ _ [InScrape] AtCondition InScrape []
             (step_enter {| sh_cached_props_data := []; sh_cache_timestamp := None;
                            sh_scrape_calls := 1 |} 0 eq_refl)).
Qed.

Lemma concurrent_callers_bound_witness :
  length [InScrape; AtCondition] = 2%nat
  /\ (in_flight [InScrape; AtCondition] <= 2)%nat
  /\ (1 <= sh_scrape_calls initial_shared + 2)%nat
  /\ (in_flight [InScrape; AtCondition] + sh_scrape_calls initial_shared <= 1)%nat.
Proof.
  apply (concurrent_callers_bound initial_shared
           {| sh_cached_props_data := []; sh_cache_timestamp := None;
              sh_scrape_calls := 1 |} 2 [InScrape; AtCondition]).
  apply steps_one.
  exact (step_thread _ _ [] AtCondition InScrape [AtCondition]
           (step_enter initial_shared 0 eq_refl)).
Defined.

(** ** The line normaliser: matching *)

Lemma append_nil_r (s : string) : s +:+ "" = s.
Proof. induction s as [|c s IH]; simpl; [reflexivity | now rewrite IH]. Qed.

Lemma append_assoc (a b c : string) : (a +:+ b) +:+ c = a +:+ (b +:+ c).
Proof. induction a as [|x a IH]; simpl; [reflexivity | now rewrite IH]. Qed.

Lemma take_drop_digits s : s = take_digits s +:+ drop_digits s.
Proof.
  induction s as [|c s IH]; simpl; [reflexivity|].
  destruct (is_digit c); simpl; [now rewrite <- IH | reflexivity].
Qed.

Lemma all_digits_take_digits s : all_digits (take_digits s) = true.
Proof.
  induction s as [|c s IH]; simpl; [reflexivity|].
  destruct (is_digit c) eqn:Hc; simpl; [now rewrite Hc | reflexivity].
Qed.

Lemma take_digits_plus ds rest :
  all_digits ds = true -> take_digits (ds +:+ String "+"%char rest) = ds.
Proof.
  induction ds as [|c ds IH]; simpl; [reflexivity|].
  intros [Hc Hds]%andb_true_iff. rewrite Hc. now rewrite IH.
Qed.

Lemma drop_digits_plus ds rest :
  all_digits ds = true ->
  drop_digits (ds +:+ String "+"%char rest) = String "+"%char rest.
Proof.
  induction ds as [|c ds IH]; simpl; [reflexivity|].
  intros [Hc Hds]%andb_true_iff. rewrite Hc. now apply IH.
Qed.

(** What [rstrip] leaves does not end in white space. *)
Lemma rstrip_last s a c :
  rstrip s = a +:+ String c "" -> is_space c = false.
Proof.
  revert a. induction s as [|x s IH]; intros a; simpl.
  - destruct a; discriminate.
  - destruct (rstrip s) as [|y r] eqn:Hr.
    + destruct (is_space x) eqn:Hx.
      * destruct a; discriminate.
      * destruct a as [|x' a]; simpl; [congruence|].
        intros H. inversion H. destruct a; discriminate.
    + destruct a as [|x' a]; simpl; [discriminate|].
      intros H. inversion H. eapply IH. eassumption.
Qed.

(** On a trimmed line the expression matches exactly the lines made of one
    or more digits and a plus sign, and group 1 is the digits. *)
Lemma re_match_number_plus_strip s ds :
  re_match_number_plus (strip s) = Some ds <-> is_number_plus (strip s) ds.
Proof.
  unfold re_match_number_plus, is_number_plus. split.
  - intros H.
    pose proof (take_drop_digits (strip s)) as Hsplit.
    pose proof (all_digits_take_digits (strip s)) as Hall.
    destruct (take_digits (strip s)) as [|c t] eqn:Ht; [discriminate|].
    destruct (String.eqb_spec (drop_digits (strip s)) "+") as [Hd|Hd].
    + inversion H; subst ds. rewrite Hd in Hsplit. easy.
    + destruct (String.eqb_spec (drop_digits (strip s))
                  (String "+"%char (String (ascii_of_nat 10) ""))) as [Hd'|Hd'];
        [|discriminate].
      exfalso. rewrite Hd' in Hsplit.
      change (String "+"%char (String (ascii_of_nat 10) ""))
        with ("+" +:+ String (ascii_of_nat 10) "") in Hsplit.
      rewrite <- append_assoc in Hsplit.
      apply rstrip_last in Hsplit. discriminate.
  - intros (Ht & Hne & Hall). rewrite Ht.
    rewrite take_digits_plus, drop_digits_plus by exact Hall.
    destruct ds; [congruence | reflexivity].
Qed.

Lemma digit_value_range c : is_digit c = true -> 0 <= digit_value c <= 9.
Proof.
  unfold is_digit, digit_value. intros [H1 H2]%andb_true_iff. lia.
Qed.

Lemma int_of_digits_nonneg ds acc :
  all_digits ds = true -> 0 <= acc -> 0 <= int_of_digits acc ds.
Proof.
  revert acc. induction ds as [|c ds IH]; intros acc; simpl; [auto|].
  intros [Hc Hds]%andb_true_iff Hacc. apply IH; [exact Hds|].
  pose proof (digit_value_range c Hc). lia.
Qed.

(** ** The line normaliser: arithmetic *)

Lemma log2_below_53 m : 0 <= m < 2 ^ 53 -> Z.log2 m <= 52.
Proof.
  intros [H0 H1]. destruct (Z.eq_dec m 0) as [->|Hm]; [simpl; lia|].
  assert (Z.log2 m < 53); [|lia]. apply Z.log2_lt_pow2; lia.
Qed.

Lemma round53_exact m e : Z.abs m < 2 ^ 53 -> round53 m e = Float m e.
Proof.
  intros Hm. unfold round53.
  pose proof (log2_below_53 (Z.abs m)).
  destruct (Z.leb_spec (Z.log2 (Z.abs m) + 1 - 53) 0); [reflexivity | lia].
Qed.

Lemma float_of_int_exact n :
  0 <= n <= 2 ^ 52 -> float_of_int n = Returns (Float n 0).
Proof.
  intros Hn. unfold float_of_int. rewrite round53_exact by lia. simpl fm. simpl fe.
  destruct (Z.leb_spec (2 ^ 1024) (Z.abs n * 2 ^ 0)) as [H|H]; [|reflexivity].
  exfalso. assert (2 ^ 52 < 2 ^ 1024) by (apply Z.pow_lt_mono_r; lia). lia.
Qed.

Lemma float_sub_half_exact n :
  0 <= n <= 2 ^ 52 ->
  float_sub (Float n 0) float_half = Float (2 * n - 1) (-1).
Proof.
  intros Hn. unfold float_sub, float_half. simpl fm. simpl fe.
  change (Z.min 0 (-1)) with (-1). change (0 - -1) with 1. change (-1 - -1) with 0.
  replace (n * 2 ^ 1 - 1 * 2 ^ 0) with (2 * n - 1) by lia.
  apply round53_exact. lia.
Qed.

(** ** Decimal notation *)

Lemma str_length_append (a b : string) :
  String.length (a +:+ b) = (String.length a + String.length b)%nat.
Proof. induction a as [|c a IH]; simpl; [reflexivity | now rewrite IH]. Qed.

Lemma pow2_le_pow10 a : 0 <= a -> 2 ^ a <= 10 ^ a.
Proof. intros Ha. apply Z.pow_le_mono_l. lia. Qed.

Lemma below_pow10_log2 n : 0 <= n -> n < 10 ^ (1 + Z.log2 n).
Proof.
  intros Hn. destruct (Z.eq_dec n 0) as [->|Hne]; [reflexivity|].
  pose proof (Z.log2_nonneg n).
  assert (n < 2 ^ Z.succ (Z.log2 n)) by (apply Z.log2_spec; lia).
  pose proof (pow2_le_pow10 (Z.succ (Z.log2 n))).
  replace (1 + Z.log2 n) with (Z.succ (Z.log2 n)) by lia. lia.
Qed.

(** Fuel beyond the number of digits changes nothing. *)
Lemma dec_aux_fuel f1 : forall f2 n,
  0 <= n -> n < 10 ^ (1 + Z.of_nat f1) -> n < 10 ^ (1 + Z.of_nat f2) ->
  dec_aux (S f1) n = dec_aux (S f2) n.
Proof.
  induction f1 as [|f1 IH]; intros f2 n Hn H1 H2.
  - simpl in H1. simpl. destruct (Z.ltb_spec n 10); [|lia].
    destruct (Z.ltb_spec n 10); [reflexivity | lia].
  - cbn [dec_aux]. destruct (Z.ltb_spec n 10) as [Hlt|Hge]; [reflexivity|].
    destruct f2 as [|f2]; [simpl in H2; lia|].
    f_equal. apply IH.
    + apply Z.div_pos; lia.
    + apply Z.div_lt_upper_bound; [lia|].
      replace (1 + Z.of_nat (S f1)) with (Z.succ (1 + Z.of_nat f1)) in H1 by lia.
      rewrite Z.pow_succ_r in H1 by lia. exact H1.
    + apply Z.div_lt_upper_bound; [lia|].
      replace (1 + Z.of_nat (S f2)) with (Z.succ (1 + Z.of_nat f2)) in H2 by lia.
      rewrite Z.pow_succ_r in H2 by lia. exact H2.
Qed.

Lemma dec_small n : 0 <= n < 10 -> dec n = String (digit_char n) "".
Proof.
  intros Hn. unfold dec. cbn [dec_aux].
  destruct (Z.ltb_spec n 10); [reflexivity | lia].
Qed.

Lemma dec_step n :
  10 <= n -> dec n = dec (n / 10) +:+ String (digit_char (n mod 10)) "".
Proof.
  intros Hn. unfold dec. cbn [dec_aux].
  destruct (Z.ltb_spec n 10); [lia|]. f_equal.
  assert (Hq : 1 <= n / 10) by (apply Z.div_le_lower_bound; lia).
  assert (Hl : 3 <= Z.log2 n) by (apply Z.log2_le_pow2; simpl; lia).
  destruct (Z.to_nat (Z.log2 n)) as [|f] eqn:Hf; [lia|].
  apply dec_aux_fuel; [lia| |].
  - assert (Hg : Z.log2 n = Z.of_nat f + 1) by lia.
    assert (Hn2 : n < 2 ^ Z.succ (Z.log2 n)) by (apply Z.log2_spec; lia).
    replace (Z.succ (Z.log2 n)) with (Z.of_nat f + 2) in Hn2 by lia.
    rewrite Z.pow_add_r in Hn2 by lia.
    rewrite Z.pow_add_r by lia.
    pose proof (pow2_le_pow10 (Z.of_nat f) ltac:(lia)).
    assert (n / 10 <= n) by (apply Z.div_le_upper_bound; lia).
    change (2 ^ 2) with 4 in Hn2. change (10 ^ 1) with 10. lia.
  - rewrite Z2Nat.id by apply Z.log2_nonneg. apply below_pow10_log2. lia.
Qed.

(** A number of [L] digits lies in [10^(L-1), 10^L). *)
Lemma dec_length_bounds n :
  1 <= n ->
  10 ^ (Z.of_nat (String.length (dec n)) - 1) <= n
  < 10 ^ Z.of_nat (String.length (dec n)).
Proof.
  induction n as [n IH] using (well_founded_induction (Z.lt_wf 0)). intros Hn.
  destruct (Z_lt_le_dec n 10) as [Hlt|Hge].
  - rewrite dec_small by lia. simpl. lia.
  - rewrite dec_step by exact Hge. rewrite str_length_append. simpl String.length.
    assert (Hq : 1 <= n / 10) by (apply Z.div_le_lower_bound; lia).
    destruct (IH (n / 10)) as [Hlo Hhi]; [split; [lia|]; apply Z.div_lt; lia | exact Hq |].
    set (L := String.length (dec (n / 10))) in *.
    assert (HL : 1 <= Z.of_nat L).
    { destruct L; [simpl in Hhi; lia | lia]. }
    replace (Z.of_nat (L + 1) - 1) with (Z.succ (Z.of_nat L - 1)) by lia.
    replace (Z.of_nat (L + 1)) with (Z.succ (Z.of_nat L)) by lia.
    rewrite !Z.pow_succ_r by lia.
    pose proof (Z.mul_div_le n 10 ltac:(lia)).
    pose proof (Z.mul_succ_div_gt n 10 ltac:(lia)). lia.
Qed.

Lemma dec_append_five k : 1 <= k -> dec (10 * k + 5) = dec k +:+ "5".
Proof.
  intros Hk. rewrite dec_step by lia.
  replace ((10 * k + 5) / 10) with k
    by (apply Z.div_unique with 5; lia).
  replace ((10 * k + 5) mod 10) with 5
    by (apply Z.mod_unique with k; lia).
  reflexivity.
Qed.

Lemma rstrip_zeros_last a c :
  Ascii.eqb c "0"%char = false ->
  rstrip_zeros (a +:+ String c "") = a +:+ String c "".
Proof.
  intros Hc. induction a as [|x a IH]; simpl; [now rewrite Hc|].
  rewrite IH. destruct a; reflexivity.
Qed.

Lemma str_take_append a b : str_take (String.length a) (a +:+ b) = a.
Proof.
  induction a as [|x a IH]; simpl; [destruct b; reflexivity | now rewrite IH].
Qed.

Lemma str_drop_append a b : str_drop (String.length a) (a +:+ b) = b.
Proof. induction a as [|x a IH]; simpl; [reflexivity | exact IH]. Qed.

(** ** [repr] of [k + 0.5] *)

Section HalfInteger.

Variable k : Z.
Hypothesis k_positive : 1 <= k.
Hypothesis k_small : 2 * k + 1 < 2 ^ 53.

Let m := 2 * k + 1.
Let b := Z.log2 m.

Lemma half_log2_range : 1 <= b <= 52.
Proof.
  subst b m. split; [|apply log2_below_53; lia].
  apply Z.log2_le_pow2; [lia|]. change (2 ^ 1) with 2. lia.
Qed.

Lemma half_not_power_of_two : (m =? 2 ^ Z.log2 m) = false.
Proof.
  pose proof half_log2_range as Hb. fold b. apply Z.eqb_neq. intros H.
  replace b with (Z.succ (b - 1)) in H by lia.
  rewrite Z.pow_succ_r in H by lia. subst m. lia.
Qed.

Lemma half_scale_large : 4 <= 2 ^ (54 - b).
Proof.
  pose proof half_log2_range as Hb.
  change 4 with (2 ^ 2). apply Z.pow_le_mono_r; lia.
Qed.

(** The test in units of [2^(E-2) * 10^(-u)]. *)
Lemma half_reads_back c u :
  reads_back m (-1) c u =
  if negb (b =? 52) || Z.even m
  then (m * 2 ^ (54 - b) * pow_neg 10 u - 2 * pow_neg 10 u
          <=? c * pow_pos 10 u * (2 * 2 ^ (54 - b)))
       && (c * pow_pos 10 u * (2 * 2 ^ (54 - b))
             <=? m * 2 ^ (54 - b) * pow_neg 10 u + 2 * pow_neg 10 u)
  else (m * 2 ^ (54 - b) * pow_neg 10 u - 2 * pow_neg 10 u
          <? c * pow_pos 10 u * (2 * 2 ^ (54 - b)))
       && (c * pow_pos 10 u * (2 * 2 ^ (54 - b))
             <? m * 2 ^ (54 - b) * pow_neg 10 u + 2 * pow_neg 10 u).
Proof.
  pose proof half_log2_range as Hb.
  unfold reads_back. rewrite half_not_power_of_two.
  unfold scaled_decimal, scaled_double, scaled_pow2, ulp_exp. fold b.
  assert (H1 : pow_neg 2 (b + -1 - 52 - 2) = 2 * 2 ^ (54 - b)).
  { unfold pow_neg.
    replace (Z.max (- (b + -1 - 52 - 2)) 0) with (Z.succ (54 - b)) by lia.
    apply Z.pow_succ_r. lia. }
  rewrite !H1.
  replace (Z.max (- (b + -1 - 52 - 2)) 0) with (55 - b) by lia.
  replace (-1 + (55 - b)) with (54 - b) by lia.
  replace (b + -1 - 52 - 1 + (55 - b)) with 1 by lia.
  change (2 ^ 1) with 2. reflexivity.
Qed.

(** No integer multiple of a power of ten reads back as [k + 0.5]. *)
Lemma half_rejects_integers c u :
  0 <= u -> reads_back m (-1) c u = false.
Proof.
  intros Hu. rewrite half_reads_back.
  unfold pow_pos, pow_neg. rewrite (Z.max_l u 0), (Z.max_r (- u) 0) by lia.
  change (10 ^ 0) with 1.
  pose proof half_scale_large as HP.
  set (P := 2 ^ (54 - b)) in *. set (c' := c * 10 ^ u).
  assert (Hfar : c' * (2 * P) <= m * P - P \/ m * P + P <= c' * (2 * P)).
  { subst m. destruct (Z_le_gt_dec c' k) as [Hle|Hgt].
    - left. assert (c' * P <= k * P) by (apply Z.mul_le_mono_nonneg_r; lia). lia.
    - right. assert ((k + 1) * P <= c' * P)
        by (apply Z.mul_le_mono_nonneg_r; lia). lia. }
  destruct (negb (b =? 52) || Z.even m); apply andb_false_iff.
  - destruct Hfar; [left | right]; apply Z.leb_gt; lia.
  - destruct Hfar; [left | right]; apply Z.ltb_ge; lia.
Qed.

Lemma half_scaled_decimal_tenths c :
  scaled_decimal m (-1) c (-1) = c * (2 * 2 ^ (54 - b)).
Proof.
  pose proof half_log2_range as Hb.
  unfold scaled_decimal, ulp_exp, pow_neg, pow_pos. fold b.
  change (Z.max (-1) 0) with 0. change (10 ^ 0) with 1.
  replace (Z.max (- (b + -1 - 52 - 2)) 0) with (Z.succ (54 - b)) by lia.
  rewrite Z.pow_succ_r by lia. lia.
Qed.

Lemma half_scaled_double_tenths :
  scaled_double m (-1) (-1) = 5 * m * (2 * 2 ^ (54 - b)).
Proof.
  pose proof half_log2_range as Hb.
  unfold scaled_double, ulp_exp, pow_neg. fold b.
  change (Z.max (- -1) 0) with 1. change (10 ^ 1) with 10.
  replace (-1 + Z.max (- (b + -1 - 52 - 2)) 0) with (54 - b) by lia. lia.
Qed.

Lemma half_floor_tenths : floor_scaled m (-1) (-1) = 5 * m.
Proof.
  unfold floor_scaled, pow_pos, pow_neg.
  change (Z.max (-1) 0) with 0. change (Z.max (- -1) 0) with 1.
  change (2 ^ 0) with 1. change (10 ^ 1) with 10.
  change (2 ^ 1) with 2. change (10 ^ 0) with 1.
  symmetry. apply Z.div_unique_exact; lia.
Qed.

Lemma half_floor_units : floor_scaled m (-1) 0 = k.
Proof.
  unfold floor_scaled, pow_pos, pow_neg.
  change (Z.max (-1) 0) with 0. change (Z.max (- -1) 0) with 1.
  change (Z.max 0 0) with 0. change (Z.max (- 0) 0) with 0.
  change (2 ^ 0) with 1. change (10 ^ 0) with 1. change (2 ^ 1) with 2.
  symmetry. apply Z.div_unique with 1; subst m; lia.
Qed.

(** With one digit after the point the decimal is exact. *)
Lemma half_reads_back_tenths : reads_back m (-1) (5 * m) (-1) = true.
Proof.
  rewrite half_reads_back. unfold pow_pos, pow_neg.
  change (Z.max (-1) 0) with 0. change (Z.max (- -1) 0) with 1.
  change (10 ^ 0) with 1. change (10 ^ 1) with 10.
  pose proof half_scale_large as HP. set (P := 2 ^ (54 - b)) in *.
  destruct (negb (b =? 52) || Z.even m); apply andb_true_iff; split;
    first [apply Z.leb_le | apply Z.ltb_lt]; lia.
Qed.

Lemma half_shortest_at_tenths fuel d :
  shortest_digits (S fuel) m (-1) d (d + 1) = (5 * m, -1).
Proof.
  cbn [shortest_digits]. replace (d - (d + 1)) with (-1) by lia.
  rewrite half_floor_tenths, half_reads_back_tenths.
  rewrite !half_scaled_decimal_tenths, half_scaled_double_tenths.
  pose proof half_scale_large as HP. set (P := 2 ^ (54 - b)) in *.
  destruct (reads_back m (-1) (5 * m + 1) (-1)); [|reflexivity].
  destruct (Z.ltb_spec (5 * m * (2 * P) - 5 * m * (2 * P))
              ((5 * m + 1) * (2 * P) - 5 * m * (2 * P))); [reflexivity | lia].
Qed.

(** The search runs through the precisions that end before the point and
    stops at the first digit after it. *)
Lemma half_shortest (t : nat) : forall fuel p d,
  p + Z.of_nat t = d + 1 -> (t <= fuel)%nat ->
  shortest_digits (S fuel) m (-1) d p = (5 * m, -1).
Proof.
  induction t as [|t IH]; intros fuel p d Hp Hfuel.
  - replace p with (d + 1) by lia. apply half_shortest_at_tenths.
  - destruct fuel as [|fuel]; [lia|].
    cbn [shortest_digits].
    rewrite !half_rejects_integers by lia.
    apply IH; lia.
Qed.

Lemma half_decimal_point :
  decimal_point m (-1) = Z.of_nat (String.length (dec k)).
Proof.
  unfold decimal_point. rewrite half_floor_units.
  unfold pow_pos, pow_neg.
  change (Z.max (-1) 0) with 0. change (Z.max (- -1) 0) with 1.
  change (2 ^ 0) with 1. change (2 ^ 1) with 2.
  destruct (Z.leb_spec 2 (m * 1)); [reflexivity | subst m; lia].
Qed.

Lemma half_digit_count : (String.length (dec k) <= 16)%nat.
Proof.
  destruct (dec_length_bounds k k_positive) as [Hlo _].
  destruct (le_lt_dec (String.length (dec k)) 16) as [H|H]; [exact H|].
  exfalso.
  assert (10 ^ 16 <= 10 ^ (Z.of_nat (String.length (dec k)) - 1))
    by (apply Z.pow_le_mono_r; lia).
  assert (2 ^ 53 < 10 ^ 16) by reflexivity. lia.
Qed.

Lemma repr_positive_half : repr_positive m (-1) = dec k +:+ ".5".
Proof.
  pose proof half_digit_count as HL.
  pose proof (dec_length_bounds k k_positive) as [_ Hhi].
  unfold repr_positive. rewrite half_decimal_point.
  rewrite (half_shortest (String.length (dec k)) 16) by lia.
  replace (5 * m) with (10 * k + 5) by (subst m; lia).
  rewrite dec_append_five by exact k_positive.
  rewrite (rstrip_zeros_last (dec k) "5"%char eq_refl).
  rewrite str_length_append. simpl String.length.
  set (L := String.length (dec k)) in *.
  assert (HL1 : (1 <= L)%nat) by (destruct L; [simpl in Hhi; lia | lia]).
  replace (Z.of_nat (L + 1) + -1) with (Z.of_nat L) by lia.
  unfold repr_layout.
  destruct (Z.leb_spec (Z.of_nat L) (-4)); [lia|].
  destruct (Z.ltb_spec 16 (Z.of_nat L)); [lia|]. simpl orb. cbv iota.
  destruct (Z.leb_spec (Z.of_nat L) 0); [lia|].
  subst L. rewrite str_length_append. simpl String.length.
  destruct (Z.leb_spec (Z.of_nat (String.length (dec k) + 1))
              (Z.of_nat (String.length (dec k)))); [lia|].
  rewrite Nat2Z.id.
  now rewrite str_take_append, str_drop_append.
Qed.

End HalfInteger.

(** ** The line normaliser: result *)

Lemma float_repr_minus_half n :
  0 <= n <= 2 ^ 52 ->
  float_repr (Float (2 * n - 1) (-1)) = minus_half_one_decimal n.
Proof.
  intros Hn.
  destruct (Z.eq_dec n 0) as [->|H0]; [vm_compute; reflexivity|].
  destruct (Z.eq_dec n 1) as [->|H1]; [vm_compute; reflexivity|].
  unfold float_repr, minus_half_one_decimal. simpl fm. simpl fe.
  destruct (Z.eqb_spec (2 * n - 1) 0); [lia|].
  destruct (Z.ltb_spec (2 * n - 1) 0); [lia|].
  destruct (Z.eqb_spec n 0); [lia|].
  replace (2 * n - 1) with (2 * (n - 1) + 1) by lia.
  apply repr_positive_half; lia.
Qed.

Lemma strip_empty : strip "" = "".
Proof. reflexivity. Qed.

(** C2, as the code has it: when the trimmed line is one or more digits and
    a plus sign, the digits being at most 4300 (the limit of [int] on digit
    strings) and their number [n] at most [2^52] (up to where binary64 holds
    [n - 0.5] exactly), the result is ["Over "] and [n - 0.5] with one
    decimal; every line that is not of that form, the empty one included,
    comes back unchanged. *)
Theorem convert_bet_line_number_plus (s : string) :
  (forall ds,
     is_number_plus (strip s) ds ->
     (String.length ds <= int_max_str_digits)%nat ->
     int_of_digits 0 ds <= 2 ^ 52 ->
     convert_bet_line s
     = Returns ("Over " +:+ minus_half_one_decimal (int_of_digits 0 ds)))
  /\ ((forall ds, ~ is_number_plus (strip s) ds) ->
      convert_bet_line s = Returns s).
Proof.
  split.
  - intros ds Hmatch Hlen Hn.
    assert (Hpos : 0 <= int_of_digits 0 ds)
      by (apply int_of_digits_nonneg; [apply Hmatch | lia]).
    unfold convert_bet_line.
    destruct (String.eqb_spec s "") as [->|Hs].
    { destruct Hmatch as (Ht & _). rewrite strip_empty in Ht.
      destruct ds; discriminate. }
    apply re_match_number_plus_strip in Hmatch. rewrite Hmatch.
    unfold py_int.
    destruct (Nat.ltb_spec int_max_str_digits (String.length ds)); [lia|].
    unfold rbind at 1. rewrite float_of_int_exact by lia.
    unfold rbind. rewrite float_sub_half_exact by lia.
    now rewrite float_repr_minus_half by lia.
  - intros Hnone. unfold convert_bet_line.
    destruct (String.eqb s ""); [reflexivity|].
    destruct (re_match_number_plus (strip s)) as [ds|] eqn:Hm; [|reflexivity].
    apply re_match_number_plus_strip in Hm. now apply Hnone in Hm.
Qed.

Lemma convert_bet_line_number_plus_witness :
  convert_bet_line " 12+ "
  = Returns ("Over " +:+ minus_half_one_decimal (int_of_digits 0 "12"))
  /\ convert_bet_line "Over 2.5" = Returns "Over 2.5".
Proof.
  split.
  - apply (proj1 (convert_bet_line_number_plus " 12+ ") "12").
    + vm_compute. repeat split. discriminate.
    + vm_compute. lia.
    + vm_compute. discriminate.
  - apply (proj2 (convert_bet_line_number_plus "Over 2.5")).
    intros ds (Ht & Hne & Hall). vm_compute in Ht.
    destruct ds as [|c ds]; [discriminate|].
    inversion Ht; subst c. discriminate.
Defined.

(** C2 as stated fails from [2^52 + 1] on: the line ["4503599627370497+"]
    matches and its digits are that number, yet the result is not the number
    less a half but the double nearest to it, printed ["4503599627370496.0"]. *)
Lemma convert_bet_line_rounds_above_2_52 :
  is_number_plus (strip "4503599627370497+") "4503599627370497"
  /\ int_of_digits 0 "4503599627370497" = 4503599627370497
  /\ minus_half_one_decimal 4503599627370497 = "4503599627370496.5"
  /\ convert_bet_line "4503599627370497+" = Returns "Over 4503599627370496.0".
Proof.
  split; [|split; [|split]]; try (vm_compute; reflexivity).
  vm_compute. repeat split. discriminate.
Qed.

(** Further out the notation changes, and beyond the range of binary64 or of
    [int]'s digit limit the call raises. *)
Example convert_bet_line_scientific :
  convert_bet_line "10000000000000000+" = Returns "Over 1e+16".
Proof. vm_compute. reflexivity. Qed.

Example convert_bet_line_overflow :
  convert_bet_line ("1" +:+ zeros 309 +:+ "+") = Raises OverflowError.
Proof. vm_compute. reflexivity. Qed.

Example convert_bet_line_too_many_digits :
  convert_bet_line (zeros 4300 +:+ "1+") = Raises ValueError.
Proof. vm_compute. reflexivity. Qed.

Example convert_bet_line_examples :
  convert_bet_line "1+" = Returns "Over 0.5"
  /\ convert_bet_line "12+" = Returns "Over 11.5"
  /\ convert_bet_line "Over 2.5" = Returns "Over 2.5"
  /\ convert_bet_line "" = Returns ""
  /\ convert_bet_line "0+" = Returns "Over -0.5"
  /\ convert_bet_line "1.5+" = Returns "1.5+"
  /\ convert_bet_line " 3+" = Returns "Over 2.5".
Proof. vm_compute. repeat split. Qed.

(** ** The conversion rate at the ends of the scale *)




(** * Further properties *)

(** ** The requests of a run *)

Lemma parse_prop_row_requests row sport_name date_range w :
  requests (snd (parse_prop_row row sport_name date_range w)) = requests w.
Proof.
  destruct (Nat.lt_ge_cases (length row) 5) as [Hlt|Hge].
  - now rewrite parse_prop_row_short.
  - destruct row as [|c0 [|c1 [|c2 [|c3 [|c4 rest']]]]]; simpl in Hge; try lia.
    rewrite parse_prop_row_cells.
    destruct (convert_bet_line (strip (c_text c3))); reflexivity.
Qed.

Lemma scrape_rows_requests sport_name date_range rows acc w :
  requests (snd (scrape_rows sport_name date_range rows acc w)) = requests w.
Proof.
  revert acc w. induction rows as [|row rows IH]; intros acc w; simpl; [reflexivity|].
  unfold bind.
  pose proof (parse_prop_row_requests row sport_name date_range w) as Hp.
  destruct (parse_prop_row row sport_name date_range w) as [[p|] w1]; simpl in Hp.
  - destruct (is_duplicate acc p); now rewrite IH.
  - now rewrite IH.
Qed.

Lemma scrape_target_requests config date_range acc w :
  requests (snd (scrape_target config date_range acc w))
  = requests w ++ [target_url (sc_id config) date_range].
Proof.
  unfold scrape_target, bind, http_fetch.
  destruct (remote w (length (requests w)) (target_url (sc_id config) date_range))
    as [|[| |rows]]; try reflexivity.
  now rewrite scrape_rows_requests.
Qed.

Lemma scrape_date_ranges_requests config date_ranges acc w :
  requests (snd (scrape_date_ranges config date_ranges acc w))
  = requests w ++ map (target_url (sc_id config)) date_ranges.
Proof.
  revert acc w. induction date_ranges as [|d ds IH]; intros acc w; simpl.
  - now rewrite app_nil_r.
  - unfold bind.
    pose proof (scrape_target_requests config d acc w) as Ht.
    destruct (scrape_target config d acc w) as [acc' w1]. simpl in Ht.
    rewrite IH, Ht, <- app_assoc. reflexivity.
Qed.

Lemma scrape_sports_requests configs acc w :
  requests (snd (scrape_sports configs acc w))
  = requests w
    ++ flat_map (fun config =>
                   map (target_url (sc_id config)) (sc_date_ranges config))
         configs.
Proof.
  revert acc w. induction configs as [|c cs IH]; intros acc w; simpl.
  - now rewrite app_nil_r.
  - unfold bind.
    pose proof (scrape_date_ranges_requests c (sc_date_ranges c) acc w) as Ht.
    destruct (scrape_date_ranges c (sc_date_ranges c) acc w) as [acc' w1].
    simpl in Ht. rewrite IH, Ht, <- app_assoc. reflexivity.
Qed.

Lemma scrape_player_props_appends_urls (w : World) :
  requests (snd (scrape_player_props w)) = requests w ++ all_target_urls.
Proof.
  unfold scrape_player_props, bind.
  destruct (enter_scrape w) as [[] w1] eqn:He.
  rewrite scrape_sports_requests. unfold enter_scrape in He.
  inversion He. reflexivity.
Qed.

(** X1: whatever the site answers, one run of the aggregator requests every
    target exactly once, in the order of the table: 26 requests, none
    skipped after a failure and none repeated. *)
Theorem scrape_player_props_requests (w : World) :
  requests (snd (scrape_player_props w)) = requests w ++ all_target_urls
  /\ length all_target_urls = 26%nat
  /\ NoDup all_target_urls.
Proof.
  split; [apply scrape_player_props_appends_urls|]. split.
  - reflexivity.
  - apply (bool_decide_unpack _). vm_compute. reflexivity.
Qed.

(** ** The cache on a miss *)

Lemma scrape_and_store_requests w :
  requests (snd (scrape_and_store w)) = requests w ++ all_target_urls
  /\ clock_reads (snd (scrape_and_store w))
     = S (clock_reads (snd (scrape_player_props w))).
Proof.
  pose proof (scrape_player_props_appends_urls w) as Hr.
  unfold scrape_and_store, bind.
  destruct (scrape_player_props w) as [fresh w1]. simpl in *. auto.
Qed.

Lemma get_cached_or_fresh_data_on_miss (w : World) :
  cached_props_data w = []
  \/ cache_timestamp w = None
  \/ (exists ts, cache_timestamp w = Some ts
                 /\ 1800000000 < now_readings w (clock_reads w) - ts) ->
  scrape_calls (snd (get_cached_or_fresh_data w)) = S (scrape_calls w)
  /\ requests (snd (get_cached_or_fresh_data w)) = requests w ++ all_target_urls
  /\ cached_props_data (snd (get_cached_or_fresh_data w))
     = fst (get_cached_or_fresh_data w)
  /\ cache_timestamp (snd (get_cached_or_fresh_data w)) <> None
  /\ (fst (get_cached_or_fresh_data w) = fst (scrape_player_props w)
      \/ fst (get_cached_or_fresh_data w)
         = fst (scrape_player_props (snd (datetime_now w)))).
Proof.
  intros Hmiss.
  assert (Hstore : exists w0,
            get_cached_or_fresh_data w = scrape_and_store w0
            /\ scrape_calls w0 = scrape_calls w /\ requests w0 = requests w
            /\ (w0 = w \/ w0 = snd (datetime_now w))).
  { pose proof (get_cached_or_fresh_data_cases w) as Hcases.
    destruct (cached_props_data w) as [|p l] eqn:Hc; [exists w; auto|].
    destruct (cache_timestamp w) as [ts|] eqn:Ht; [|exists w; auto].
    destruct Hmiss as [H|[H|(ts' & Hts' & Hage)]]; try discriminate.
    inversion Hts'; subst ts'.
    change (timedelta_minutes CACHE_DURATION_MINUTES) with 1800000000 in Hcases.
    destruct (Z.ltb_spec 1800000000 (now_readings w (clock_reads w) - ts)); [|lia].
    exists (snd (datetime_now w)). auto. }
  destruct Hstore as (w0 & -> & Hc0 & Hr0 & Hw0).
  destruct (scrape_and_store_spec w0) as (H1 & H2 & H3 & H4 & _).
  destruct (scrape_and_store_requests w0) as [H5 _].
  rewrite H1, H2, H3, H4, H5, Hc0, Hr0.
  repeat split; try discriminate.
  destruct Hw0 as [->| ->]; auto.
Qed.

(** X2: with nothing held, or no timestamp, or an age of more than thirty
    minutes (1 800 000 000 microseconds, the bound itself still counting as
    fresh), [get_cached_or_fresh_data] runs the aggregator exactly once,
    issues its 26 requests, returns what the run returned and holds it
    afterwards under a timestamp. *)
Theorem get_cached_or_fresh_data_miss (w : World) :
  cached_props_data w = []
  \/ cache_timestamp w = None
  \/ (exists ts, cache_timestamp w = Some ts
                 /\ 1800000000 < now_readings w (clock_reads w) - ts) ->
  scrape_calls (snd (get_cached_or_fresh_data w)) = S (scrape_calls w)
  /\ requests (snd (get_cached_or_fresh_data w)) = requests w ++ all_target_urls
  /\ cached_props_data (snd (get_cached_or_fresh_data w))
     = fst (get_cached_or_fresh_data w)
  /\ cache_timestamp (snd (get_cached_or_fresh_data w)) <> None
  /\ (fst (get_cached_or_fresh_data w) = fst (scrape_player_props w)
      \/ fst (get_cached_or_fresh_data w)
         = fst (scrape_player_props (snd (datetime_now w)))).
Proof. exact (get_cached_or_fresh_data_on_miss w). Qed.

Lemma get_cached_or_fresh_data_miss_witness :
  scrape_calls (snd (get_cached_or_fresh_data
     (unreachable_site 1800000041 [sample_prop "MLB" "1+"] (Some 40))))
  = S (scrape_calls (unreachable_site 1800000041 [sample_prop "MLB" "1+"] (Some 40)))
  /\ requests (snd (get_cached_or_fresh_data
       (unreachable_site 1800000041 [sample_prop "MLB" "1+"] (Some 40))))
     = requests (unreachable_site 1800000041 [sample_prop "MLB" "1+"] (Some 40))
       ++ all_target_urls
  /\ cached_props_data (snd (get_cached_or_fresh_data
       (unreachable_site 1800000041 [sample_prop "MLB" "1+"] (Some 40))))
     = fst (get_cached_or_fresh_data
         (unreachable_site 1800000041 [sample_prop "MLB" "1+"] (Some 40)))
  /\ cache_timestamp (snd (get_cached_or_fresh_data
       (unreachable_site 1800000041 [sample_prop "MLB" "1+"] (Some 40)))) <> None
  /\ (fst (get_cached_or_fresh_data
         (unreachable_site 1800000041 [sample_prop "MLB" "1+"] (Some 40)))
      = fst (scrape_player_props
          (unreachable_site 1800000041 [sample_prop "MLB" "1+"] (Some 40)))
      \/ fst (get_cached_or_fresh_data
           (unreachable_site 1800000041 [sample_prop "MLB" "1+"] (Some 40)))
         = fst (scrape_player_props (snd (datetime_now
             (unreachable_site 1800000041 [sample_prop "MLB" "1+"] (Some 40)))))).
Proof.
  apply (get_cached_or_fresh_data_miss
           (unreachable_site 1800000041 [sample_prop "MLB" "1+"] (Some 40))).
  right. right. exists 40. split; [reflexivity|]. vm_compute. reflexivity.
Defined.

(** The age of thirty minutes to the microsecond is still served. *)
Example get_cached_or_fresh_data_at_the_bound :
  scrape_calls (snd (get_cached_or_fresh_data
     (unreachable_site 1800000040 [sample_prop "MLB" "1+"] (Some 40)))) = 0%nat.
Proof. vm_compute. reflexivity. Qed.

Lemma refresh_props_cache_unfold w :
  refresh_props_cache w =
  ({| rr_message := "Props cache refreshed successfully";
      rr_total_props := length (fst (get_cached_or_fresh_data (discarded w)));
      rr_cache_timestamp :=
        cache_timestamp (snd (get_cached_or_fresh_data (discarded w))) |},
   snd (get_cached_or_fresh_data (discarded w))).
Proof.
  unfold refresh_props_cache, bind, get_cache_timestamp, ret, discarded. simpl.
  destruct (get_cached_or_fresh_data _). reflexivity.
Qed.

(** X3: after [refresh_props_cache] has reported one prop or more, a call of
    [get_cached_or_fresh_data] whose clock reading is within thirty minutes
    of the reported timestamp returns the refreshed collection and runs no
    aggregator; when the refresh reported none, the next call scrapes
    again. *)
Theorem refresh_then_get (w : World) :
  (forall ts,
     (0 < rr_total_props (fst (refresh_props_cache w)))%nat ->
     rr_cache_timestamp (fst (refresh_props_cache w)) = Some ts ->
     now_readings w (clock_reads (snd (refresh_props_cache w))) - ts <= 1800000000 ->
     fst (get_cached_or_fresh_data (snd (refresh_props_cache w)))
     = cached_props_data (snd (refresh_props_cache w))
     /\ scrape_calls (snd (get_cached_or_fresh_data (snd (refresh_props_cache w))))
        = S (scrape_calls w))
  /\ (rr_total_props (fst (refresh_props_cache w)) = 0%nat ->
      scrape_calls (snd (get_cached_or_fresh_data (snd (refresh_props_cache w))))
      = S (S (scrape_calls w))).
Proof.
  rewrite refresh_props_cache_unfold. cbn [fst snd rr_total_props rr_cache_timestamp].
  pose proof (get_cached_or_fresh_data_cases (discarded w)) as Hcases.
  change (cached_props_data (discarded w)) with (@nil PropRecord) in Hcases.
  destruct (scrape_and_store_spec (discarded w)) as (H1 & H2 & H3 & H4 & H5).
  rewrite Hcases in *.
  set (w1 := snd (scrape_and_store (discarded w))) in *.
  change (scrape_calls (discarded w)) with (scrape_calls w) in H4.
  change (now_readings (discarded w)) with (now_readings w) in H5.
  split.
  - intros ts Hpos Hts Hage. rewrite <- H5 in Hage.
    assert (Hne : cached_props_data w1 <> []).
    { rewrite H2, <- H1. intros Hnil. rewrite Hnil in Hpos. simpl in Hpos. lia. }
    rewrite (get_cached_or_fresh_data_serves w1 ts Hne Hts Hage).
    simpl. auto.
  - intros Hzero. apply length_zero_iff_nil in Hzero.
    destruct (get_cached_or_fresh_data_on_miss w1) as (Hc & _).
    { left. now rewrite H2, <- H1. }
    now rewrite Hc, H4.
Qed.

Lemma refresh_then_get_witness :
  (fst (get_cached_or_fresh_data (snd (refresh_props_cache (one_row_site 5))))
   = cached_props_data (snd (refresh_props_cache (one_row_site 5)))
   /\ scrape_calls (snd (get_cached_or_fresh_data
                           (snd (refresh_props_cache (one_row_site 5)))))
      = S (scrape_calls (one_row_site 5)))
  /\ scrape_calls (snd (get_cached_or_fresh_data
                          (snd (refresh_props_cache (unreachable_site 0 [] None)))))
     = S (S (scrape_calls (unreachable_site 0 [] None))).
Proof.
  split.
  - apply (proj1 (refresh_then_get (one_row_site 5)) 5).
    + vm_compute. lia.
    + vm_compute. reflexivity.
    + vm_compute. discriminate.
  - apply (proj2 (refresh_then_get (unreachable_site 0 [] None))).
    vm_compute. reflexivity.
Defined.

(** ** What every record satisfies *)

Lemma rstrip_cons c s :
  rstrip (String c s) =
  match rstrip s with
  | EmptyString => if is_space c then EmptyString else String c EmptyString
  | r => String c r
  end.
Proof. reflexivity. Qed.

Lemma rstrip_idempotent s : rstrip (rstrip s) = rstrip s.
Proof.
  induction s as [|c s IH]; [reflexivity|].
  rewrite (rstrip_cons c s).
  destruct (rstrip s) as [|y r] eqn:Hr.
  - destruct (is_space c) eqn:Hc; [reflexivity|].
    rewrite rstrip_cons. simpl. now rewrite Hc.
  - rewrite rstrip_cons, IH. reflexivity.
Qed.

Lemma lstrip_head s :
  lstrip s = "" \/ exists c r, lstrip s = String c r /\ is_space c = false.
Proof.
  induction s as [|c s IH]; simpl; [now left|].
  destruct (is_space c) eqn:Hc; [exact IH | right; eauto].
Qed.

Lemma strip_idempotent s : strip (strip s) = strip s.
Proof.
  unfold strip. destruct (lstrip_head s) as [H|(c & r & H & Hc)]; rewrite H.
  - reflexivity.
  - assert (Hhead : exists r', rstrip (String c r) = String c r').
    { rewrite rstrip_cons. destruct (rstrip r); [rewrite Hc|]; eauto. }
    destruct Hhead as [r' Hr']. rewrite Hr'. simpl lstrip. rewrite Hc.
    rewrite <- Hr'. apply rstrip_idempotent.
Qed.

Lemma record_of_cells_well_formed c0 c1 c2 c3 c4 converted sport_name date_range now :
  configured sport_name date_range ->
  convert_bet_line (strip (c_text c3)) = Returns converted ->
  well_formed (record_of_cells c0 c1 c2 c3 c4 converted sport_name date_range now).
Proof.
  intros Hconf Hconv. unfold well_formed, record_of_cells.
  cbn -[strip convert_bet_line].
  repeat split; try apply strip_idempotent; try assumption.
  destruct (c_link c4); apply strip_idempotent.
Qed.

(** X4: a record that [parse_prop_row] returns carries the sport and date
    range it was given and the instant of the one clock reading it made; its
    converted line is [convert_bet_line] of its bet line; its event, date,
    market, bet line and odds have no white space at either end; cells after
    the fifth have no influence. *)
Theorem parse_prop_row_record (row : Row) (sport_name date_range : string)
    (w w' : World) (r : PropRecord) :
  parse_prop_row row sport_name date_range w = (Some r, w') ->
  sport r = sport_name
  /\ scraped_date_range r = date_range
  /\ scraped_timestamp r = now_readings w (clock_reads w)
  /\ clock_reads w' = S (clock_reads w)
  /\ convert_bet_line (betslip_line r) = Returns (converted_betslip_line r)
  /\ strip (event r) = event r
  /\ strip (event_date r) = event_date r
  /\ strip (market r) = market r
  /\ strip (betslip_line r) = betslip_line r
  /\ strip (odds r) = odds r
  /\ fst (parse_prop_row (firstn 5 row) sport_name date_range w) = Some r.
Proof.
  intros Hparse.
  destruct (Nat.lt_ge_cases (length row) 5) as [Hlt|Hge].
  { rewrite parse_prop_row_short in Hparse by exact Hlt. discriminate. }
  destruct row as [|c0 [|c1 [|c2 [|c3 [|c4 rest]]]]]; simpl in Hge; try lia.
  cbn [firstn]. rewrite parse_prop_row_cells in *.
  destruct (convert_bet_line (strip (c_text c3))) as [converted|] eqn:Hconv;
    [|discriminate].
  inversion Hparse; subst r w'. unfold record_of_cells.
  cbn -[strip convert_bet_line].
  rewrite !strip_idempotent.
  repeat split; try reflexivity; try assumption.
  destruct (c_link c4); apply strip_idempotent.
Qed.

Lemma parse_prop_row_record_witness :
  sport (record_of_cells (text_cell "NYY @ BOS") (text_cell "Jul 4")
           (text_cell " Aaron Judge Hits ") (text_cell " 2+ ")
           (link_cell "+120" "https://dk.example/bet/1")
           "Over 1.5" "MLB" "today" 7) = "MLB"
  /\ convert_bet_line "2+" = Returns "Over 1.5"
  /\ strip "Aaron Judge Hits" = "Aaron Judge Hits".
Proof.
  destruct (parse_prop_row_record
              (sample_row " 2+ " ++ [text_cell "more"]) "MLB" "today"
              (unreachable_site 7 [] None)
              (snd (datetime_now (unreachable_site 7 [] None)))
              (record_of_cells (text_cell "NYY @ BOS") (text_cell "Jul 4")
                 (text_cell " Aaron Judge Hits ") (text_cell " 2+ ")
                 (link_cell "+120" "https://dk.example/bet/1")
                 "Over 1.5" "MLB" "today" 7))
    as (H1 & _ & _ & _ & H5 & _ & _ & H8 & _).
  - vm_compute. reflexivity.
  - split; [exact H1|]. split; [exact H5 | exact H8].
Defined.

Lemma extract_rows_well_formed sport_name date_range rows w :
  configured sport_name date_range ->
  Forall well_formed (fst (extract_rows sport_name date_range rows w)).
Proof.
  intros Hconf. revert w. induction rows as [|row rows IH]; intros w; simpl.
  - constructor.
  - unfold bind.
    destruct (parse_prop_row row sport_name date_range w) as [o w1] eqn:Hp.
    specialize (IH w1).
    destruct (extract_rows sport_name date_range rows w1) as [more w2].
    simpl in *. destruct o as [p|]; [|exact IH].
    constructor; [|exact IH].
    destruct (Nat.lt_ge_cases (length row) 5) as [Hlt|Hge].
    { rewrite parse_prop_row_short in Hp by exact Hlt. discriminate. }
    destruct row as [|c0 [|c1 [|c2 [|c3 [|c4 rest]]]]]; simpl in Hge; try lia.
    rewrite parse_prop_row_cells in Hp.
    destruct (convert_bet_line (strip (c_text c3))) as [converted|] eqn:Hconv;
      [|discriminate].
    inversion Hp; subst p. now apply record_of_cells_well_formed.
Qed.

Lemma extract_target_well_formed config date_range w :
  config ∈ sport_configs -> date_range ∈ sc_date_ranges config ->
  Forall well_formed (fst (extract_target config date_range w)).
Proof.
  intros Hc Hd. unfold extract_target, bind.
  destruct (http_fetch _ w) as [[|[| |rows]] w1]; try constructor.
  apply extract_rows_well_formed. exists config. auto.
Qed.

Lemma extract_date_ranges_well_formed config date_ranges w :
  config ∈ sport_configs ->
  (forall d, d ∈ date_ranges -> d ∈ sc_date_ranges config) ->
  Forall well_formed (fst (extract_date_ranges config date_ranges w)).
Proof.
  intros Hc. revert w. induction date_ranges as [|d ds IH]; intros w Hds; simpl.
  - constructor.
  - unfold bind.
    pose proof (extract_target_well_formed config d w Hc
                  (Hds d (list_elem_of_here d ds))) as Hhere.
    destruct (extract_target config d w) as [here w1].
    assert (Hmore : Forall well_formed (fst (extract_date_ranges config ds w1))).
    { apply IH. intros d' Hd'. apply Hds. now apply list_elem_of_further. }
    destruct (extract_date_ranges config ds w1) as [more w2].
    simpl in *. now apply Forall_app.
Qed.

Lemma extract_sports_well_formed configs w :
  (forall c, c ∈ configs -> c ∈ sport_configs) ->
  Forall well_formed (fst (extract_sports configs w)).
Proof.
  revert w. induction configs as [|c cs IH]; intros w Hcs; simpl.
  - constructor.
  - unfold bind.
    pose proof (extract_date_ranges_well_formed c (sc_date_ranges c) w
                  (Hcs c (list_elem_of_here c cs)) (fun d H => H)) as Hhere.
    destruct (extract_date_ranges c (sc_date_ranges c) w) as [here w1].
    assert (Hmore : Forall well_formed (fst (extract_sports cs w1))).
    { apply IH. intros c' Hc'. apply Hcs. now apply list_elem_of_further. }
    destruct (extract_sports cs w1) as [more w2].
    simpl in *. now apply Forall_app.
Qed.

Lemma extracted_rows_well_formed w : Forall well_formed (fst (extracted_rows w)).
Proof.
  unfold extracted_rows, bind. destruct (enter_scrape w) as [[] w1].
  now apply extract_sports_well_formed.
Qed.

Lemma scrape_player_props_all_well_formed w :
  Forall well_formed (fst (scrape_player_props w)).
Proof.
  rewrite scrape_player_props_keeps_first. simpl.
  apply Forall_forall. intros r Hr.
  destruct (keep_first_invariant (fst (extracted_rows w)) [] (NoDup_nil_2))
    as (_ & _ & H3).
  apply H3 in Hr as [Hr|Hr]; [now apply elem_of_nil in Hr|].
  pose proof (extracted_rows_well_formed w) as Hall.
  rewrite Forall_forall in Hall. now apply Hall.
Qed.

(** X5: every record of an aggregator run carries the display name of a
    sport of the table together with one of that sport's own date ranges
    (never "tomorrow" for the soccer leagues), its converted line is
    [convert_bet_line] of its bet line, and its event, date, market, bet
    line and odds are trimmed. *)
Theorem scrape_player_props_well_formed (w : World) (r : PropRecord) :
  r ∈ fst (scrape_player_props w) ->
  (exists config,
     config ∈ sport_configs
     /\ sc_name config = sport r
     /\ scraped_date_range r ∈ sc_date_ranges config)
  /\ convert_bet_line (betslip_line r) = Returns (converted_betslip_line r)
  /\ strip (event r) = event r
  /\ strip (event_date r) = event_date r
  /\ strip (market r) = market r
  /\ strip (betslip_line r) = betslip_line r
  /\ strip (odds r) = odds r.
Proof.
  intros Hr. pose proof (scrape_player_props_all_well_formed w) as Hall.
  rewrite Forall_forall in Hall. exact (Hall r Hr).
Qed.

Lemma scrape_player_props_well_formed_witness :
  (exists config,
     config ∈ sport_configs
     /\ sc_name config = "MLB"
     /\ "today" ∈ sc_date_ranges config)
  /\ convert_bet_line "2+" = Returns "Over 1.5"
  /\ strip "NYY @ BOS" = "NYY @ BOS"
  /\ strip "Jul 4" = "Jul 4"
  /\ strip "Aaron Judge Hits" = "Aaron Judge Hits"
  /\ strip "2+" = "2+"
  /\ strip "+120" = "+120".
Proof.
  apply (scrape_player_props_well_formed (one_row_site 0)
           {| event := "NYY @ BOS"; event_date := "Jul 4";
              market := "Aaron Judge Hits"; betslip_line := "2+";
              converted_betslip_line := "Over 1.5"; odds := "+120";
              draftkings_url := "https://dk.example/bet/1"; sport := "MLB";
              scraped_date_range := "today"; scraped_timestamp := 0 |}).
  vm_compute. left.
Defined.

(** ** The first of several duplicates is the one kept *)

Lemma keep_first_extends rows acc :
  exists kept, foldl keep_first acc rows = acc ++ kept /\ kept `sublist_of` rows.
Proof.
  revert acc. induction rows as [|p rows IH]; intros acc; simpl.
  - exists []. now rewrite app_nil_r.
  - destruct (IH (keep_first acc p)) as (kept & Heq & Hsub). unfold keep_first in *.
    destruct (is_duplicate acc p).
    + exists kept. split; [exact Heq | now apply sublist_cons].
    + exists (p :: kept). split; [now rewrite Heq, <- app_assoc|].
      now apply sublist_skip.
Qed.

(** X6: the collection of a run lists the rows it parsed in the order in
    which it parsed them, some left out; a parsed row that no earlier parsed
    row shares its five key fields with is in the collection, so that of
    several duplicates the first one met is the one kept. *)
Theorem scrape_player_props_keeps_earliest (w : World) :
  fst (scrape_player_props w) `sublist_of` fst (extracted_rows w)
  /\ forall before p after,
       fst (extracted_rows w) = before ++ p :: after ->
       dedup_key p ∉ dedup_key <$> before ->
       p ∈ fst (scrape_player_props w).
Proof.
  rewrite scrape_player_props_keeps_first. simpl. split.
  - destruct (keep_first_extends (fst (extracted_rows w)) []) as (kept & -> & H).
    exact H.
  - intros before p after -> Hfresh.
    rewrite foldl_app. simpl.
    destruct (keep_first_invariant before [] (NoDup_nil_2)) as (_ & H2 & _).
    assert (Hd : is_duplicate (foldl keep_first [] before) p = false).
    { apply not_true_is_false. intros Hd. apply is_duplicate_key in Hd.
      apply H2 in Hd as [Hd|Hd]; [now apply elem_of_nil in Hd | contradiction]. }
    unfold keep_first at 2. rewrite Hd.
    destruct (keep_first_extends after (foldl keep_first [] before ++ [p]))
      as (kept & -> & _).
    rewrite !elem_of_app, list_elem_of_singleton. auto.
Qed.

Lemma scrape_player_props_keeps_earliest_witness :
  {| event := "NYY @ BOS"; event_date := "Jul 4";
     market := "Aaron Judge Hits"; betslip_line := "2+";
     converted_betslip_line := "Over 1.5"; odds := "+120";
     draftkings_url := "https://dk.example/bet/1"; sport := "MLB";
     scraped_date_range := "today"; scraped_timestamp := 0 |}
  ∈ fst (scrape_player_props (two_sport_site 0)).
Proof.
  apply (proj2 (scrape_player_props_keeps_earliest (two_sport_site 0))
           []
           {| event := "NYY @ BOS"; event_date := "Jul 4";
              market := "Aaron Judge Hits"; betslip_line := "2+";
              converted_betslip_line := "Over 1.5"; odds := "+120";
              draftkings_url := "https://dk.example/bet/1"; sport := "MLB";
              scraped_date_range := "today"; scraped_timestamp := 0 |}
           [ {| event := "NYY @ BOS"; event_date := "Jul 4";
                market := "Aaron Judge Hits"; betslip_line := "2+";
                converted_betslip_line := "Over 1.5"; odds := "+120";
                draftkings_url := "https://dk.example/bet/1"; sport := "WNBA";
                scraped_date_range := "today"; scraped_timestamp := 0 |} ]).
  - vm_compute. reflexivity.
  - simpl. apply not_elem_of_nil.
Defined.

(** ** Filtering by sport *)

Lemma lower_char_idempotent c : lower_char (lower_char c) = lower_char c.
Proof.
  destruct c as [[] [] [] [] [] [] [] []]; vm_compute; reflexivity.
Qed.

Lemma lower_idempotent s : lower (lower s) = lower s.
Proof.
  induction s as [|c s IH]; simpl; [reflexivity|].
  now rewrite lower_char_idempotent, IH.
Qed.

Lemma filter_ext_in {A} (P1 P2 : A -> Prop)
    `{!forall x, Decision (P1 x), !forall x, Decision (P2 x)} (l : list A) :
  (forall x, x ∈ l -> (P1 x <-> P2 x)) -> filter P1 l = filter P2 l.
Proof.
  induction l as [|a l IH]; intros Hiff; [reflexivity|].
  rewrite !filter_cons.
  assert (Ha : P1 a <-> P2 a) by (apply Hiff, list_elem_of_here).
  rewrite IH by (intros x Hx; apply Hiff; now apply list_elem_of_further).
  destruct (decide (P1 a)), (decide (P2 a)); tauto || reflexivity.
Qed.

(** X7: [filter_by_sport] keeps, in their order, exactly the records whose
    sport equals the name once both are put in lower case, so the letter
    case of the query does not matter; filtering the result again by the
    same name changes nothing, and a collection without two records of one
    key stays so. *)
Theorem filter_by_sport_properties (props : list PropRecord) (name : string) :
  filter_by_sport props name `sublist_of` props
  /\ (forall p, p ∈ filter_by_sport props name
                <-> p ∈ props /\ lower (sport p) = lower name)
  /\ filter_by_sport props (lower name) = filter_by_sport props name
  /\ filter_by_sport (filter_by_sport props name) name = filter_by_sport props name
  /\ (NoDup (dedup_key <$> props) ->
      NoDup (dedup_key <$> filter_by_sport props name)).
Proof.
  unfold filter_by_sport. split; [apply sublist_filter|]. split.
  { intros p. rewrite list_elem_of_filter. tauto. }
  split.
  { apply list_filter_iff. intros p. now rewrite lower_idempotent. }
  split.
  { apply list_filter_filter_l. auto. }
  intros Hnd. eapply sublist_NoDup; [exact Hnd|].
  apply fmap_sublist, sublist_filter.
Qed.

Lemma filter_by_sport_properties_witness :
  NoDup (dedup_key <$> filter_by_sport
           [sample_prop "MLB" "1+"; sample_prop "mlb" "2+"; sample_prop "NBA" "3+"]
           "Mlb").
Proof.
  apply (proj2 (proj2 (proj2 (proj2 (filter_by_sport_properties
           [sample_prop "MLB" "1+"; sample_prop "mlb" "2+"; sample_prop "NBA" "3+"]
           "Mlb"))))).
  apply (bool_decide_unpack _). vm_compute. reflexivity.
Defined.

Example filter_by_sport_any_case :
  betslip_line <$> filter_by_sport
    [sample_prop "MLB" "1+"; sample_prop "mlb" "2+"; sample_prop "NBA" "3+"] "Mlb"
  = ["1+"; "2+"].
Proof. vm_compute. reflexivity. Qed.

(** No two display names of the table differ in letter case only. *)
Lemma sport_names_distinct_in_lower c1 c2 :
  c1 ∈ sport_configs -> c2 ∈ sport_configs ->
  lower (sc_name c1) = lower (sc_name c2) -> sc_name c1 = sc_name c2.
Proof.
  intros H1 H2 Hlow.
  assert (Hall : forallb (fun a =>
            forallb (fun b =>
              implb (String.eqb (lower (sc_name a)) (lower (sc_name b)))
                    (String.eqb (sc_name a) (sc_name b)))
              sport_configs) sport_configs = true) by (vm_compute; reflexivity).
  rewrite forallb_forall in Hall.
  apply list_elem_of_In in H1, H2.
  specialize (Hall c1 H1). rewrite forallb_forall in Hall.
  specialize (Hall c2 H2).
  apply String.eqb_eq in Hlow. rewrite Hlow in Hall. simpl in Hall.
  now apply String.eqb_eq.
Qed.

Lemma filter_by_sport_scraped w config name :
  config ∈ sport_configs ->
  lower name = lower (sc_name config) ->
  filter_by_sport (fst (scrape_player_props w)) name
  = filter (fun p => sport p = sc_name config) (fst (scrape_player_props w)).
Proof.
  intros Hc Hname. unfold filter_by_sport. apply filter_ext_in.
  intros r Hr. rewrite Hname.
  pose proof (scrape_player_props_all_well_formed w) as Hall.
  rewrite Forall_forall in Hall. destruct (Hall r Hr) as ((c' & Hc' & Hn & _) & _).
  split; [|now intros ->].
  intros Hlow. rewrite <- Hn in *. now apply sport_names_distinct_in_lower.
Qed.

(** X8: on the collection of an aggregator run, [filter_by_sport] queried
    with a display name of the table in any letter case returns exactly the
    records stamped with that name; the group [get_top_props_by_sport] gives
    that sport is the first [limit] of them. *)
Theorem filter_by_sport_of_scraped (w : World) (config : SportConfig)
    (name : string) :
  config ∈ sport_configs ->
  lower name = lower (sc_name config) ->
  filter_by_sport (fst (scrape_player_props w)) name
  = filter (fun p => sport p = sc_name config) (fst (scrape_player_props w))
  /\ forall limit group,
       0 <= limit ->
       get_top_props_by_sport (fst (scrape_player_props w)) limit
         !! sc_name config = Some group ->
       group = take (Z.to_nat limit)
                 (filter_by_sport (fst (scrape_player_props w)) name).
Proof.
  intros Hc Hname. split; [now apply filter_by_sport_scraped|].
  intros limit group Hlimit Hgroup.
  rewrite (filter_by_sport_scraped w config name Hc Hname).
  rewrite get_top_props_by_sport_lookup in Hgroup.
  destruct (filter (fun p => sport p = sc_name config)
              (fst (scrape_player_props w))) as [|p l]; [discriminate|].
  inversion Hgroup. unfold slice_to.
  destruct (Z.ltb_spec limit 0); [lia | reflexivity].
Qed.

Lemma filter_by_sport_of_scraped_witness :
  filter_by_sport (fst (scrape_player_props (two_sport_site 0))) "wnba"
  = filter (fun p => sport p = "WNBA") (fst (scrape_player_props (two_sport_site 0))).
Proof.
  apply (proj1 (filter_by_sport_of_scraped (two_sport_site 0)
           {| sc_key := "wnba"; sc_id := 94682; sc_name := "WNBA";
              sc_date_ranges := ["today"; "tomorrow"] |} "wnba"
           ltac:(vm_compute; right; left) eq_refl)).
Defined.

(** ** Grouping by sport: keys and limits *)

Lemma filter_sport_nil_iff (props : list PropRecord) s :
  filter (fun p => sport p = s) props = [] <-> s ∉ sport <$> props.
Proof.
  split.
  - intros Hnil Hin. apply list_elem_of_fmap in Hin as (p & -> & Hp).
    assert (Hf : p ∈ filter (fun q => sport q = sport p) props)
      by (apply list_elem_of_filter; auto).
    rewrite Hnil in Hf. now apply elem_of_nil in Hf.
  - intros Hnot. destruct (filter _ props) as [|p l] eqn:Hf; [reflexivity|].
    exfalso. apply Hnot.
    assert (Hp : p ∈ filter (fun q => sport q = s) props)
      by (rewrite Hf; apply list_elem_of_here).
    apply list_elem_of_filter in Hp as [<- Hp].
    apply list_elem_of_fmap. eauto.
Qed.

Lemma get_top_props_by_sport_dom (props : list PropRecord) (limit : Z) :
  dom (get_top_props_by_sport props limit) = list_to_set (sport <$> props).
Proof.
  apply set_eq. intros s. rewrite elem_of_dom, elem_of_list_to_set.
  rewrite get_top_props_by_sport_lookup.
  pose proof (filter_sport_nil_iff props s) as Hnil.
  destruct (filter (fun p => sport p = s) props) as [|p l].
  - split; [intros [x Hx]; discriminate|].
    intros Hin. exfalso. now apply (proj1 Hnil).
  - split; [|eauto]. intros _.
    destruct (decide (s ∈ sport <$> props)) as [H|H]; [exact H|].
    apply Hnil in H. discriminate.
Qed.

(** X9: whatever the limit, zero and negative ones included, the keys of
    [get_top_props_by_sport] are exactly the sports that occur in the
    collection; with limit 0 every group is empty, and a negative limit
    drops that many records from the end of each sport's list. *)
Theorem get_top_props_by_sport_keys (props : list PropRecord) (limit : Z) :
  dom (get_top_props_by_sport props limit) = list_to_set (sport <$> props)
  /\ (forall s group,
        get_top_props_by_sport props limit !! s = Some group ->
        (limit = 0 -> group = [])
        /\ (limit < 0 ->
            group = take (length (filter (fun p => sport p = s) props)
                          - Z.to_nat (- limit))
                      (filter (fun p => sport p = s) props))).
Proof.
  split; [apply get_top_props_by_sport_dom|].
  - intros s group Hgroup. rewrite get_top_props_by_sport_lookup in Hgroup.
    destruct (filter (fun p => sport p = s) props) as [|p l]; [discriminate|].
    inversion Hgroup. unfold slice_to. split.
    + intros ->. reflexivity.
    + intros Hneg. destruct (Z.ltb_spec limit 0); [reflexivity | lia].
Qed.

Lemma get_top_props_by_sport_keys_witness :
  [sample_prop "MLB" "1+"]
  = take (length (filter (fun p => sport p = "MLB")
                    [sample_prop "MLB" "1+"; sample_prop "NBA" "2+";
                     sample_prop "MLB" "3+"])
          - Z.to_nat (- -1))
      (filter (fun p => sport p = "MLB")
         [sample_prop "MLB" "1+"; sample_prop "NBA" "2+"; sample_prop "MLB" "3+"]).
Proof.
  apply (proj2 (proj2 (get_top_props_by_sport_keys
           [sample_prop "MLB" "1+"; sample_prop "NBA" "2+"; sample_prop "MLB" "3+"]
           (-1)) "MLB" [sample_prop "MLB" "1+"] ltac:(vm_compute; reflexivity))).
  lia.
Defined.

(** X10: with a limit of at least the size of the collection nothing is cut:
    every record is in the group of its sport, and that group is the whole
    list of the sport's records in their order. *)
Theorem get_top_props_by_sport_lossless (props : list PropRecord) (limit : Z)
    (p : PropRecord) :
  Z.of_nat (length props) <= limit ->
  p ∈ props ->
  get_top_props_by_sport props limit !! sport p
  = Some (filter (fun q => sport q = sport p) props)
  /\ p ∈ filter (fun q => sport q = sport p) props.
Proof.
  intros Hlimit Hp.
  assert (Hin : p ∈ filter (fun q => sport q = sport p) props)
    by (apply list_elem_of_filter; auto).
  split; [|exact Hin].
  rewrite get_top_props_by_sport_lookup.
  destruct (filter (fun q => sport q = sport p) props) as [|q l] eqn:Hf;
    [now apply elem_of_nil in Hin|].
  f_equal. unfold slice_to. destruct (Z.ltb_spec limit 0); [lia|].
  apply take_ge. rewrite <- Hf.
  pose proof (length_filter (fun q => sport q = sport p) props). lia.
Qed.

Lemma get_top_props_by_sport_lossless_witness :
  get_top_props_by_sport
    [sample_prop "MLB" "1+"; sample_prop "NBA" "2+"; sample_prop "MLB" "3+"] 3
    !! sport (sample_prop "MLB" "3+")
  = Some (filter (fun q => sport q = sport (sample_prop "MLB" "3+"))
            [sample_prop "MLB" "1+"; sample_prop "NBA" "2+"; sample_prop "MLB" "3+"])
  /\ sample_prop "MLB" "3+"
     ∈ filter (fun q => sport q = sport (sample_prop "MLB" "3+"))
         [sample_prop "MLB" "1+"; sample_prop "NBA" "2+"; sample_prop "MLB" "3+"].
Proof.
  apply (get_top_props_by_sport_lossless
           [sample_prop "MLB" "1+"; sample_prop "NBA" "2+"; sample_prop "MLB" "3+"]
           3 (sample_prop "MLB" "3+")).
  - simpl. lia.
  - right. right. left.
Defined.

(** ** The routes *)

Lemma round53_nonneg m e : 0 <= m -> 0 <= fm (round53 m e).
Proof.
  intros Hm. unfold round53.
  destruct (Z.leb_spec (Z.log2 (Z.abs m) + 1 - 53) 0) as [Hk|Hk]; simpl;
    [exact Hm|].
  apply Z.mul_nonneg_nonneg; [apply Z.sgn_nonneg; exact Hm|].
  unfold round_half_even.
  assert (0 <= Z.abs m / 2 ^ (Z.log2 (Z.abs m) + 1 - 53))
    by (apply Z.div_pos; [lia | apply Z.pow_pos_nonneg; lia]).
  destruct (_ <? _); [lia|]. destruct (_ <? _); [lia|].
  destruct (Z.even _); lia.
Qed.

Lemma int_truediv_nonneg a b :
  0 <= a -> 0 < b -> exists q, int_truediv a b = Returns q /\ 0 <= fm q.
Proof.
  intros Ha Hb. unfold int_truediv. destruct (Z.eqb_spec b 0); [lia|].
  eexists. split; [reflexivity|]. apply round53_nonneg.
  assert (0 <= a * 2 ^ Z.max 0 (55 + Z.log2 b - Z.log2 a) / b);
    [|destruct (_ =? 0); lia].
  apply Z.div_pos; [|lia]. apply Z.mul_nonneg_nonneg; [lia|].
  apply Z.pow_nonneg. lia.
Qed.

(** The age computed after a timestamp is a float, not negative when the
    clock has not run backwards. *)
Lemma age_after_timestamp w ts :
  cache_timestamp w = Some ts ->
  exists minutes,
    cache_age_minutes w = (Returns (AgeMinutes minutes), snd (datetime_now w))
    /\ (ts <= now_readings w (clock_reads w) -> 0 <= fm minutes).
Proof.
  intros Hts. unfold cache_age_minutes, bind, get_cache_timestamp, ret.
  rewrite Hts. cbn [datetime_now fst snd].
  set (us := now_readings w (clock_reads w) - ts).
  unfold total_seconds, float_div_int.
  destruct (int_truediv_nonneg (Z.abs us) 1000000) as (q & Hq & Hq0); [lia|lia|].
  rewrite Hq. cbn [rbind fm fe].
  destruct (int_truediv_nonneg (Z.abs (Z.sgn us * fm q)) 60) as (q' & Hq' & Hq0');
    [lia|lia|].
  rewrite Hq'. cbn [rbind]. eexists. split; [reflexivity|].
  intros Hmono. cbn [fm].
  apply Z.mul_nonneg_nonneg; [|exact Hq0'].
  apply Z.sgn_nonneg. apply Z.mul_nonneg_nonneg; [|exact Hq0].
  apply Z.sgn_nonneg. lia.
Qed.

Lemma cached_flag_after_get w :
  cached_flag (snd (get_cached_or_fresh_data w))
  = (match fst (get_cached_or_fresh_data w) with [] => false | _ :: _ => true end,
     snd (get_cached_or_fresh_data w)).
Proof.
  destruct (get_cached_or_fresh_data_held w) as [_ Hheld].
  unfold cached_flag, bind, get_cached_props_data, ret. now rewrite <- Hheld.
Qed.

(** What the four data routes share once [get_cached_or_fresh_data] has
    returned. *)
Lemma flag_and_age_after_get w :
  exists minutes,
    cached_flag (snd (get_cached_or_fresh_data w))
    = (match fst (get_cached_or_fresh_data w) with [] => false | _ :: _ => true end,
       snd (get_cached_or_fresh_data w))
    /\ cache_age_minutes (snd (get_cached_or_fresh_data w))
       = (Returns (AgeMinutes minutes),
          snd (datetime_now (snd (get_cached_or_fresh_data w))))
    /\ (forall ts,
          cache_timestamp (snd (get_cached_or_fresh_data w)) = Some ts ->
          ts <= now_readings (snd (get_cached_or_fresh_data w))
                  (clock_reads (snd (get_cached_or_fresh_data w))) ->
          0 <= fm minutes).
Proof.
  destruct (get_cached_or_fresh_data_held w) as [Hset _].
  destruct (cache_timestamp (snd (get_cached_or_fresh_data w))) as [ts|] eqn:Hts;
    [|congruence].
  destruct (age_after_timestamp _ ts Hts) as (minutes & Hage & Hsign).
  exists minutes. split; [apply cached_flag_after_get|]. split; [exact Hage|].
  intros ts' Hts'. inversion Hts'; subst ts'. exact Hsign.
Qed.

(** X11: [get_all_props] never raises; it reports the collection that
    [get_cached_or_fresh_data] returned and its length; ['cached'] is true
    exactly when that collection is not empty, be it served from the cache
    or scraped this very call; ['cache_age_minutes'] is always the computed
    float, never the default 0, and is not negative unless the clock ran
    backwards. *)
Theorem get_all_props_response (w : World) :
  exists resp minutes,
    fst (get_all_props w) = Returns resp
    /\ ap_props resp = fst (get_cached_or_fresh_data w)
    /\ ap_count resp = length (fst (get_cached_or_fresh_data w))
    /\ (ap_cached resp = true <-> fst (get_cached_or_fresh_data w) <> [])
    /\ ap_cache_age_minutes resp = AgeMinutes minutes
    /\ (forall ts,
          cache_timestamp (snd (get_cached_or_fresh_data w)) = Some ts ->
          ts <= now_readings (snd (get_cached_or_fresh_data w))
                  (clock_reads (snd (get_cached_or_fresh_data w))) ->
          0 <= fm minutes).
Proof.
  destruct (flag_and_age_after_get w) as (minutes & Hflag & Hage & Hsign).
  unfold get_all_props, bind.
  destruct (get_cached_or_fresh_data w) as [props w1]. cbn [fst snd] in *.
  rewrite Hflag, Hage. cbn [ret rbind fst].
  eexists. exists minutes. split; [reflexivity|]. cbn.
  repeat split; try exact Hsign; destruct props; congruence.
Qed.

(** X12: each of the six per-sport routes never raises and reports the
    records that [filter_by_sport] selects, by the route's fixed name, from
    the collection [get_cached_or_fresh_data] returned, and their number,
    which is at most the size of that collection; ['cached'] tells whether
    the whole collection, not the sport's part, is non-empty. *)
Theorem get_sport_props_response (w : World) (name : string) :
  exists resp,
    fst (get_sport_props name w) = Returns resp
    /\ sp_props resp = filter_by_sport (fst (get_cached_or_fresh_data w)) name
    /\ sp_count resp = length (sp_props resp)
    /\ (sp_count resp <= length (fst (get_cached_or_fresh_data w)))%nat
    /\ sp_sport resp = name
    /\ (sp_cached resp = true <-> fst (get_cached_or_fresh_data w) <> []).
Proof.
  destruct (flag_and_age_after_get w) as (minutes & Hflag & Hage & _).
  unfold get_sport_props, bind.
  destruct (get_cached_or_fresh_data w) as [props w1]. cbn [fst snd] in *.
  rewrite Hflag, Hage. cbn [ret rbind fst].
  eexists. split; [reflexivity|]. cbn -[filter_by_sport].
  repeat split; try (destruct props; congruence).
  unfold filter_by_sport. apply length_filter.
Qed.

(** The empty part of a non-empty collection still counts as cached. *)
Example get_nba_props_of_mlb_only :
  exists resp,
    fst (get_nba_props (one_row_site 0)) = Returns resp
    /\ sp_props resp = [] /\ sp_cached resp = true.
Proof. eexists. vm_compute. repeat split. Qed.

(** X13: [test_props] never raises and reports the first five records of
    the collection, all of them when there are fewer, and the size of the
    whole collection. *)
Theorem test_props_response (w : World) :
  exists resp,
    fst (test_props w) = Returns resp
    /\ te_first_5_props resp = take 5 (fst (get_cached_or_fresh_data w))
    /\ (length (te_first_5_props resp) <= 5)%nat
    /\ ((length (fst (get_cached_or_fresh_data w)) <= 5)%nat ->
        te_first_5_props resp = fst (get_cached_or_fresh_data w))
    /\ te_total_props resp = length (fst (get_cached_or_fresh_data w)).
Proof.
  destruct (flag_and_age_after_get w) as (minutes & Hflag & Hage & _).
  unfold test_props, bind.
  destruct (get_cached_or_fresh_data w) as [props w1]. cbn [fst snd] in *.
  rewrite Hflag, Hage. cbn [ret rbind fst].
  eexists. split; [reflexivity|]. cbn -[take].
  change (slice_to 5 props) with (take 5 props).
  repeat split.
  - rewrite length_take. lia.
  - intros Hle. now apply take_ge.
Qed.

(** X14: [get_top_props_by_sport_endpoint] never raises; its groups are the
    first ten records of each sport in the order of the collection,
    ['sports_count'] is the number of different sports in the whole
    collection and ['total_props'] its size, not the number of records
    shown. *)
Theorem get_top_props_by_sport_endpoint_response (w : World) :
  exists resp,
    fst (get_top_props_by_sport_endpoint w) = Returns resp
    /\ (forall s group,
          tp_props_by_sport resp !! s = Some group ->
          group = take 10 (filter (fun p => sport p = s)
                             (fst (get_cached_or_fresh_data w)))
          /\ (length group <= 10)%nat)
    /\ tp_sports_count resp
       = size (list_to_set (sport <$> fst (get_cached_or_fresh_data w))
                 : gset string)
    /\ tp_total_props resp = length (fst (get_cached_or_fresh_data w)).
Proof.
  destruct (flag_and_age_after_get w) as (minutes & Hflag & Hage & _).
  unfold get_top_props_by_sport_endpoint, bind.
  destruct (get_cached_or_fresh_data w) as [props w1]. cbn [fst snd] in *.
  rewrite Hflag, Hage. cbn [ret rbind fst].
  eexists. split; [reflexivity|].
  cbn [tp_props_by_sport tp_sports_count tp_total_props].
  split; [|split; [|reflexivity]].
  - intros s group Hgroup. rewrite get_top_props_by_sport_lookup in Hgroup.
    destruct (filter (fun p => sport p = s) props) as [|p l]; [discriminate|].
    inversion Hgroup. change (slice_to 10 (p :: l)) with (take 10 (p :: l)).
    split; [reflexivity|]. rewrite length_take. lia.
  - rewrite <- (get_top_props_by_sport_dom props 10). symmetry. apply size_dom.
Qed.

(** ** When the line normaliser raises *)

Lemma round_half_even_cases m k :
  let q := m / 2 ^ k in
  let r := m mod 2 ^ k in
  let h := 2 ^ (k - 1) in
  (round_half_even m k = q /\ r <= h /\ (r = h -> Z.even q = true))
  \/ (round_half_even m k = q + 1 /\ h <= r /\ (r = h -> Z.even q = false)).
Proof.
  intros q r h. unfold round_half_even. fold q r h.
  destruct (Z.ltb_spec r h); [left; repeat split; lia|].
  destruct (Z.ltb_spec h r); [right; repeat split; lia|].
  destruct (Z.even q) eqn:He; [left | right]; repeat split; auto; lia.
Qed.

(** Rounding an integer of more than 53 bits: the result stays within the
    binade, and reaches the next power of two exactly from half a unit
    below it on. *)
Lemma round_to_53_bits n :
  2 ^ 53 <= n ->
  let L := Z.log2 n in
  let k := L + 1 - 53 in
  let V := round_half_even n k * 2 ^ k in
  0 < k
  /\ 2 ^ L <= V <= 2 ^ (L + 1)
  /\ (V = 2 ^ (L + 1) <-> 2 ^ (L + 1) - 2 ^ (k - 1) <= n).
Proof.
  intros Hn L k V.
  assert (HL : 53 <= L) by (apply Z.log2_le_pow2; lia).
  assert (Hk : 0 < k) by (subst k; lia).
  destruct (Z.log2_spec n ltac:(lia)) as [Hlo Hhi]. fold L in Hlo, Hhi.
  assert (HK : 0 < 2 ^ k) by (apply Z.pow_pos_nonneg; lia).
  assert (Hh : 2 ^ k = 2 * 2 ^ (k - 1)).
  { replace k with (Z.succ (k - 1)) at 1 by lia. apply Z.pow_succ_r. lia. }
  assert (HL52 : 2 ^ L = 2 ^ 52 * 2 ^ k).
  { rewrite <- Z.pow_add_r by lia. f_equal. subst k. lia. }
  assert (HL53 : 2 ^ (L + 1) = 2 ^ 53 * 2 ^ k).
  { rewrite <- Z.pow_add_r by lia. f_equal. subst k. lia. }
  replace (Z.succ L) with (L + 1) in Hhi by lia.
  pose proof (Z.div_mod n (2 ^ k) ltac:(lia)) as Hdm.
  pose proof (Z.mod_pos_bound n (2 ^ k) HK) as Hrem.
  assert (Hq1 : 2 ^ 52 <= n / 2 ^ k)
    by (apply Z.div_le_lower_bound; lia).
  assert (Hq2 : n / 2 ^ k < 2 ^ 53)
    by (apply Z.div_lt_upper_bound; lia).
  assert (Hodd : Z.even (2 ^ 53 - 1) = false) by reflexivity.
  assert (Htop : 2 ^ (L + 1) - 2 ^ (k - 1) <= n -> n / 2 ^ k = 2 ^ 53 - 1).
  { intros Hbig. assert (2 ^ 53 - 1 <= n / 2 ^ k); [|lia].
    apply Z.div_le_lower_bound; lia. }
  destruct (round_half_even_cases n k) as [(Hv & Hr & Heven)|(Hv & Hr & Hnot)];
    subst V; rewrite Hv; clear Hv.
  - set (K := 2 ^ k) in *. set (h := 2 ^ (k - 1)) in *.
    set (q := n / K) in *. set (r := n mod K) in *.
    assert (Hq52 : 2 ^ 52 * K <= q * K) by (apply Z.mul_le_mono_nonneg_r; lia).
    assert (Hq53 : q * K < 2 ^ 53 * K) by (apply Z.mul_lt_mono_pos_r; lia).
    split; [exact Hk|]. split; [lia|]. split; [lia|].
    intros Hbig. exfalso. specialize (Htop Hbig).
    assert (Hrh : r = h) by (rewrite Htop in Hdm; lia).
    specialize (Heven Hrh). rewrite Htop in Heven. congruence.
  - set (K := 2 ^ k) in *. set (h := 2 ^ (k - 1)) in *.
    set (q := n / K) in *. set (r := n mod K) in *.
    assert (Hq52 : 2 ^ 52 * K <= q * K) by (apply Z.mul_le_mono_nonneg_r; lia).
    assert (Hq53 : (q + 1) * K <= 2 ^ 53 * K)
      by (apply Z.mul_le_mono_nonneg_r; lia).
    split; [exact Hk|]. split; [lia|]. split.
    + intros HV. rewrite HL53 in HV.
      assert (q + 1 = 2 ^ 53) by (apply Z.mul_cancel_r in HV; lia).
      replace q with (2 ^ 53 - 1) in Hdm by lia. lia.
    + intros Hbig. rewrite (Htop Hbig). lia.
Qed.

Lemma float_of_int_overflow n :
  0 <= n ->
  float_of_int n
  = if float_overflow_threshold <=? n then Raises OverflowError
    else Returns (round53 n 0).
Proof.
  intros Hn. unfold float_of_int.
  assert (H53 : 2 ^ 53 < float_overflow_threshold) by reflexivity.
  assert (H1023 : 2 ^ 1023 <= float_overflow_threshold)
    by (apply Z.leb_le; vm_compute; reflexivity).
  assert (Hthr : float_overflow_threshold = 2 ^ 1024 - 2 ^ 970) by reflexivity.
  assert (H1024 : 2 ^ 1023 < 2 ^ 1024) by (apply Z.pow_lt_mono_r; lia).
  destruct (Z_lt_le_dec n (2 ^ 53)) as [Hsmall|Hbig].
  - rewrite round53_exact by lia. cbn [fm fe]. rewrite Z.pow_0_r, Z.mul_1_r.
    assert (2 ^ 53 < 2 ^ 1024) by (apply Z.pow_lt_mono_r; lia).
    destruct (Z.leb_spec (2 ^ 1024) (Z.abs n)); [lia|].
    destruct (Z.leb_spec float_overflow_threshold n); [lia | reflexivity].
  - destruct (round_to_53_bits n Hbig) as (Hk & [Hlo Hhi] & Htop).
    destruct (Z.log2_spec n ltac:(lia)) as [Hnlo Hnhi].
    replace (Z.succ (Z.log2 n)) with (Z.log2 n + 1) in Hnhi by lia.
    unfold round53. rewrite (Z.abs_eq n) by lia.
    destruct (Z.leb_spec (Z.log2 n + 1 - 53) 0) as [Hle|_]; [lia|].
    cbn [fm fe]. rewrite Z.sgn_pos, Z.mul_1_l, Z.add_0_l by lia.
    set (V := round_half_even n (Z.log2 n + 1 - 53) * 2 ^ (Z.log2 n + 1 - 53)) in *.
    assert (HV : 0 <= V).
    { assert (0 < 2 ^ Z.log2 n) by (apply Z.pow_pos_nonneg; lia). lia. }
    assert (Habs : Z.abs (round_half_even n (Z.log2 n + 1 - 53))
                   * 2 ^ (Z.log2 n + 1 - 53) = V).
    { subst V. f_equal. apply Z.abs_eq.
      assert (0 < 2 ^ (Z.log2 n + 1 - 53)) by (apply Z.pow_pos_nonneg; lia).
      destruct (Z_lt_le_dec (round_half_even n (Z.log2 n + 1 - 53)) 0) as [Hneg|];
        [|lia].
      exfalso.
      assert (round_half_even n (Z.log2 n + 1 - 53) * 2 ^ (Z.log2 n + 1 - 53) < 0)
        by (apply Z.mul_neg_pos; lia).
      lia. }
    rewrite Habs.
    destruct (Z_lt_le_dec (Z.log2 n) 1023) as [Hl|Hl].
    + assert (2 ^ (Z.log2 n + 1) <= 2 ^ 1023) by (apply Z.pow_le_mono_r; lia).
      destruct (Z.leb_spec (2 ^ 1024) V); [lia|].
      destruct (Z.leb_spec float_overflow_threshold n); [lia | reflexivity].
    + destruct (Z.eq_dec (Z.log2 n) 1023) as [He|Hne].
      * rewrite He in *. change (1023 + 1) with 1024 in *.
        change (1024 - 53 - 1) with 970 in Htop.
        destruct (Z.leb_spec float_overflow_threshold n) as [Ht|Ht].
        -- assert (V = 2 ^ 1024) by (apply Htop; lia).
           destruct (Z.leb_spec (2 ^ 1024) V); [reflexivity | lia].
        -- destruct (Z.leb_spec (2 ^ 1024) V) as [Hov|]; [|reflexivity].
           assert (V = 2 ^ 1024) by lia. apply Htop in H. lia.
      * assert (2 ^ 1024 <= 2 ^ Z.log2 n) by (apply Z.pow_le_mono_r; lia).
        destruct (Z.leb_spec (2 ^ 1024) V); [|lia].
        destruct (Z.leb_spec float_overflow_threshold n); [reflexivity | lia].
Qed.

(** X15: [convert_bet_line] raises in two cases only, both on a line whose
    trimmed form is digits and a plus sign: [ValueError] when the digits are
    more than 4300, [OverflowError] when they are not but their number is
    [2^1024 - 2^970] or more; on every other matching line it returns a
    string that starts with ["Over "], and on a line that does not match it
    does not raise. *)
Theorem convert_bet_line_raises (s : string) :
  (forall ds,
     is_number_plus (strip s) ds ->
     ((int_max_str_digits < String.length ds)%nat ->
        convert_bet_line s = Raises ValueError)
     /\ ((String.length ds <= int_max_str_digits)%nat ->
         float_overflow_threshold <= int_of_digits 0 ds ->
         convert_bet_line s = Raises OverflowError)
     /\ ((String.length ds <= int_max_str_digits)%nat ->
         int_of_digits 0 ds < float_overflow_threshold ->
         exists text, convert_bet_line s = Returns ("Over " +:+ text)))
  /\ ((forall ds, ~ is_number_plus (strip s) ds) ->
      forall e, convert_bet_line s <> Raises e).
Proof.
  split.
  - intros ds Hmatch.
    assert (Hpos : 0 <= int_of_digits 0 ds)
      by (apply int_of_digits_nonneg; [apply Hmatch | lia]).
    assert (Hconv : convert_bet_line s
              = rbind (py_int ds) (fun number =>
                rbind (float_of_int number) (fun x =>
                Returns ("Over " +:+ float_repr (float_sub x float_half))))).
    { unfold convert_bet_line.
      destruct (String.eqb_spec s "") as [->|Hs].
      { destruct Hmatch as (Ht & _). rewrite strip_empty in Ht.
        destruct ds; discriminate. }
      apply re_match_number_plus_strip in Hmatch. now rewrite Hmatch. }
    rewrite Hconv. unfold py_int.
    split; [|split].
    + intros Hlen.
      destruct (Nat.ltb_spec int_max_str_digits (String.length ds));
        [reflexivity | lia].
    + intros Hlen Hbig.
      destruct (Nat.ltb_spec int_max_str_digits (String.length ds)); [lia|].
      cbn [rbind]. rewrite float_of_int_overflow by exact Hpos.
      destruct (Z.leb_spec float_overflow_threshold (int_of_digits 0 ds));
        [reflexivity | lia].
    + intros Hlen Hsmall.
      destruct (Nat.ltb_spec int_max_str_digits (String.length ds)); [lia|].
      cbn [rbind]. rewrite float_of_int_overflow by exact Hpos.
      destruct (Z.leb_spec float_overflow_threshold (int_of_digits 0 ds));
        [lia|].
      cbn [rbind]. eauto.
  - intros Hnone e. unfold convert_bet_line.
    destruct (String.eqb s ""); [discriminate|].
    destruct (re_match_number_plus (strip s)) as [ds|] eqn:Hm; [|discriminate].
    apply re_match_number_plus_strip in Hm. now apply Hnone in Hm.
Qed.

Lemma convert_bet_line_raises_witness :
  convert_bet_line (zeros 4300 +:+ "1+") = Raises ValueError
  /\ convert_bet_line ("1" +:+ zeros 309 +:+ "+") = Raises OverflowError
  /\ (exists text, convert_bet_line ("1" +:+ zeros 300 +:+ "+")
                   = Returns ("Over " +:+ text)).
Proof.
  split; [|split].
  - apply (proj1 (proj1 (convert_bet_line_raises (zeros 4300 +:+ "1+"))
                   (zeros 4300 +:+ "1")
                   ltac:(vm_compute; repeat split; discriminate))).
    vm_compute. lia.
  - apply (proj1 (proj2 (proj1 (convert_bet_line_raises ("1" +:+ zeros 309 +:+ "+"))
                   ("1" +:+ zeros 309)
                   ltac:(vm_compute; repeat split; discriminate)))).
    + vm_compute. lia.
    + vm_compute. discriminate.
  - apply (proj2 (proj2 (proj1 (convert_bet_line_raises ("1" +:+ zeros 300 +:+ "+"))
                   ("1" +:+ zeros 300)
                   ltac:(vm_compute; repeat split; discriminate)))).
    + vm_compute. lia.
    + vm_compute. reflexivity.
Defined.

(** ** The line normaliser reads the number only *)

Lemma convert_bet_line_matched s ds :
  is_number_plus (strip s) ds ->
  convert_bet_line s
  = rbind (py_int ds) (fun number =>
    rbind (float_of_int number) (fun x =>
    Returns ("Over " +:+ float_repr (float_sub x float_half)))).
Proof.
  intros Hmatch. unfold convert_bet_line.
  destruct (String.eqb_spec s "") as [->|Hs].
  { destruct Hmatch as (Ht & _). rewrite strip_empty in Ht.
    destruct ds; discriminate. }
  apply re_match_number_plus_strip in Hmatch. now rewrite Hmatch.
Qed.

(** X16: two lines that both trim to digits and a plus sign, with at most
    4300 digits each, are converted alike as soon as their digits denote the
    same number: white space around the line and leading zeros make no
    difference. *)
Theorem convert_bet_line_same_number (s1 s2 ds1 ds2 : string) :
  is_number_plus (strip s1) ds1 ->
  is_number_plus (strip s2) ds2 ->
  (String.length ds1 <= int_max_str_digits)%nat ->
  (String.length ds2 <= int_max_str_digits)%nat ->
  int_of_digits 0 ds1 = int_of_digits 0 ds2 ->
  convert_bet_line s1 = convert_bet_line s2.
Proof.
  intros H1 H2 Hl1 Hl2 Hn.
  rewrite (convert_bet_line_matched s1 ds1 H1), (convert_bet_line_matched s2 ds2 H2).
  unfold py_int.
  destruct (Nat.ltb_spec int_max_str_digits (String.length ds1)); [lia|].
  destruct (Nat.ltb_spec int_max_str_digits (String.length ds2)); [lia|].
  now rewrite Hn.
Qed.

Lemma convert_bet_line_same_number_witness :
  convert_bet_line " 007+" = convert_bet_line "7+ ".
Proof.
  apply (convert_bet_line_same_number " 007+" "7+ " "007" "7").
  - vm_compute. repeat split. discriminate.
  - vm_compute. repeat split. discriminate.
  - vm_compute. lia.
  - vm_compute. lia.
  - reflexivity.
Defined.

(** ** The summary *)

Lemma summarize_prop_lookup (m : gmap string SportSummary) p s :
  summarize_prop m p !! s =
  if decide (sport p = s)
  then
    let entry := default {| ss_count := 0; ss_sample_markets := ∅;
                            ss_date_ranges := ∅ |} (m !! s) in
    Some {| ss_count := S (ss_count entry);
            ss_sample_markets := {[market p]} ∪ ss_sample_markets entry;
            ss_date_ranges := {[scraped_date_range p]} ∪ ss_date_ranges entry |}
  else m !! s.
Proof.
  unfold summarize_prop. case_decide as Hs.
  - subst s. destruct (m !! sport p) as [e|] eqn:He.
    + rewrite lookup_alter_eq, He. reflexivity.
    + rewrite lookup_alter_eq, lookup_insert_eq. reflexivity.
  - rewrite lookup_alter_ne by done.
    destruct (m !! sport p); [reflexivity|].
    now rewrite lookup_insert_ne.
Qed.

Lemma union_singleton_swap (A B : gset string) x :
  A ∪ ({[x]} ∪ B) = ({[x]} ∪ A) ∪ B.
Proof. rewrite (assoc_L (∪)). f_equal. apply (comm_L (∪)). Qed.

Lemma foldl_summarize_lookup props : forall (m : gmap string SportSummary) s,
  foldl summarize_prop m props !! s =
  match m !! s, filter (fun p => sport p = s) props with
  | None, [] => None
  | o, l =>
      let entry := default {| ss_count := 0; ss_sample_markets := ∅;
                              ss_date_ranges := ∅ |} o in
      Some {| ss_count := length l + ss_count entry;
              ss_sample_markets :=
                list_to_set (market <$> l) ∪ ss_sample_markets entry;
              ss_date_ranges :=
                list_to_set (scraped_date_range <$> l) ∪ ss_date_ranges entry |}
  end.
Proof.
  induction props as [|p props IH]; intros m s; simpl.
  - destruct (m !! s) as [[c mk dr]|]; [|reflexivity].
    simpl. now rewrite !(left_id_L ∅ (∪)).
  - rewrite IH, summarize_prop_lookup, filter_cons.
    case_decide as Hs; [|reflexivity].
    cbn zeta. destruct (m !! s) as [[c mk dr]|]; simpl;
      rewrite !union_singleton_swap; f_equal; f_equal; lia.
Qed.

Lemma sports_summary_lookup props s :
  sports_summary props !! s =
  match filter (fun p => sport p = s) props with
  | [] => None
  | l => Some {| ss_count := length l;
                 ss_sample_markets := list_to_set (market <$> l);
                 ss_date_ranges := list_to_set (scraped_date_range <$> l) |}
  end.
Proof.
  unfold sports_summary. rewrite foldl_summarize_lookup, lookup_empty.
  destruct (filter (fun p => sport p = s) props) as [|p l]; [reflexivity|].
  cbn zeta. simpl default. cbn [ss_count ss_sample_markets ss_date_ranges].
  rewrite !(right_id_L ∅ (∪)), Nat.add_0_r. reflexivity.
Qed.

Lemma total_count_step (m : gmap string SportSummary) p :
  total_count (summarize_prop m p) = S (total_count m).
Proof.
  assert (Hcomm : forall (m' : gmap string SportSummary) j1 j2 z1 z2 y,
            j1 <> j2 -> m' !! j1 = Some z1 -> m' !! j2 = Some z2 ->
            (ss_count z1 + (ss_count z2 + y) = ss_count z2 + (ss_count z1 + y))%nat)
    by (intros; lia).
  unfold summarize_prop, total_count.
  destruct (m !! sport p) as [e|] eqn:He.
  - assert (Halter : alter (fun entry =>
              {| ss_count := S (ss_count entry);
                 ss_sample_markets := {[market p]} ∪ ss_sample_markets entry;
                 ss_date_ranges := {[scraped_date_range p]} ∪ ss_date_ranges entry |})
              (sport p) m
            = <[sport p :=
                 {| ss_count := S (ss_count e);
                    ss_sample_markets := {[market p]} ∪ ss_sample_markets e;
                    ss_date_ranges := {[scraped_date_range p]} ∪ ss_date_ranges e |}]>
                (delete (sport p) m)).
    { apply map_eq. intros k. destruct (decide (k = sport p)) as [->|Hk].
      - now rewrite lookup_alter_eq, lookup_insert_eq, He.
      - now rewrite lookup_alter_ne, lookup_insert_ne, lookup_delete_ne by done. }
    rewrite Halter.
    rewrite map_fold_insert_L; [|intros; lia | apply lookup_delete_eq].
    rewrite (map_fold_delete_L _ _ (sport p) e m); [|intros; lia | exact He].
    simpl. lia.
  - rewrite alter_insert_eq.
    rewrite map_fold_insert_L; [|intros; lia | exact He]. reflexivity.
Qed.

Lemma total_count_foldl props : forall m,
  total_count (foldl summarize_prop m props) = (length props + total_count m)%nat.
Proof.
  induction props as [|p props IH]; intros m; simpl; [reflexivity|].
  rewrite IH, total_count_step. lia.
Qed.

Lemma sports_summary_counts_dom (all_props : list PropRecord) :
  dom (sports_summary all_props) = list_to_set (sport <$> all_props).
Proof.
  apply set_eq. intros s. rewrite elem_of_dom, elem_of_list_to_set.
  rewrite sports_summary_lookup.
  pose proof (filter_sport_nil_iff all_props s) as Hnil.
  destruct (filter (fun p => sport p = s) all_props) as [|p l].
  - split; [intros [x Hx]; discriminate|].
    intros Hin. exfalso. now apply (proj1 Hnil).
  - split; [|eauto]. intros _.
    destruct (decide (s ∈ sport <$> all_props)) as [H|H]; [exact H|].
    apply Hnil in H. discriminate.
Qed.

(** X17: in the dictionary that the first loop of [get_props_summary]
    builds, the keys are the sports that occur; a sport's counter is the
    number of its records, never 0, its two sets are the markets and the
    date ranges of its records; and the counters add up to the size of the
    collection. *)
Theorem sports_summary_counts (all_props : list PropRecord) :
  dom (sports_summary all_props) = list_to_set (sport <$> all_props)
  /\ total_count (sports_summary all_props) = length all_props
  /\ forall s entry,
       sports_summary all_props !! s = Some entry ->
       ss_count entry = length (filter (fun p => sport p = s) all_props)
       /\ (0 < ss_count entry)%nat
       /\ ss_sample_markets entry
          = list_to_set (market <$> filter (fun p => sport p = s) all_props)
       /\ ss_date_ranges entry
          = list_to_set (scraped_date_range
                           <$> filter (fun p => sport p = s) all_props).
Proof.
  split; [apply sports_summary_counts_dom|]. split.
  - unfold sports_summary. rewrite total_count_foldl.
    unfold total_count. rewrite map_fold_empty. lia.
  - intros s entry Hentry. rewrite sports_summary_lookup in Hentry.
    destruct (filter (fun p => sport p = s) all_props) as [|p l]; [discriminate|].
    inversion Hentry. simpl. repeat split. lia.
Qed.

Lemma sports_summary_counts_witness :
  ss_count {| ss_count := 2; ss_sample_markets := {["Aaron Judge Hits"]};
              ss_date_ranges := {["today"]} |}
  = length (filter (fun p => sport p = "MLB")
              [sample_prop "MLB" "1+"; sample_prop "NBA" "2+"; sample_prop "MLB" "3+"]).
Proof.
  apply (proj2 (proj2 (sports_summary_counts
           [sample_prop "MLB" "1+"; sample_prop "NBA" "2+"; sample_prop "MLB" "3+"]))
           "MLB").
  rewrite sports_summary_lookup. reflexivity.
Defined.

Lemma listing_facts members l :
  listing members l ->
  NoDup l /\ length l = size members /\ (forall x, x ∈ l <-> x ∈ members).
Proof.
  unfold listing. intros Hperm. split; [|split].
  - rewrite Hperm. apply NoDup_elements.
  - now rewrite Hperm.
  - intros x. rewrite Hperm. apply elem_of_elements.
Qed.

Lemma get_props_summary_answers w :
  get_props_summary w (props_summary_in_some_order w)
    (snd (get_cached_or_fresh_data w)).
Proof.
  unfold get_props_summary, props_summary_in_some_order.
  cbn [su_total_props su_sports_count su_sports_breakdown su_cached].
  split; [reflexivity|]. split; [reflexivity|]. split; [reflexivity|].
  split; [|reflexivity].
  intros s. rewrite lookup_fmap.
  destruct (sports_summary (fst (get_cached_or_fresh_data w)) !! s) as [e|];
    [|exact I].
  cbn [fmap option_fmap option_map]. unfold breakdown_of, listing.
  cbn [sb_count sb_sample_markets sb_date_ranges].
  split; [reflexivity|]. split; [|reflexivity].
  exists (elements (ss_sample_markets e)). split; reflexivity.
Qed.

(** X18: every answer of [get_props_summary] has the size of the collection
    as ['total_props'], the number of different sports as ['sports_count']
    and one entry for each sport that occurs; an entry counts the sport's
    records, shows at most ten of its markets, each once and all of them
    when there are no more than ten, and lists its date ranges, each once;
    and the route always has such an answer. *)
Theorem get_props_summary_response (w w' : World) (resp : SummaryResponse) :
  get_props_summary w resp w' ->
  su_total_props resp = length (fst (get_cached_or_fresh_data w))
  /\ su_sports_count resp
     = size (list_to_set (sport <$> fst (get_cached_or_fresh_data w))
               : gset string)
  /\ (su_cached resp = true <-> fst (get_cached_or_fresh_data w) <> [])
  /\ (forall s, is_Some (su_sports_breakdown resp !! s)
                <-> s ∈ sport <$> fst (get_cached_or_fresh_data w))
  /\ (forall s b,
        su_sports_breakdown resp !! s = Some b ->
        sb_count b
        = length (filter (fun p => sport p = s) (fst (get_cached_or_fresh_data w)))
        /\ (length (sb_sample_markets b) <= 10)%nat
        /\ NoDup (sb_sample_markets b)
        /\ (forall mk, mk ∈ sb_sample_markets b ->
              mk ∈ market <$> filter (fun p => sport p = s)
                                (fst (get_cached_or_fresh_data w)))
        /\ ((size (list_to_set
                     (market <$> filter (fun p => sport p = s)
                                   (fst (get_cached_or_fresh_data w)))
                   : gset string) <= 10)%nat ->
            forall mk, mk ∈ market <$> filter (fun p => sport p = s)
                                          (fst (get_cached_or_fresh_data w)) ->
                       mk ∈ sb_sample_markets b)
        /\ NoDup (sb_date_ranges b)
        /\ (forall d, d ∈ sb_date_ranges b
                      <-> d ∈ scraped_date_range
                                <$> filter (fun p => sport p = s)
                                      (fst (get_cached_or_fresh_data w))))
  /\ exists resp0, get_props_summary w resp0 (snd (get_cached_or_fresh_data w)).
Proof.
  intros (Hw & Htotal & Hcount & Hbreak & Hcached).
  pose proof (cached_flag_after_get w) as Hflag.
  set (all_props := fst (get_cached_or_fresh_data w)) in *.
  pose proof (sports_summary_counts_dom all_props) as Hdom.
  split; [exact Htotal|]. split.
  { rewrite Hcount, <- Hdom. symmetry. apply size_dom. }
  split.
  { rewrite Hcached, Hflag. cbn. destruct all_props; split; congruence. }
  split.
  { intros s. specialize (Hbreak s).
    assert (Hkey : is_Some (sports_summary all_props !! s) <-> s ∈ sport <$> all_props).
    { rewrite <- elem_of_dom, Hdom. apply elem_of_list_to_set. }
    rewrite <- Hkey.
    destruct (sports_summary all_props !! s), (su_sports_breakdown resp !! s);
      try contradiction; split; intros [x Hx]; try discriminate; eauto. }
  split; [|exists (props_summary_in_some_order w); apply get_props_summary_answers].
  intros s b Hb. specialize (Hbreak s). rewrite Hb in Hbreak.
  rewrite sports_summary_lookup in Hbreak.
  destruct (filter (fun p => sport p = s) all_props) as [|p l] eqn:Hf;
    [contradiction|].
  destruct Hbreak as (Hc & (order & Horder & Hsample) & Hdates).
  cbn [ss_count ss_sample_markets ss_date_ranges] in *.
  destruct (listing_facts _ _ Horder) as (Hnd & Hlen & Hmem).
  destruct (listing_facts _ _ Hdates) as (Hnd' & _ & Hmem').
  split; [exact Hc|]. rewrite Hsample.
  split; [rewrite length_take; lia|].
  split; [eapply sublist_NoDup; [exact Hnd | apply sublist_take]|].
  split.
  { intros mk Hmk. apply (elem_of_list_to_set (C:=gset string)).
    apply Hmem. eapply elem_of_sublist; [exact Hmk | apply sublist_take]. }
  split.
  { intros Hsize mk Hmk. rewrite take_ge by lia.
    apply Hmem. now apply (elem_of_list_to_set (C:=gset string)). }
  split; [exact Hnd'|].
  intros d. rewrite Hmem'. apply (elem_of_list_to_set (C:=gset string)).
Qed.

Lemma get_props_summary_response_witness :
  su_total_props (props_summary_in_some_order (one_row_site 0))
  = length (fst (get_cached_or_fresh_data (one_row_site 0))).
Proof.
  apply (get_props_summary_response (one_row_site 0)
           (snd (get_cached_or_fresh_data (one_row_site 0)))
           (props_summary_in_some_order (one_row_site 0))
           (get_props_summary_answers (one_row_site 0))).
Defined.

(** ** The conversion rate and the converted records *)



Lemma number_plus_is_not_over b ds text :
  is_number_plus b ds -> b <> "Over " +:+ text.
Proof.
  intros (Hb & Hne & Hall) Heq. rewrite Hb in Heq.
  destruct ds as [|c ds]; [congruence|].
  simpl in Hall. apply andb_true_iff in Hall as [Hc _].
  simpl in Heq. inversion Heq; subst c. discriminate.
Qed.

Lemma well_formed_converted r :
  well_formed r ->
  (betslip_line r <> converted_betslip_line r
   <-> exists ds, is_number_plus (betslip_line r) ds).
Proof.
  intros (_ & Hconv & _ & _ & _ & Hstrip & _).
  destruct (re_match_number_plus (strip (betslip_line r))) as [ds|] eqn:Hm.
  - apply re_match_number_plus_strip in Hm.
    split; [intros _; rewrite Hstrip in Hm; eauto|]. intros _.
    rewrite (convert_bet_line_matched _ _ Hm) in Hconv.
    destruct (py_int ds) as [n|]; [|discriminate]. cbn [rbind] in Hconv.
    destruct (float_of_int n) as [x|]; [|discriminate]. cbn [rbind] in Hconv.
    inversion Hconv as [Hc]. rewrite Hstrip in Hm.
    eapply number_plus_is_not_over. exact Hm.
  - assert (Hnone : forall ds, ~ is_number_plus (strip (betslip_line r)) ds).
    { intros ds Hds. apply re_match_number_plus_strip in Hds. congruence. }
    assert (Hsame : convert_bet_line (betslip_line r) = Returns (betslip_line r)).
    { unfold convert_bet_line. destruct (String.eqb _ ""); [reflexivity|].
      now rewrite Hm. }
    rewrite Hsame in Hconv. inversion Hconv as [Hc].
    split; [congruence|]. intros [ds Hds]. exfalso.
    apply (Hnone ds). now rewrite Hstrip.
Qed.

(** X20: among the records of an aggregator run, those that
    [get_converted_lines] selects, the ones whose converted line differs
    from the bet line, are exactly those whose bet line is one or more
    digits and a plus sign. *)
Theorem converted_records_of_scraped (w : World) (r : PropRecord) :
  r ∈ fst (scrape_player_props w) ->
  (was_converted r = true <-> exists ds, is_number_plus (betslip_line r) ds).
Proof.
  intros Hr. pose proof (scrape_player_props_all_well_formed w) as Hall.
  rewrite Forall_forall in Hall. rewrite <- (well_formed_converted r (Hall r Hr)).
  unfold was_converted.
  destruct (String.eqb_spec (betslip_line r) (converted_betslip_line r));
    simpl; split; intros; congruence.
Qed.

Lemma converted_records_of_scraped_witness :
  was_converted
    {| event := "NYY @ BOS"; event_date := "Jul 4";
       market := "Aaron Judge Hits"; betslip_line := "2+";
       converted_betslip_line := "Over 1.5"; odds := "+120";
       draftkings_url := "https://dk.example/bet/1"; sport := "MLB";
       scraped_date_range := "today"; scraped_timestamp := 0 |} = true
  <-> exists ds, is_number_plus "2+" ds.
Proof.
  apply (converted_records_of_scraped (one_row_site 0)).
  vm_compute. left.
Defined.

(** ** A site that yields no rows *)

Lemma scrape_target_without_rows config date_range acc w :
  (forall i url, without_rows (remote w i url)) ->
  fst (scrape_target config date_range acc w) = acc.
Proof.
  intros Hno. unfold scrape_target, bind, http_fetch.
  specialize (Hno (length (requests w)) (target_url (sc_id config) date_range)).
  destruct (remote w (length (requests w)) (target_url (sc_id config) date_range))
    as [|[| |[|row rows]]]; try reflexivity.
  destruct Hno.
Qed.

Lemma scrape_date_ranges_without_rows config date_ranges acc w :
  (forall i url, without_rows (remote w i url)) ->
  fst (scrape_date_ranges config date_ranges acc w) = acc.
Proof.
  revert w. induction date_ranges as [|d ds IH]; intros w Hno; simpl; [reflexivity|].
  unfold bind.
  pose proof (scrape_target_without_rows config d acc w Hno) as Hacc.
  destruct (scrape_target_untouched config d acc w) as (_ & Hr & _).
  destruct (scrape_target config d acc w) as [acc' w1]. simpl in *. subst acc'.
  apply IH. now rewrite Hr.
Qed.

Lemma scrape_sports_without_rows configs acc w :
  (forall i url, without_rows (remote w i url)) ->
  fst (scrape_sports configs acc w) = acc.
Proof.
  revert w. induction configs as [|c cs IH]; intros w Hno; simpl; [reflexivity|].
  unfold bind.
  pose proof (scrape_date_ranges_without_rows c (sc_date_ranges c) acc w Hno)
    as Hacc.
  destruct (scrape_date_ranges_untouched c (sc_date_ranges c) acc w)
    as (_ & Hr & _).
  destruct (scrape_date_ranges c (sc_date_ranges c) acc w) as [acc' w1].
  simpl in *. subst acc'. apply IH. now rewrite Hr.
Qed.

Lemma scrape_player_props_remote w :
  remote (snd (scrape_player_props w)) = remote w.
Proof.
  unfold scrape_player_props, bind. simpl.
  destruct (scrape_sports_untouched sport_configs [] (snd (enter_scrape w)))
    as (_ & Hr & _).
  exact Hr.
Qed.

Lemma scrape_player_props_without_rows w :
  (forall i url, without_rows (remote w i url)) ->
  fst (scrape_player_props w) = [].
Proof.
  intros Hno. unfold scrape_player_props, bind, enter_scrape. cbv beta iota.
  now apply scrape_sports_without_rows.
Qed.

Lemma scrape_and_store_remote w :
  remote (snd (scrape_and_store w)) = remote w.
Proof.
  pose proof (scrape_player_props_remote w) as Hr.
  unfold scrape_and_store, bind.
  destruct (scrape_player_props w) as [fresh w1]. exact Hr.
Qed.

(** X21: when no answer of the site carries a row and nothing is held, the
    cache never takes effect: each of [n] successive calls of
    [get_cached_or_fresh_data] runs the aggregator and sends its 26
    requests, whatever the clock shows, and nothing is held afterwards. *)
Theorem get_repeatedly_without_rows (n : nat) (w : World) :
  (forall i url, without_rows (remote w i url)) ->
  cached_props_data w = [] ->
  scrape_calls (snd (get_repeatedly n w)) = (scrape_calls w + n)%nat
  /\ length (requests (snd (get_repeatedly n w)))
     = (length (requests w) + 26 * n)%nat
  /\ cached_props_data (snd (get_repeatedly n w)) = [].
Proof.
  revert w. induction n as [|n IH]; intros w Hno Hempty.
  - simpl. repeat split; [lia | lia | exact Hempty].
  - simpl. unfold bind.
    pose proof (get_cached_or_fresh_data_cases w) as Hcases.
    rewrite Hempty in Hcases.
    destruct (scrape_and_store_spec w) as (H1 & H2 & _ & H4 & _).
    destruct (scrape_and_store_requests w) as [H5 _].
    pose proof (scrape_and_store_remote w) as H6.
    rewrite <- Hcases in H1, H2, H4, H5, H6.
    destruct (get_cached_or_fresh_data w) as [props w1]. simpl in *.
    rewrite (scrape_player_props_without_rows w Hno) in H2.
    destruct (IH w1) as (Hc & Hr & Hd).
    + now rewrite H6.
    + exact H2.
    + rewrite Hc, Hr, H4, H5, length_app. repeat split; [lia | | exact Hd].
      change (length all_target_urls) with 26%nat. lia.
Qed.

Lemma get_repeatedly_without_rows_witness :
  scrape_calls (snd (get_repeatedly 3 (unreachable_site 0 [] None))) = 3%nat.
Proof.
  apply (get_repeatedly_without_rows 3 (unreachable_site 0 [] None)).
  - intros i url. exact I.
  - reflexivity.
Defined.

(** ** Runs against the same answers *)

Lemma same_but_time_duplicate acc1 acc2 p q :
  Forall2 same_but_time acc1 acc2 -> same_but_time p q ->
  is_duplicate acc1 p = is_duplicate acc2 q.
Proof.
  intros Hacc (He & Hd & Hm & Hb & _ & _ & _ & _ & Hr).
  unfold is_duplicate.
  induction Hacc as [|x y l1 l2 (He' & Hd' & Hm' & Hb' & _ & _ & _ & _ & Hr') _ IH];
    [reflexivity|].
  simpl. rewrite IH. unfold same_prop.
  now rewrite He, Hd, Hm, Hb, Hr, He', Hd', Hm', Hb', Hr'.
Qed.

Lemma parse_prop_row_same_but_time row sport_name date_range w1 w2 :
  option_Forall2 same_but_time
    (fst (parse_prop_row row sport_name date_range w1))
    (fst (parse_prop_row row sport_name date_range w2)).
Proof.
  destruct (Nat.lt_ge_cases (length row) 5) as [Hlt|Hge].
  - rewrite !parse_prop_row_short by exact Hlt. constructor.
  - destruct row as [|c0 [|c1 [|c2 [|c3 [|c4 rest']]]]]; simpl in Hge; try lia.
    rewrite !parse_prop_row_cells.
    destruct (convert_bet_line (strip (c_text c3))); constructor.
    repeat split.
Qed.

Lemma scrape_rows_same_but_time sport_name date_range rows acc1 acc2 w1 w2 :
  Forall2 same_but_time acc1 acc2 ->
  Forall2 same_but_time
    (fst (scrape_rows sport_name date_range rows acc1 w1))
    (fst (scrape_rows sport_name date_range rows acc2 w2)).
Proof.
  revert acc1 acc2 w1 w2.
  induction rows as [|row rows IH]; intros acc1 acc2 w1 w2 Hacc; simpl;
    [exact Hacc|].
  unfold bind.
  pose proof (parse_prop_row_same_but_time row sport_name date_range w1 w2) as Hp.
  destruct (parse_prop_row row sport_name date_range w1) as [o1 w1'].
  destruct (parse_prop_row row sport_name date_range w2) as [o2 w2'].
  simpl in Hp. destruct Hp as [p q Hpq|]; [|now apply IH].
  rewrite (same_but_time_duplicate acc1 acc2 p q Hacc Hpq).
  destruct (is_duplicate acc2 q); apply IH; [exact Hacc|].
  apply Forall2_app; [exact Hacc|]. constructor; [exact Hpq | constructor].
Qed.

Section SameAnswers.

Variables w1 w2 : World.
Hypothesis same_answers : forall i j url, remote w1 i url = remote w2 j url.

Lemma scrape_target_same_but_time config date_range acc1 acc2 u1 u2 :
  remote u1 = remote w1 -> remote u2 = remote w2 ->
  Forall2 same_but_time acc1 acc2 ->
  Forall2 same_but_time
    (fst (scrape_target config date_range acc1 u1))
    (fst (scrape_target config date_range acc2 u2)).
Proof.
  intros Hr1 Hr2 Hacc.
  unfold scrape_target, bind, http_fetch. rewrite Hr1, Hr2.
  rewrite (same_answers (length (requests u1)) (length (requests u2))).
  destruct (remote w2 (length (requests u2)) _) as [|[| |rows]]; try exact Hacc.
  now apply scrape_rows_same_but_time.
Qed.

Lemma scrape_date_ranges_same_but_time config date_ranges acc1 acc2 u1 u2 :
  remote u1 = remote w1 -> remote u2 = remote w2 ->
  Forall2 same_but_time acc1 acc2 ->
  Forall2 same_but_time
    (fst (scrape_date_ranges config date_ranges acc1 u1))
    (fst (scrape_date_ranges config date_ranges acc2 u2)).
Proof.
  revert acc1 acc2 u1 u2.
  induction date_ranges as [|d ds IH]; intros acc1 acc2 u1 u2 H1 H2 Hacc; simpl;
    [exact Hacc|].
  unfold bind.
  pose proof (scrape_target_same_but_time config d acc1 acc2 u1 u2 H1 H2 Hacc)
    as Ht.
  destruct (scrape_target_untouched config d acc1 u1) as (_ & Hu1 & _).
  destruct (scrape_target_untouched config d acc2 u2) as (_ & Hu2 & _).
  destruct (scrape_target config d acc1 u1) as [a1 v1].
  destruct (scrape_target config d acc2 u2) as [a2 v2].
  simpl in *. apply IH; [congruence | congruence | exact Ht].
Qed.

Lemma scrape_sports_same_but_time configs acc1 acc2 u1 u2 :
  remote u1 = remote w1 -> remote u2 = remote w2 ->
  Forall2 same_but_time acc1 acc2 ->
  Forall2 same_but_time
    (fst (scrape_sports configs acc1 u1))
    (fst (scrape_sports configs acc2 u2)).
Proof.
  revert acc1 acc2 u1 u2.
  induction configs as [|c cs IH]; intros acc1 acc2 u1 u2 H1 H2 Hacc; simpl;
    [exact Hacc|].
  unfold bind.
  pose proof (scrape_date_ranges_same_but_time c (sc_date_ranges c)
                acc1 acc2 u1 u2 H1 H2 Hacc) as Ht.
  destruct (scrape_date_ranges_untouched c (sc_date_ranges c) acc1 u1)
    as (_ & Hu1 & _).
  destruct (scrape_date_ranges_untouched c (sc_date_ranges c) acc2 u2)
    as (_ & Hu2 & _).
  destruct (scrape_date_ranges c (sc_date_ranges c) acc1 u1) as [a1 v1].
  destruct (scrape_date_ranges c (sc_date_ranges c) acc2 u2) as [a2 v2].
  simpl in *. apply IH; [congruence | congruence | exact Ht].
Qed.

End SameAnswers.

(** X22: two runs of the aggregator that get the same answer to every URL,
    at whatever time and after whatever earlier requests, give collections
    of the same length whose records agree, position by position, in every
    field but [scraped_timestamp]. *)
Theorem scrape_player_props_same_answers (w1 w2 : World) :
  (forall i j url, remote w1 i url = remote w2 j url) ->
  Forall2 same_but_time
    (fst (scrape_player_props w1)) (fst (scrape_player_props w2)).
Proof.
  intros Hsame. unfold scrape_player_props, bind, enter_scrape. cbv beta iota.
  apply (scrape_sports_same_but_time w1 w2 Hsame);
    [reflexivity | reflexivity | constructor].
Qed.

Lemma scrape_player_props_same_answers_witness :
  Forall2 same_but_time
    (fst (scrape_player_props steady_site))
    (fst (scrape_player_props (snd (scrape_player_props steady_site)))).
Proof.
  apply (scrape_player_props_same_answers
           steady_site (snd (scrape_player_props steady_site))).
  intros i j url. rewrite scrape_player_props_remote. reflexivity.
Defined.
